(** * alpha-visualizer: block indexing, interpolation and chart windows

    A shallow embedding of the data layer of the visualizer:
    - [load_data], [get_frame_data], [interpolate_data]  (data_processor.py)
    - the module-level preprocessing of the loaded frame  (main.py)
    - [optimize_chart_data], [find_current_value]         (visualizer.py)

    Modelling conventions.
    - The [block] column is an integer column (int64), modelled by [Z].
    - Python floats (the animation position, the metric columns) are modelled
      by exact rationals [Q]: positions, targets and the stored values are
      the numbers the floats hold. Where rounding decides what a value is,
      the operation is modelled on the primitive binary64 numbers [float]:
      the blend of line 218 of data_processor.py is [blend64].
    - Differences of blocks are taken in [int64] and stored as [float64], as
      pandas does ([wrap64], [to_float64]).
    - A pandas DataFrame is a list of labelled rows: every row carries its
      index label, [iloc] addresses rows by position and [loc] by label.
    - Python exceptions are values of [exc]; a [try/except Exception] is a
      match on [Raise]. *)

From Stdlib Require Import Floats.
From Stdlib Require Import String ZArith QArith Qabs Qround Qminmax List Bool Lia Lqa.
From Stdlib Require Import Sorting.Sorted Permutation.
Import ListNotations.

(** ** Exceptions *)

Inductive pyerr : Type :=
| KeyError
| IndexError
| ValueError
| ZeroDivisionError.

Inductive exc (A : Type) : Type :=
| Ok (a : A)
| Raise (e : pyerr).

Arguments Ok {A} a.
Arguments Raise {A} e.

Definition bind {A B : Type} (m : exc A) (k : A -> exc B) : exc B :=
  match m with
  | Ok a => k a
  | Raise e => Raise e
  end.

Notation "x <- m ;; k" := (bind m (fun x => k))
  (at level 61, m at next level, right associativity).

(** ** Configuration (config.py) *)

Definition BLOCKS_PER_DAY : Z := 14400.
Definition CHART_WINDOW_SIZE : Z := 15000.
Definition MAX_DATA_POINTS_PER_CHART : Z := 40.

(** ** Python arithmetic on the rational model of floats *)

Definition Qltb (a b : Q) : bool := negb (Qle_bool b a).

(** [int(x)]: truncation toward zero. *)
Definition py_int (x : Q) : Z := Z.quot (Qnum x) (Zpos (Qden x)).

(** [int(x / d)]; with a zero divisor the call raises (the division itself
    for Python numbers, the conversion of inf or nan for numpy floats). *)
Definition int_div (x : Q) (d : Z) : exc Z :=
  if (d =? 0)%Z then Raise ZeroDivisionError
  else Ok (py_int (x / inject_Z d)).

(** [round(x)]: nearest integer, halves to the even neighbour. *)
Definition py_round (x : Q) : Z :=
  let f := Qfloor x in
  let r := x - inject_Z f in
  if Qltb r (1 # 2) then f
  else if Qltb (1 # 2) r then (f + 1)%Z
  else if Z.even f then f else (f + 1)%Z.

(** [max(a, b)] and [min(a, b)] return the first argument on ties. *)
Definition py_max (a b : Q) : Q := if Qltb a b then b else a.
Definition py_min (a b : Q) : Q := if Qltb b a then b else a.

(** ** Rows and frames *)

(** A row of the frame: the key column, the derived day column and the
    remaining numeric columns in column order. *)
Record Row : Type := mkRow {
  block : Z;
  day : Z;
  vals : list Q
}.

(** A row synthesised by interpolation: its block is the (real) target. *)
Record InterpRow : Type := mkInterpRow {
  i_block : Q;
  i_day : Z;
  i_vals : list Q
}.

(** What the lookups return: [pd.Series()] (the empty sentinel), a row of the
    frame, or a synthesised row. *)
Inductive Series : Type :=
| EmptySeries
| FrameRow (r : Row)
| Interpolated (r : InterpRow).

Record DataFrame : Type := mkFrame {
  columns : list string;            (* names of the [vals] columns *)
  rows : list (Z * Row);            (* (index label, row), in positional order *)
  block_interval : option Z         (* attrs['block_interval'] *)
}.

Definition len (data : DataFrame) : Z := Z.of_nat (length (rows data)).

(** [data.attrs.get('block_interval', 1000)] *)
Definition attrs_block_interval (data : DataFrame) : Z :=
  match block_interval data with
  | Some i => i
  | None => 1000
  end.

(** [rows.iloc[i]]: positional access, negative positions count from the end. *)
Definition iloc_rows (rs : list (Z * Row)) (i : Z) : exc Row :=
  let n := Z.of_nat (length rs) in
  let p := if (i <? 0)%Z then (n + i)%Z else i in
  if (p <? 0)%Z then Raise IndexError
  else match nth_error rs (Z.to_nat p) with
       | Some lr => Ok (snd lr)
       | None => Raise IndexError
       end.

Definition iloc (data : DataFrame) (i : Z) : exc Row := iloc_rows (rows data) i.

(** [data.loc[idx]]: access by label. *)
Definition loc (data : DataFrame) (idx : Z) : exc Row :=
  match find (fun lr => (fst lr =? idx)%Z) (rows data) with
  | Some lr => Ok (snd lr)
  | None => Raise KeyError
  end.

(** [seq[a:b]] with Python's treatment of negative and oversized bounds. *)
Definition slice_bound (n i : Z) : Z :=
  if (i <? 0)%Z then Z.max 0 (n + i) else Z.min i n.

Definition iloc_slice {A : Type} (a b : Z) (l : list A) : list A :=
  let n := Z.of_nat (length l) in
  let a' := slice_bound n a in
  let b' := slice_bound n b in
  firstn (Z.to_nat (b' - a')) (skipn (Z.to_nat a') l).

(** [(rows['block'] - current_block).abs()]: a series keeping the labels. *)
Definition dist (current_block : Q) (r : Row) : Q :=
  Qabs (inject_Z (block r) - current_block).

Definition abs_diff (current_block : Q) (rs : list (Z * Row)) : list (Z * Q) :=
  map (fun lr => (fst lr, dist current_block (snd lr))) rs.

(** [series.idxmin()]: the label of the first minimal value. *)
Fixpoint idxmin_from (best : Z * Q) (s : list (Z * Q)) : Z :=
  match s with
  | [] => fst best
  | x :: s' =>
      if Qltb (snd x) (snd best) then idxmin_from x s' else idxmin_from best s'
  end.

Definition idxmin (s : list (Z * Q)) : exc Z :=
  match s with
  | [] => Raise ValueError
  | x :: s' => Ok (idxmin_from x s')
  end.

(** [series.idxmax()] on a boolean series: the label of the first [True],
    the first label when no entry is [True]. *)
Fixpoint idxmax_from (first : Z) (s : list (Z * bool)) : Z :=
  match s with
  | [] => first
  | x :: s' => if snd x then fst x else idxmax_from first s'
  end.

Definition idxmax (s : list (Z * bool)) : exc Z :=
  match s with
  | [] => Raise ValueError
  | x :: _ => Ok (idxmax_from (fst x) s)
  end.

(** [rows['block'] <= current_block] *)
Definition le_target (current_block : Q) (rs : list (Z * Row)) : list (Z * bool) :=
  map (fun lr => (fst lr, Qle_bool (inject_Z (block (snd lr))) current_block)) rs.

(** ** data_processor.get_frame_data *)

(** The clamped approximate position, [max(0, min(int(t / interval), n - 1))]. *)
Definition approx_index (data : DataFrame) (current_block : Q) : exc Z :=
  q <- int_div current_block (attrs_block_interval data) ;;
  Ok (Z.max 0 (Z.min q (len data - 1))).

Definition get_frame_data_try (data : DataFrame) (current_block : Q) : exc Series :=
  if (len data =? 0)%Z then Ok EmptySeries
  else
    let interval := attrs_block_interval data in
    approx_idx <- approx_index data current_block ;;
    r <- iloc data approx_idx ;;
    idx <- (if Qltb (inject_Z (interval * 2)) (dist current_block r)
            then idxmin (abs_diff current_block (rows data))
            else
              let start_idx := Z.max 0 (approx_idx - 2) in
              let end_idx := Z.min (len data) (approx_idx + 3) in
              l <- idxmin (abs_diff current_block
                             (iloc_slice start_idx end_idx (rows data))) ;;
              Ok (start_idx + l)%Z) ;;
    _ <- loc data idx ;;               (* the debug line reads data.loc[idx, 'block'] *)
    row <- loc data idx ;;
    Ok (FrameRow row).

Definition get_frame_data (data : DataFrame) (current_block : Q) : Series :=
  match get_frame_data_try data current_block with
  | Ok s => s
  | Raise _ => EmptySeries
  end.

(** ** data_processor.interpolate_data *)

(** The backward search of the bracket: up to five rows before the
    approximate position, read from the last one. *)
Definition look_back (data : DataFrame) (current_block : Q)
    (approx_idx_before : Z) : exc Z :=
  let search_start := Z.max 0 (approx_idx_before - 5) in
  let search_end := approx_idx_before in
  let search_subset := iloc_slice search_start search_end (rows data) in
  if (0 <? Z.of_nat (length search_subset))%Z then
    l <- idxmax (rev (le_target current_block search_subset)) ;;
    Ok (search_start + l)%Z
  else Ok 0%Z.

(** The forward search: up to five rows from the approximate position on. *)
Definition look_ahead (data : DataFrame) (current_block : Q)
    (approx_idx_before : Z) : exc Z :=
  let search_start := approx_idx_before in
  let search_end := Z.min (len data) (approx_idx_before + 5) in
  let search_subset := iloc_slice search_start search_end (rows data) in
  let matches := le_target current_block search_subset in
  if existsb snd matches then
    l <- idxmax (rev matches) ;;
    Ok (search_start + l)%Z
  else Ok (Z.min (len data - 2) search_start).

(** The bracket search: the approximate position from the block interval,
    then a bounded look-back or look-ahead. Returns [(idx_before, idx_after)]. *)
Definition find_bracket (data : DataFrame) (current_block : Q) : exc (Z * Z) :=
  let interval := attrs_block_interval data in
  q <- int_div current_block interval ;;
  let approx_idx_before :=
    Z.max 0 (if (q >=? len data)%Z then (len data - 1)%Z else q) in
  r <- iloc data approx_idx_before ;;
  let actual_before_block := inject_Z (block r) in
  idx_before <-
    (if Qltb current_block actual_before_block then
       (* need to look earlier *)
       look_back data current_block approx_idx_before
     else if Qltb actual_before_block current_block then
       next_after <-
         (if (approx_idx_before + 1 <? len data)%Z then
            r' <- iloc data (approx_idx_before + 1) ;;
            Ok (Qltb current_block (inject_Z (block r')))
          else Ok false) ;;
       if next_after then Ok approx_idx_before
       else
         (* need to look further ahead *)
         look_ahead data current_block approx_idx_before
     else
       (* exact match *)
       Ok approx_idx_before) ;;
  let idx_after := Z.min (len data - 1) (idx_before + 1) in
  Ok (idx_before, idx_after).

(** The interpolation factor between two blocks. *)
Definition interp_factor (block_before block_after : Z) (current_block : Q) : Q :=
  if (block_after =? block_before)%Z then 0
  else (current_block - inject_Z block_before)
       / (inject_Z block_after - inject_Z block_before).

(** The synthesised row: every column but [block] and [day] is blended,
    [block] is the target and [day] is recomputed from it. [i_vals] tells
    which two values and which factor enter each blend and gives the blend
    in exact arithmetic; what binary64 makes of it is [blend64]. The day of
    the row is [i_day], also when the file had a [day] column of its own,
    which [load_data] overwrites and [vals] keeps in its place. *)
Definition interpolate (before_row after_row : Row) (current_block : Q) : InterpRow :=
  let factor := interp_factor (block before_row) (block after_row) current_block in
  {| i_block := current_block;
     i_day := Qfloor (current_block / inject_Z BLOCKS_PER_DAY);
     i_vals := map (fun ba => fst ba + factor * (snd ba - fst ba))
                   (combine (vals before_row) (vals after_row)) |}.




Definition interpolate_data_try (data : DataFrame) (current_block : Q) : exc Series :=
  if (len data <=? 1)%Z then
    if (len data =? 0)%Z then Ok EmptySeries
    else r <- iloc data 0 ;; Ok (FrameRow r)
  else
    br <- find_bracket data current_block ;;
    let idx_before := fst br in
    let idx_after := snd br in
    if (idx_before <? 0)%Z then r <- iloc data 0 ;; Ok (FrameRow r)
    else if (idx_after >=? len data)%Z then r <- iloc data (-1) ;; Ok (FrameRow r)
    else
      before_row <- iloc data idx_before ;;
      after_row <- iloc data idx_after ;;
      Ok (Interpolated (interpolate before_row after_row current_block)).

(** On any exception the function falls back to the nearest-row lookup. *)
Definition interpolate_data (data : DataFrame) (current_block : Q) : Series :=
  match interpolate_data_try data current_block with
  | Ok s => s
  | Raise _ => get_frame_data data current_block
  end.

(** ** data_processor.load_data *)

(** The parsed CSV file: the names of the columns other than [block], and one
    record per line, its block and its other values in column order (lines are
    as wide as the header). *)
Record CsvTable : Type := mkCsv {
  csv_columns : list string;
  csv_rows : list (Z * list Q)
}.

Fixpoint index_of (name : string) (cols : list string) : option nat :=
  match cols with
  | [] => None
  | c :: cols' =>
      if String.eqb c name then Some O
      else option_map S (index_of name cols')
  end.

(** [frame[name]]: the position of a column, [KeyError] when absent. *)
Definition column (cols : list string) (name : string) : exc nat :=
  match index_of name cols with
  | Some p => Ok p
  | None => Raise KeyError
  end.

Fixpoint replace_nth {A : Type} (p : nat) (x : A) (l : list A) : list A :=
  match l, p with
  | [], _ => []
  | _ :: l', O => x :: l'
  | y :: l', S p' => y :: replace_nth p' x l'
  end.

(** [frame[name] = value]: overwrite the column, or append a new one. *)
Definition set_value (cols : list string) (name : string) (x : Q) (vs : list Q) : list Q :=
  match index_of name cols with
  | Some p => replace_nth p x vs
  | None => vs ++ [x]
  end.

(** [frame[name] = value] for a column that is kept apart from [vals] when
    the file does not have it: overwrite the column if the file has it. *)
Definition overwrite_value (cols : list string) (name : string) (x : Q)
    (vs : list Q) : list Q :=
  match index_of name cols with
  | Some p => replace_nth p x vs
  | None => vs
  end.

Definition set_column_name (cols : list string) (name : string) : list string :=
  match index_of name cols with
  | Some _ => cols
  | None => cols ++ [name]
  end.

(** [pd.read_csv]: lines get the labels 0, 1, 2, ... *)
Definition range_index {A : Type} (l : list A) : list (Z * A) :=
  combine (map Z.of_nat (seq 0 (length l))) l.

(** [frame.sort_values('block')], as an insertion sort; rows keep their
    labels. pandas leaves the order of equal keys open (its default sort is
    not stable); this sort puts the later line first, and no theorem depends
    on that order. *)
Fixpoint insert_by_block (x : Z * Row) (l : list (Z * Row)) : list (Z * Row) :=
  match l with
  | [] => [x]
  | y :: l' =>
      if (block (snd x) <? block (snd y))%Z then x :: l
      else y :: insert_by_block x l'
  end.

Definition sort_values (l : list (Z * Row)) : list (Z * Row) :=
  fold_right insert_by_block [] l.

(** [int64] arithmetic: a result outside [-2^63, 2^63) wraps around. *)
Definition wrap64 (z : Z) : Z := ((z + 2 ^ 63) mod 2 ^ 64 - 2 ^ 63)%Z.

(** The conversion of an [int64] to [float64], as the integer the float
    holds: integers up to 2^53 in magnitude are kept, larger ones are rounded
    to 53 significant bits, ties to the even mantissa. *)
Definition to_float64 (z : Z) : Z :=
  let a := Z.abs z in
  if (a <? 2 ^ 53)%Z then z
  else
    let e := (Z.log2 a - 52)%Z in
    let q := Z.shiftr a e in
    let r := (a - Z.shiftl q e)%Z in
    let half := Z.shiftl 1 (e - 1) in
    let q' := if (half <? r)%Z || ((r =? half)%Z && Z.odd q)
              then (q + 1)%Z else q in
    (Z.sgn z * Z.shiftl q' e)%Z.

(** [series.diff().dropna()] on the [int64] block column: pandas subtracts
    in [int64] and stores the differences as [float64]. *)
Fixpoint diff (bs : list Z) : list Z :=
  match bs with
  | a :: (b :: _) as bs' => to_float64 (wrap64 (b - a)) :: diff bs'
  | _ => []
  end.

(** The integer a binary64 number holds, when it holds one. *)
Definition integer_of_float (f : float) : option Z :=
  match Prim2SF f with
  | S754_zero _ => Some 0%Z
  | S754_finite s m e =>
      if (0 <=? e)%Z then Some (cond_Zopp s (Zpos m * 2 ^ e))%Z else
      if (Zpos m mod 2 ^ (- e) =? 0)%Z then Some (cond_Zopp s (Zpos m / 2 ^ (- e)))%Z
      else None
  | _ => None
  end.

(** The primitive conversion of a non-negative [int64] to binary64. *)
Definition float_of_int64 (z : Z) : float := of_uint63 (Uint63.of_Z z).

Definition occurrences (x : Z) (l : list Z) : nat :=
  length (filter (Z.eqb x) l).

(** [series.mode().iloc[0]]: the smallest of the most frequent values. *)
Definition mode_first (l : list Z) : exc Z :=
  match l with
  | [] => Raise IndexError
  | x0 :: _ =>
      Ok (fold_left
            (fun best x =>
               if (occurrences best l <? occurrences x l)%nat
                  || ((occurrences best l =? occurrences x l)%nat && (x <? best)%Z)
               then x else best)
            l x0)
  end.

Definition blocks_of (rs : list (Z * Row)) : list Z :=
  map (fun lr => block (snd lr)) rs.

Definition required_columns : list string :=
  ["network_rate"; "generation_rate"; "exchange_rate"; "warehouse_capacity";
   "AlphaPoints_per_block_in"; "AlphaPoints_per_block_out"; "token_price"]%string.

(** The frame returned when the file cannot be loaded. *)
Definition empty_frame : DataFrame :=
  {| columns := required_columns; rows := []; block_interval := None |}.

Definition load_data_try (csv : CsvTable) : exc DataFrame :=
  let cols := csv_columns csv in
  p_in <- column cols "AlphaPoints_per_block_in" ;;
  p_out <- column cols "AlphaPoints_per_block_out" ;;
  let flow := "net_alpha_points_flow"%string in
  let mk (line : Z * list Q) : Row :=
    let d := (fst line / BLOCKS_PER_DAY)%Z in
    let vs := overwrite_value cols "day" (inject_Z d) (snd line) in
    {| block := fst line;
       day := d;
       vals := set_value cols flow (nth p_in vs 0 - nth p_out vs 0) vs |} in
  let data := range_index (map mk (csv_rows csv)) in
  let cols' := set_column_name cols flow in
  if (1 <? Z.of_nat (length data))%Z then
    let data := sort_values data in
    let block_intervals := diff (blocks_of data) in
    if (0 <? Z.of_nat (length block_intervals))%Z then
      most_common_interval <- mode_first block_intervals ;;
      Ok {| columns := cols'; rows := data;
            block_interval := Some most_common_interval |}
    else Ok {| columns := cols'; rows := data; block_interval := Some 1000%Z |}
  else Ok {| columns := cols'; rows := data; block_interval := Some 1000%Z |}.

(** [None] is a file that takes one of the error exits before the rows are
    read: it is missing, [read_csv] cannot parse it, or it has no [block]
    column. *)
Definition load_data (file : option CsvTable) : DataFrame :=
  match file with
  | None => empty_frame
  | Some csv =>
      match load_data_try csv with
      | Ok data => data
      | Raise _ => empty_frame
      end
  end.

(** ** main.py: the preprocessing of the loaded frame *)

(** [frame.reset_index(drop=True)] *)
Definition reset_index (rs : list (Z * Row)) : list (Z * Row) :=
  range_index (map snd rs).

Definition main_empty_frame : DataFrame :=
  {| columns := ["exchange_rate"; "average_transaction_cost_usd"; "network_rate";
                 "generation_rate"; "warehouse_capacity";
                 "AlphaPoints_per_block_in"; "AlphaPoints_per_block_out"]%string;
     rows := []; block_interval := None |}.

(** [data = data.sort_values('block').reset_index(drop=True)] and the block
    interval, for a frame with rows. *)
Definition preprocess (data : DataFrame) : DataFrame :=
  if (0 <? len data)%Z then
    let rs := reset_index (sort_values (rows data)) in
    let data1 := {| columns := columns data; rows := rs;
                    block_interval := block_interval data |} in
    if (1 <? Z.of_nat (length rs))%Z then
      let block_diff := diff (blocks_of rs) in
      if (0 <? Z.of_nat (length block_diff))%Z then
        match mode_first block_diff with
        | Ok most_common_interval =>
            {| columns := columns data; rows := rs;
               block_interval := Some most_common_interval |}
        | Raise _ => data1
        end
      else data1
    else data1
  else data.

(** The frame every callback of the application reads. *)
Definition main_data (file : option CsvTable) : DataFrame :=
  let data := load_data file in
  preprocess (if (0 <? len data)%Z then data else main_empty_frame).

(** ** visualizer.find_current_value and visualizer.optimize_chart_data *)

Record ChartData : Type := mkChart {
  window_data : list (Z * Row);
  start_block : Q;
  end_block : Q;
  current_value : option (Z * Q)      (* block and value of the marker, or None *)
}.

(** [row[name]]: a column of [vals] by its name; the columns [block] and
    [day], which every frame with rows has, are the fields of the row when
    [vals] does not hold them; [KeyError] for any other name. *)
Definition get_value (cols : list string) (r : Row) (name : string) : exc Q :=
  match index_of name cols with
  | Some p =>
      match nth_error (vals r) p with
      | Some v => Ok v
      | None => Raise KeyError
      end
  | None =>
      if String.eqb name "block" then Ok (inject_Z (block r))
      else if String.eqb name "day" then Ok (inject_Z (day r))
      else Raise KeyError
  end.

Definition find_current_value_try (data : DataFrame) (current_block : Q)
    (col : string) : exc (Z * Q) :=
  let interval := attrs_block_interval data in
  q <- (if (interval =? 0)%Z then Raise ZeroDivisionError
        else Ok (py_round (current_block / inject_Z interval))) ;;
  let closest_idx := Z.min (len data - 1) (Z.max 0 q) in
  r <- iloc data closest_idx ;;
  closest_idx <-
    (if Qltb (inject_Z (interval * 2)) (dist current_block r)
     then idxmin (abs_diff current_block (rows data))
     else Ok closest_idx) ;;
  closest <- iloc data closest_idx ;;
  current_value <- get_value (columns data) closest col ;;
  Ok (block closest, current_value).

Definition find_current_value (data : DataFrame) (current_block : Q)
    (col : string) : option (Z * Q) :=
  match find_current_value_try data current_block col with
  | Ok v => Some v
  | Raise _ => None
  end.

(** The window bounds and the rows of the window, before downsampling. *)
Definition chart_window (data : DataFrame) (current_block : Q) (max_block : Z)
    : exc (Q * Q * list (Z * Row)) :=
  let window_size := CHART_WINDOW_SIZE in
  let start_block := py_max 0 (current_block - inject_Z (window_size / 2)) in
  let end_block := py_min (inject_Z max_block)
                          (current_block + inject_Z (window_size / 2)) in
  let interval := attrs_block_interval data in
  qs <- int_div start_block interval ;;
  let start_idx := Z.max 0 (qs - 1) in
  qe <- int_div end_block interval ;;
  let end_idx := Z.min (len data) (qe + 2) in
  let data_subset := iloc_slice start_idx end_idx (rows data) in
  let window :=
    filter (fun lr => Qle_bool start_block (inject_Z (block (snd lr)))
                      && Qle_bool (inject_Z (block (snd lr))) end_block)
           data_subset in
  Ok (start_block, end_block, window).

(** [seq[::n]] for a step [n >= 1]: positions 0, n, 2n, ... *)
Fixpoint every_nth {A : Type} (n skip : nat) (l : list A) : list A :=
  match l with
  | [] => []
  | x :: l' =>
      match skip with
      | O => x :: every_nth n (n - 1) l'
      | S k => every_nth n k l'
      end
  end.

Definition iloc_step {A : Type} (n : Z) (l : list A) : list A :=
  every_nth (Z.to_nat n) 0 l.

(** Systematic sampling of a window that has too many points. *)
Definition downsample (window : list (Z * Row)) : list (Z * Row) :=
  if (MAX_DATA_POINTS_PER_CHART <? Z.of_nat (length window))%Z then
    let n := (Z.of_nat (length window) / MAX_DATA_POINTS_PER_CHART)%Z in
    iloc_step n window
  else window.

Definition optimize_chart_data (data_slice : DataFrame) (current_block : Q)
    (max_block : Z) (chart_column : string) : exc ChartData :=
  w <- chart_window data_slice current_block max_block ;;
  let window := downsample (snd w) in
  Ok {| window_data := window;
        start_block := fst (fst w);
        end_block := snd (fst w);
        current_value := find_current_value data_slice current_block chart_column |}.

(** ** Invariants of a frame *)

(** Ascending (not necessarily strictly) block order of a list of rows. *)
Definition ascending (rs : list (Z * Row)) : Prop :=
  StronglySorted Z.le (blocks_of rs).

(** The index is the dense range 0, 1, ..., n-1: label and position agree. *)
Definition dense (rs : list (Z * Row)) : Prop :=
  map fst rs = map Z.of_nat (seq 0 (length rs)).

(** The blocks are [int64] values that are not negative, so that the
    difference of two of them does not wrap around. *)
Definition block_range (bs : list Z) : Prop :=
  Forall (fun b => (0 <= b < 2 ^ 63)%Z) bs.

(** The target lies between the blocks of the first and of the last row. *)
Definition in_range (data : DataFrame) (t : Q) : Prop :=
  exists first last,
    iloc data 0 = Ok first /\ iloc data (-1) = Ok last
    /\ inject_Z (block first) <= t /\ t <= inject_Z (block last).

(** [br = (idx_before, idx_after)] is ordered and its rows enclose the target. *)
Definition brackets (data : DataFrame) (t : Q) (br : Z * Z) : Prop :=
  (fst br <= snd br)%Z
  /\ exists before after,
       iloc data (fst br) = Ok before /\ iloc data (snd br) = Ok after
       /\ inject_Z (block before) <= t /\ t <= inject_Z (block after).

(** [br] is ordered and the row at [idx_before] is not after the target. *)
Definition brackets_below (data : DataFrame) (t : Q) (br : Z * Z) : Prop :=
  (fst br <= snd br)%Z
  /\ exists before, iloc data (fst br) = Ok before /\ inject_Z (block before) <= t.

(** The row [load_data] builds from one line of the file, given the
    positions of the two flow columns. *)
Definition loaded_row (cols : list string) (p_in p_out : nat)
    (line : Z * list Q) : Row :=
  let d := (fst line / BLOCKS_PER_DAY)%Z in
  let vs := overwrite_value cols "day" (inject_Z d) (snd line) in
  {| block := fst line;
     day := d;
     vals := set_value cols "net_alpha_points_flow"
               (nth p_in vs 0 - nth p_out vs 0) vs |}.

(** [l1] is [l2] with some elements left out: same order, nothing added. *)
Inductive subseq {A : Type} : list A -> list A -> Prop :=
| subseq_nil : subseq [] []
| subseq_skip (x : A) (l1 l2 : list A) : subseq l1 l2 -> subseq l1 (x :: l2)
| subseq_take (x : A) (l1 l2 : list A) : subseq l1 l2 -> subseq (x :: l1) (x :: l2).

(** Evenly spaced data: the block interval is [step] and the row at position
    [i] has block [i * step]. *)
Definition regular_grid (data : DataFrame) (step : Z) : Prop :=
  attrs_block_interval data = step
  /\ forall i lr, nth_error (rows data) i = Some lr ->
                  block (snd lr) = (Z.of_nat i * step)%Z.

(** Every row has a value for each of the frame's columns. *)
Definition full_width (data : DataFrame) : Prop :=
  forall lr, In lr (rows data) -> length (vals (snd lr)) = length (columns data).

(** ** The exhaustive scan of the specification *)

(** The specification's reference for the nearest-row lookup: one linear pass
    over all rows keeping the row with the least [|block - target|], the
    earlier row on ties; the empty series when there is no row. *)
Fixpoint exhaustive_scan_from (best : Row) (rs : list Row) (target : Q) : Row :=
  match rs with
  | [] => best
  | r :: rs' =>
      if Qltb (dist target r) (dist target best)
      then exhaustive_scan_from r rs' target
      else exhaustive_scan_from best rs' target
  end.

Definition exhaustive_scan (rs : list Row) (target : Q) : Series :=
  match rs with
  | [] => EmptySeries
  | r :: rs' => FrameRow (exhaustive_scan_from r rs' target)
  end.

(** ** Sample files *)

(** A CSV file with the two flow columns; each line gives the block and the
    inflow, the outflow is 0. *)
Definition csv_of (lines : list (Z * Z)) : CsvTable :=
  {| csv_columns := ["AlphaPoints_per_block_in"; "AlphaPoints_per_block_out"]%string;
     csv_rows := map (fun bx => (fst bx, [inject_Z (snd bx); 0])) lines |}.

Definition csv_grid (n : nat) (step : Z) : CsvTable :=
  csv_of (map (fun i => ((Z.of_nat i * step)%Z, Z.of_nat i)) (seq 0 n)).

(** Blocks 0, 1000, 2000, 3000, 4000. *)
Definition grid5 : DataFrame := main_data (Some (csv_grid 5 1000)).

(** Blocks 0, 100, ..., 4000: 41 rows. *)
Definition grid41 : DataFrame := main_data (Some (csv_grid 41 100)).

(** Seven rows one block apart, then rows 1000 blocks apart up to 9000. *)
Definition csv_burst : CsvTable :=
  csv_of [(0, 0); (1, 1); (2, 2); (3, 3); (4, 4); (5, 5); (6, 6);
          (1000, 7); (2000, 8); (3000, 9); (4000, 10); (5000, 11);
          (6000, 12); (7000, 13); (8000, 14); (9000, 15)]%Z.

Definition burst : DataFrame := main_data (Some csv_burst).

(** A file whose lines are not in block order. *)
Definition csv_unsorted : CsvTable := csv_of [(1000, 1); (0, 0)]%Z.

Definition flow_in : string := "AlphaPoints_per_block_in".

(** The chart window of [grid5] around block 2000, and its chart data. *)
Definition grid5_window : Q * Q * list (Z * Row) :=
  Eval vm_compute in
    match chart_window grid5 2000 4000 with
    | Ok w => w
    | Raise _ => (0, 0, [])
    end.

Definition grid5_chart : ChartData :=
  Eval vm_compute in
    match optimize_chart_data grid5 2000 4000 flow_in with
    | Ok c => c
    | Raise _ => mkChart [] 0 0 None
    end.

(** The row that [interpolate_data] synthesises on [grid5] at block 1500. *)
Definition grid5_at_1500 : InterpRow :=
  Eval vm_compute in
    match interpolate_data grid5 1500 with
    | Interpolated r => r
    | _ => mkInterpRow 0 0 []
    end.

(** ** main.py: the state of the animation and its callbacks *)

Definition FPS : Z := 5.
Definition ANIMATION_DURATION : Z := 1800.
Definition MAX_BLOCKS_PER_FRAME : Z := 150.

(** [minimum_update_interval], in seconds. *)
Definition minimum_update_interval : Q := 2 # 10.

(** The dictionary kept in the [animation-state] store. *)
Record AnimationState : Type := mkState {
  playing : bool;
  position : Q;                       (* the key "current_block" *)
  speed : Q
}.

(** The module-level values set once at start-up. *)
Record App : Type := mkApp {
  app_data : DataFrame;
  max_block : Z;
  blocks_per_second : Q;
  app_block_interval : Z              (* the global [block_interval] *)
}.

(** The mutable globals: [last_animation_update] and the function attribute
    [update_animation.last_block], absent until the first accepted tick. *)
Record Globals : Type := mkGlobals {
  last_animation_update : Q;
  last_block : option Q
}.

(** [series.max()] of a column with at least one value. *)
Definition column_max (first : Z) (others : list Z) : Z :=
  fold_left Z.max others first.

(** The start-up code of main.py: load, measure, preprocess. *)
Definition main_app (file : option CsvTable) : App :=
  let loaded := load_data file in
  let data := main_data file in
  let interval :=
    if (1 <? len data)%Z then
      if (0 <? Z.of_nat (length (diff (blocks_of (rows data)))))%Z then
        match mode_first (diff (blocks_of (rows data))) with
        | Ok most_common_interval => most_common_interval
        | Raise _ => 1000%Z
        end
      else 1000%Z
    else 1000%Z in
  match blocks_of (rows loaded) with
  | [] =>
      {| app_data := data; max_block := 1; blocks_per_second := 1;
         app_block_interval := interval |}
  | b :: bs =>
      let m := column_max b bs in
      {| app_data := data; max_block := m;
         blocks_per_second := inject_Z m / inject_Z ANIMATION_DURATION;
         app_block_interval := interval |}
  end.

(** Which input fired [control_animation]. *)
Inductive Trigger : Type :=
| NotTriggered
| PlayButton
| PauseButton
| ResetButton
| SpeedSlider.

(** [control_animation]: the new state, whether the timer is disabled, and
    the timer interval in milliseconds; beside it, the function attribute
    [last_block], which Reset deletes. A speed of 0 makes the division
    raise. *)
Definition control_animation (trigger : Trigger) (slider : Q)
    (current_state : AnimationState) (attr : option Q)
    : exc (AnimationState * bool * Q) * option Q :=
  match trigger with
  | NotTriggered =>
      (Ok (current_state, negb (playing current_state),
           inject_Z 1000 / inject_Z FPS), attr)
  | _ =>
      let st_attr :=
        match trigger with
        | PlayButton =>
            ({| playing := true; position := position current_state;
                speed := speed current_state |}, attr)
        | PauseButton =>
            ({| playing := false; position := position current_state;
                speed := speed current_state |}, attr)
        | ResetButton =>
            ({| playing := false; position := 0;
                speed := speed current_state |}, None)
        | _ =>
            ({| playing := playing current_state;
                position := position current_state;
                speed := slider |}, attr)
        end in
      let st := fst st_attr in
      if Qeq_bool (speed st) 0 then (Raise ZeroDivisionError, snd st_attr)
      else
        let interval := py_max 100 (inject_Z 1000 / inject_Z FPS / speed st) in
        (Ok (st, negb (playing st), interval), snd st_attr)
  end.

(** The text of the [simulation-day] element. *)
Inductive DayText : Type :=
| DayAndBlock (day_number block_number : Z)   (* "Day: d / Block: b" *)
| SimulationComplete.

(** What [update_animation] hands back to Dash: [PreventUpdate], or the new
    state, the day text and the five figures. The figures are not modelled:
    [true] stands for five new figures, [false] for [dash.no_update] in all
    five places. *)
Inductive Update : Type :=
| PreventUpdate
| Outputs (animation_state : AnimationState) (day_text : DayText) (figures : bool).

Definition update_animation (app : App) (current_time : Q)
    (animation_state : AnimationState) (g : Globals) : Update * Globals :=
  if Qltb (current_time - last_animation_update g) minimum_update_interval
  then (PreventUpdate, g)
  else
    let g := {| last_animation_update := current_time;
                last_block := last_block g |} in
    if negb (playing animation_state) then (PreventUpdate, g)
    else
      let current_block := position animation_state in
      let blocks_to_advance :=
        py_min (inject_Z MAX_BLOCKS_PER_FRAME)
               (blocks_per_second app * (1 / inject_Z FPS) * speed animation_state) in
      let new_block := current_block + blocks_to_advance in
      let new_block :=
        match last_block g with
        | Some lb =>
            if Qeq_bool lb new_block
            then new_block + inject_Z (app_block_interval app)
            else new_block
        | None => new_block
        end in
      if Qle_bool (inject_Z (max_block app)) new_block then
        (Outputs {| playing := false; position := 0;
                    speed := speed animation_state |}
                 SimulationComplete false,
         {| last_animation_update := current_time; last_block := None |})
      else
        (Outputs {| playing := playing animation_state; position := new_block;
                    speed := speed animation_state |}
                 (DayAndBlock (Qfloor (new_block / inject_Z BLOCKS_PER_DAY))
                              (py_int new_block))
                 true,
         {| last_animation_update := current_time;
            last_block := Some new_block |}).

(** [record_video]: the number of turns of its loop. *)
Definition frames_to_record : Z :=
  py_int (inject_Z (ANIMATION_DURATION * FPS) / 2).

(** The blocks of the frames that reach the recorder, in order. A turn of
    the loop whose charts or whose [add_frame] raise is skipped (main.py
    331-334), [add_frame] leaves out a frame with a missing image
    (recorder.py 37-39) and an exception outside the inner [try] ends the
    loop (main.py 339); [rendered] tells for each turn whether its frame was
    appended to the recorder. Rendering itself (plotly, cv2) is not
    modelled. *)
Definition record_video_blocks (rendered : nat -> bool) (max_block : Z) : list Q :=
  let block_increment :=
    py_min (inject_Z MAX_BLOCKS_PER_FRAME)
           (inject_Z max_block / inject_Z frames_to_record) in
  map (fun frame_idx => inject_Z (Z.of_nat frame_idx) * block_increment)
      (filter rendered (seq 0 (Z.to_nat frames_to_record))).

(** ** csv_validator.validate_csv *)

(** [series.duplicated().sum()]: the number of values that repeat an earlier
    value. *)
Fixpoint duplicated_sum (seen : list Z) (bs : list Z) : nat :=
  match bs with
  | [] => O
  | b :: bs' =>
      ((if existsb (Z.eqb b) seen then 1 else 0)
       + duplicated_sum (b :: seen) bs')%nat
  end.

(** What the validator finds, of all it prints: the required columns the file
    lacks and the number of duplicate blocks. A parsed file always has its
    [block] column here, so [block] is never among the missing ones. *)
Record Report : Type := mkReport {
  missing_columns : list string;
  duplicate_blocks : nat
}.

(** The verdict of [validate_csv], and its findings when the file was read. *)
Definition validate_csv (file : option CsvTable) : bool * option Report :=
  match file with
  | None => (false, None)
  | Some df =>
      let missing :=
        filter (fun col => match index_of col (csv_columns df) with
                           | Some _ => false
                           | None => true
                           end)
               required_columns in
      (true, Some {| missing_columns := missing;
                     duplicate_blocks := duplicated_sum [] (map fst (csv_rows df)) |})
  end.

(** ** visualizer: the figures *)

(** The title of a figure without traces. *)
Inductive Title : Type :=
| NoDataAvailable
| MissingDataColumn (name : string)
| NoDataInCurrentWindow
| ErrorTitle (e : pyerr).

(** The colour band of the warehouse gauge. *)
Inductive Level : Type :=
| Low
| Medium
| High.

(** The content of a figure; colours, margins and fonts are left out. *)
Inductive Figure : Type :=
| EmptyFigure (title : Title)
| LineFigure (x : list Z) (y : list Q) (marker : option (Z * Q)) (x_range : Q * Q)
| GaugeFigure (value : Q) (bar : Level).

(** [window_data[name]], for rows that have a value in every column. *)
Definition column_values (p : nat) (window : list (Z * Row)) : list Q :=
  map (fun lr => nth p (vals (snd lr)) 0) window.

Definition create_exchange_rate_chart (data_slice : DataFrame) (current_block : Q)
    (max_block : Z) : Figure :=
  let body : exc Figure :=
    if (len data_slice =? 0)%Z then Ok (EmptyFigure NoDataAvailable)
    else
      match index_of "exchange_rate" (columns data_slice) with
      | None => Ok (EmptyFigure (MissingDataColumn "exchange_rate"))
      | Some p =>
          chart_data <- optimize_chart_data data_slice current_block max_block
                          "exchange_rate" ;;
          let window := window_data chart_data in
          if (Z.of_nat (length window) =? 0)%Z
          then Ok (EmptyFigure NoDataInCurrentWindow)
          else Ok (LineFigure (blocks_of window) (column_values p window)
                              (current_value chart_data)
                              (start_block chart_data, end_block chart_data))
      end in
  match body with
  | Ok fig => fig
  | Raise e => EmptyFigure (ErrorTitle e)
  end.

Definition create_warehouse_chart (data_slice : DataFrame) (current_block : Q)
    (max_block : Z) : Figure :=
  if (len data_slice =? 0)%Z then EmptyFigure NoDataAvailable
  else
    match index_of "warehouse_capacity" (columns data_slice) with
    | None => EmptyFigure (MissingDataColumn "warehouse_capacity")
    | Some _ =>
        let capacity_data :=
          find_current_value data_slice current_block "warehouse_capacity" in
        let capacity :=
          match capacity_data with
          | Some marker => snd marker
          | None => 50
          end in
        let color :=
          if Qltb capacity 33 then Low
          else if Qltb capacity 66 then Medium
          else High in
        GaugeFigure capacity color
    end.

(** ** More sample files *)

(** A file that has the inflow column only. *)
Definition csv_no_outflow : CsvTable :=
  {| csv_columns := ["AlphaPoints_per_block_in"]%string;
     csv_rows := [(0%Z, [1]); (1000%Z, [2])] |}.

(** Three lines with the same block: every gap between blocks is 0. *)
Definition csv_same_block : CsvTable := csv_of [(5, 1); (5, 2); (5, 3)]%Z.

Definition same_block : DataFrame := main_data (Some csv_same_block).

(** A single line, at block 500. *)
Definition single : DataFrame := main_data (Some (csv_of [(500, 1)]%Z)).

Definition single_row : Z * Row :=
  Eval vm_compute in nth 0 (rows single) (0%Z, mkRow 0 0 []).

(** A file with the two flow columns and the warehouse capacity. *)
Definition csv_warehouse : CsvTable :=
  {| csv_columns := ["AlphaPoints_per_block_in"; "AlphaPoints_per_block_out";
                     "warehouse_capacity"]%string;
     csv_rows := [(0%Z, [1; 0; 20]); (1000%Z, [1; 0; 70])] |}.

Definition warehouse : DataFrame := main_data (Some csv_warehouse).

(** The row [load_data] builds from the first line of [csv_unsorted]. *)
Definition unsorted_line0 : Z * Row :=
  Eval vm_compute in
    nth 1 (rows (load_data (Some csv_unsorted))) (0%Z, mkRow 0 0 []).

(** The row of [grid5] at position 2. *)
Definition grid5_row2 : Z * Row :=
  Eval vm_compute in nth 2 (rows grid5) (0%Z, mkRow 0 0 []).

(** The start-up values for the file of [grid5], and an animation on it. *)
Definition grid5_app : App := main_app (Some (csv_grid 5 1000)).

Definition playing_at_0 : AnimationState :=
  {| playing := true; position := 0; speed := 1 |}.

Definition first_tick : Globals :=
  {| last_animation_update := 0; last_block := None |}.

(** What the validator finds in the file of [grid5]. *)
Definition grid5_report : Report :=
  Eval vm_compute in
    match validate_csv (Some (csv_grid 5 1000)) with
    | (_, Some report) => report
    | _ => mkReport [] 0
    end.

(** * Properties *)

(** ** Comparisons and rounding on the rational model *)

Lemma Qltb_lt (a b : Q) : Qltb a b = true <-> a < b.
Proof.
  unfold Qltb. rewrite negb_true_iff. split; intro H.
  - apply Qnot_le_lt. intro H1. apply Qle_bool_iff in H1. congruence.
  - destruct (Qle_bool b a) eqn:E; auto. apply Qle_bool_iff in E. lra.
Qed.

Lemma Qltb_ge (a b : Q) : Qltb a b = false <-> b <= a.
Proof.
  unfold Qltb. rewrite negb_false_iff. apply Qle_bool_iff.
Qed.

Lemma py_max_bounds (a b : Q) : a <= py_max a b /\ b <= py_max a b.
Proof.
  unfold py_max. destruct (Qltb a b) eqn:E.
  - apply Qltb_lt in E. lra.
  - apply Qltb_ge in E. lra.
Qed.

Lemma py_min_bounds (a b : Q) : py_min a b <= a /\ py_min a b <= b.
Proof.
  unfold py_min. destruct (Qltb b a) eqn:E.
  - apply Qltb_lt in E. lra.
  - apply Qltb_ge in E. lra.
Qed.

Lemma Qfloor_div_Z (b d : Z) :
  (0 < d)%Z -> Qfloor (inject_Z b / inject_Z d) = (b / d)%Z.
Proof.
  intros Hd. destruct d as [|p|p]; try lia.
  unfold Qdiv, Qinv, inject_Z, Qmult, Qfloor. simpl.
  rewrite Z.mul_1_r. reflexivity.
Qed.

(** ** Inversion of the exception monad *)

Lemma bind_Ok {A B : Type} (m : exc A) (k : A -> exc B) (b : B) :
  bind m k = Ok b -> exists a, m = Ok a /\ k a = Ok b.
Proof.
  destruct m as [a|e]; simpl; intro H; [ eauto | discriminate ].
Qed.

Ltac inv_bind H :=
  let x := fresh "x" in
  let Hx := fresh "Hx" in
  apply bind_Ok in H; destruct H as [x [Hx H]].

(** ** Lists and slices *)

Lemma In_firstn {A : Type} (n : nat) (l : list A) (x : A) :
  In x (firstn n l) -> In x l.
Proof.
  intro H. rewrite <- (firstn_skipn n l). apply in_or_app. auto.
Qed.

Lemma In_skipn {A : Type} (n : nat) (l : list A) (x : A) :
  In x (skipn n l) -> In x l.
Proof.
  intro H. rewrite <- (firstn_skipn n l). apply in_or_app. auto.
Qed.

Lemma In_iloc_slice {A : Type} (a b : Z) (l : list A) (x : A) :
  In x (iloc_slice a b l) -> In x l.
Proof.
  unfold iloc_slice. intro H. apply In_firstn in H. apply In_skipn in H. exact H.
Qed.

Lemma iloc_slice_prefix {A : Type} (b : Z) (l : list A) :
  (0 <= b)%Z -> iloc_slice 0 b l = firstn (Z.to_nat b) l.
Proof.
  intro Hb. unfold iloc_slice, slice_bound. simpl.
  destruct (b <? 0)%Z eqn:C; [apply Z.ltb_lt in C; lia|].
  rewrite (Z.min_l 0) by lia. rewrite Z.sub_0_r. simpl.
  destruct (Z.le_gt_cases b (Z.of_nat (length l))) as [H|H].
  - rewrite Z.min_l by lia. reflexivity.
  - rewrite Z.min_r by lia. rewrite Nat2Z.id.
    rewrite firstn_all. symmetry. apply firstn_all2. lia.
Qed.

Lemma existsb_rev {A : Type} (f : A -> bool) (l : list A) :
  existsb f (rev l) = existsb f l.
Proof.
  induction l as [|x l IH]; simpl; [reflexivity|].
  rewrite existsb_app, IH. simpl. rewrite orb_false_r. apply orb_comm.
Qed.

(** ** Labels and positions *)

Lemma range_index_from_fst {A : Type} (l : list A) (k : nat) :
  map fst (combine (map Z.of_nat (seq k (length l))) l)
  = map Z.of_nat (seq k (length l)).
Proof.
  revert k. induction l as [|x l IH]; intro k; simpl; [reflexivity|].
  f_equal. apply IH.
Qed.

Lemma range_index_from_snd {A : Type} (l : list A) (k : nat) :
  map snd (combine (map Z.of_nat (seq k (length l))) l) = l.
Proof.
  revert k. induction l as [|x l IH]; intro k; simpl; [reflexivity|].
  f_equal. apply IH.
Qed.

Lemma range_index_length {A : Type} (l : list A) :
  length (range_index l) = length l.
Proof.
  unfold range_index. rewrite length_combine, length_map, length_seq. lia.
Qed.

Lemma range_index_snd {A : Type} (l : list A) : map snd (range_index l) = l.
Proof. apply range_index_from_snd. Qed.

Lemma In_range_index {A : Type} (l : list A) (x : Z * A) :
  In x (range_index l) -> In (snd x) l.
Proof.
  intro H. rewrite <- (range_index_snd l). apply in_map. exact H.
Qed.

Lemma range_index_dense (l : list Row) : dense (range_index l).
Proof.
  unfold dense. rewrite range_index_length. apply range_index_from_fst.
Qed.

Lemma blocks_of_snd (rs : list (Z * Row)) :
  blocks_of rs = map block (map snd rs).
Proof. unfold blocks_of. rewrite map_map. reflexivity. Qed.

Lemma reset_index_blocks (rs : list (Z * Row)) :
  blocks_of (reset_index rs) = blocks_of rs.
Proof.
  rewrite !blocks_of_snd. unfold reset_index. rewrite range_index_snd. reflexivity.
Qed.

(** In a frame with a dense index the label of the row at position [j] is [j]. *)
Lemma dense_from_label (rs : list (Z * Row)) (k j : nat) (lr : Z * Row) :
  map fst rs = map Z.of_nat (seq k (length rs)) ->
  nth_error rs j = Some lr -> fst lr = Z.of_nat (k + j).
Proof.
  revert k j. induction rs as [|x rs IH]; intros k j Hd Hn.
  - destruct j; discriminate.
  - simpl in Hd. inversion Hd as [[Hx Hrest]].
    destruct j; simpl in Hn.
    + inversion Hn; subst. rewrite Hx. f_equal. lia.
    + rewrite (IH (S k) j Hrest Hn) by idtac. f_equal. lia.
Qed.

Lemma dense_label (rs : list (Z * Row)) (j : nat) (lr : Z * Row) :
  dense rs -> nth_error rs j = Some lr -> fst lr = Z.of_nat j.
Proof. intros Hd Hn. apply (dense_from_label rs 0 j lr Hd Hn). Qed.

Lemma dense_from_NoDup (rs : list (Z * Row)) (k : nat) :
  map fst rs = map Z.of_nat (seq k (length rs)) -> NoDup (map fst rs).
Proof.
  intro H. rewrite H. apply NoDup_map_NoDup_ForallPairs.
  - intros a b _ _. apply Nat2Z.inj.
  - apply seq_NoDup.
Qed.

Lemma dense_NoDup (rs : list (Z * Row)) : dense rs -> NoDup (map fst rs).
Proof. apply dense_from_NoDup. Qed.

(** With distinct labels, [loc] at the label of a row of the frame is that row. *)
Lemma find_label (rs : list (Z * Row)) (lr : Z * Row) :
  NoDup (map fst rs) -> In lr rs ->
  find (fun x => (fst x =? fst lr)%Z) rs = Some lr.
Proof.
  induction rs as [|x rs IH]; intros Hnd Hin; [contradiction|].
  simpl in *. inversion Hnd as [|y ys Hnotin Hnd']; subst.
  destruct Hin as [->|Hin].
  - rewrite Z.eqb_refl. reflexivity.
  - destruct (fst x =? fst lr)%Z eqn:E; [|auto].
    apply Z.eqb_eq in E. exfalso. apply Hnotin. rewrite E.
    apply in_map. exact Hin.
Qed.

Lemma loc_label (data : DataFrame) (lr : Z * Row) :
  NoDup (map fst (rows data)) -> In lr (rows data) ->
  loc data (fst lr) = Ok (snd lr).
Proof.
  intros Hnd Hin. unfold loc. rewrite (find_label _ _ Hnd Hin). reflexivity.
Qed.

Lemma iloc_rows_nil (i : Z) : iloc_rows [] i = Raise IndexError.
Proof.
  unfold iloc_rows. simpl.
  destruct (i <? 0)%Z; destruct (_ <? 0)%Z; auto;
    destruct (Z.to_nat _); reflexivity.
Qed.

Lemma iloc_nth (data : DataFrame) (j : nat) (lr : Z * Row) :
  nth_error (rows data) j = Some lr -> iloc data (Z.of_nat j) = Ok (snd lr).
Proof.
  intro H. unfold iloc, iloc_rows.
  destruct (Z.of_nat j <? 0)%Z eqn:C; [apply Z.ltb_lt in C; lia|].
  rewrite C, Nat2Z.id, H. reflexivity.
Qed.

Lemma iloc_total (data : DataFrame) (i : Z) :
  (0 <= i < len data)%Z ->
  exists lr, nth_error (rows data) (Z.to_nat i) = Some lr
             /\ iloc data i = Ok (snd lr).
Proof.
  intro Hi. unfold len in Hi.
  destruct (nth_error (rows data) (Z.to_nat i)) as [lr|] eqn:E.
  - exists lr. split; [reflexivity|].
    pose proof (iloc_nth data _ _ E) as Hl.
    rewrite Z2Nat.id in Hl by lia. exact Hl.
  - apply nth_error_None in E. lia.
Qed.

Lemma iloc_inv (data : DataFrame) (i : Z) (r : Row) :
  (0 <= i)%Z -> iloc data i = Ok r ->
  (i < len data)%Z
  /\ exists lr, nth_error (rows data) (Z.to_nat i) = Some lr /\ snd lr = r.
Proof.
  intros Hi H. unfold iloc, iloc_rows in H.
  destruct (i <? 0)%Z eqn:C; [apply Z.ltb_lt in C; lia|]. rewrite C in H.
  destruct (nth_error (rows data) (Z.to_nat i)) as [lr|] eqn:E; [|discriminate].
  inversion H; subst. split; [|eauto].
  assert (Hn : nth_error (rows data) (Z.to_nat i) <> None) by congruence.
  apply nth_error_Some in Hn. unfold len. lia.
Qed.

Lemma iloc_last (data : DataFrame) :
  (0 < len data)%Z -> iloc data (-1) = iloc data (len data - 1).
Proof.
  intro H. unfold iloc, iloc_rows. fold (len data). simpl.
  destruct (len data - 1 <? 0)%Z eqn:C; [apply Z.ltb_lt in C; lia|].
  replace (len data + -1)%Z with (len data - 1)%Z by lia. rewrite C. reflexivity.
Qed.

Lemma loc_iloc_dense (data : DataFrame) (i : Z) :
  dense (rows data) -> (0 <= i < len data)%Z ->
  exists r, iloc data i = Ok r /\ loc data i = Ok r.
Proof.
  intros Hd Hi. unfold len in Hi.
  destruct (nth_error (rows data) (Z.to_nat i)) as [lr|] eqn:E.
  - exists (snd lr).
    pose proof (dense_label _ _ _ Hd E) as Hl. rewrite Z2Nat.id in Hl by lia.
    split.
    + rewrite <- (Z2Nat.id i) by lia. apply iloc_nth. exact E.
    + rewrite <- Hl. apply loc_label; [apply dense_NoDup, Hd|].
      eapply nth_error_In; eauto.
  - apply nth_error_None in E. lia.
Qed.

(** ** Sorting by block *)

Lemma insert_by_block_perm (x : Z * Row) (l : list (Z * Row)) :
  Permutation (insert_by_block x l) (x :: l).
Proof.
  induction l as [|y l IH]; simpl; auto.
  destruct (block (snd x) <? block (snd y))%Z; auto.
  rewrite IH. apply perm_swap.
Qed.

Lemma sort_values_perm (l : list (Z * Row)) : Permutation (sort_values l) l.
Proof.
  induction l as [|x l IH]; simpl; auto.
  rewrite insert_by_block_perm. auto.
Qed.

Lemma sort_values_length (l : list (Z * Row)) :
  length (sort_values l) = length l.
Proof. apply Permutation_length, sort_values_perm. Qed.

Lemma insert_by_block_ascending (x : Z * Row) (l : list (Z * Row)) :
  ascending l -> ascending (insert_by_block x l).
Proof.
  unfold ascending. induction l as [|y l IH]; simpl; intro H.
  - repeat constructor.
  - inversion H as [|b bs Hs Hall]; subst.
    destruct (block (snd x) <? block (snd y))%Z eqn:C; simpl.
    + apply Z.ltb_lt in C. constructor; [exact H|].
      constructor; [lia|].
      eapply Forall_impl; [|exact Hall]. simpl. intros; lia.
    + apply Z.ltb_ge in C. constructor; [auto|].
      assert (P : Permutation (blocks_of (insert_by_block x l))
                              (block (snd x) :: blocks_of l)).
      { unfold blocks_of.
        change (block (snd x) :: map (fun lr => block (snd lr)) l)
          with (map (fun lr => block (snd lr)) (x :: l)).
        apply Permutation_map, insert_by_block_perm. }
      eapply Permutation_Forall; [apply Permutation_sym, P|].
      constructor; auto.
Qed.

Lemma sort_values_ascending (l : list (Z * Row)) : ascending (sort_values l).
Proof.
  induction l as [|x l IH]; simpl.
  - constructor.
  - apply insert_by_block_ascending, IH.
Qed.

Lemma ascending_short (rs : list (Z * Row)) :
  (1 <? Z.of_nat (length rs))%Z = false -> ascending rs.
Proof.
  intro H. apply Z.ltb_ge in H. unfold ascending.
  destruct rs as [|x [|y rs]]; simpl in *; try lia; repeat constructor.
Qed.

Lemma ascending_cons_inv (x : Z * Row) (rs : list (Z * Row)) :
  ascending (x :: rs) ->
  ascending rs /\ forall y, In y rs -> (block (snd x) <= block (snd y))%Z.
Proof.
  unfold ascending. simpl. intro H. inversion H as [|b bs Hs Hall]; subst.
  split; [exact Hs|]. intros y Hy. rewrite Forall_forall in Hall.
  apply Hall. unfold blocks_of. apply in_map_iff. eauto.
Qed.

Lemma ascending_cons (x : Z * Row) (rs : list (Z * Row)) :
  ascending rs ->
  (forall y, In y rs -> (block (snd x) <= block (snd y))%Z) ->
  ascending (x :: rs).
Proof.
  unfold ascending. simpl. intros Hs Hall. constructor; [exact Hs|].
  apply Forall_forall. intros b Hb. unfold blocks_of in Hb.
  apply in_map_iff in Hb. destruct Hb as [y [<- Hy]]. auto.
Qed.

Lemma ascending_filter (f : Z * Row -> bool) (rs : list (Z * Row)) :
  ascending rs -> ascending (filter f rs).
Proof.
  induction rs as [|x rs IH]; simpl; intro H; [exact H|].
  apply ascending_cons_inv in H. destruct H as [Hs Hall].
  destruct (f x); [|auto].
  apply ascending_cons; [auto|].
  intros y Hy. apply filter_In in Hy. apply Hall. tauto.
Qed.

Lemma ascending_firstn (n : nat) (rs : list (Z * Row)) :
  ascending rs -> ascending (firstn n rs).
Proof.
  revert n. induction rs as [|x rs IH]; intros n H.
  - rewrite firstn_nil. exact H.
  - destruct n; simpl; [constructor|].
    apply ascending_cons_inv in H. destruct H as [Hs Hall].
    apply ascending_cons; [auto|].
    intros y Hy. apply Hall. eapply In_firstn; eauto.
Qed.

Lemma ascending_skipn (n : nat) (rs : list (Z * Row)) :
  ascending rs -> ascending (skipn n rs).
Proof.
  revert n. induction rs as [|x rs IH]; intros n H.
  - rewrite skipn_nil. exact H.
  - destruct n; simpl; [exact H|].
    apply ascending_cons_inv in H. apply IH. tauto.
Qed.

Lemma ascending_nth (rs : list (Z * Row)) (i j : nat) (x y : Z * Row) :
  ascending rs ->
  nth_error rs i = Some x -> nth_error rs j = Some y -> (i <= j)%nat ->
  (block (snd x) <= block (snd y))%Z.
Proof.
  unfold ascending. revert i j. induction rs as [|z rs IH]; intros i j Hs Hi Hj Hij.
  - destruct i; discriminate.
  - simpl in Hs. inversion Hs as [|b bs Hs' Hall]; subst.
    destruct i, j; simpl in *; try lia.
    + inversion Hi; inversion Hj; subst. lia.
    + inversion Hi; subst. rewrite Forall_forall in Hall. apply Hall.
      unfold blocks_of. apply in_map_iff. exists y. split; [reflexivity|].
      eapply nth_error_In; eauto.
    + eapply IH; eauto. lia.
Qed.

(** ** The frame after loading and after preprocessing *)

Lemma len_0_rows (data : DataFrame) : (0 <? len data)%Z = false -> rows data = [].
Proof.
  unfold len. intro H. apply Z.ltb_ge in H.
  destruct (rows data); [reflexivity|simpl in H; lia].
Qed.

Lemma load_data_ascending (file : option CsvTable) : ascending (rows (load_data file)).
Proof.
  unfold load_data. destruct file as [csv|]; [|constructor].
  destruct (load_data_try csv) eqn:E; [|constructor].
  unfold load_data_try in E. do 2 inv_bind E.
  match type of E with
  | (if ?c then _ else _) = _ => destruct c eqn:C
  end.
  - match type of E with
    | (if ?c then _ else _) = _ => destruct c
    end.
    + inv_bind E. inversion E; subst; simpl. apply sort_values_ascending.
    + inversion E; subst; simpl. apply sort_values_ascending.
  - inversion E; subst; simpl. apply ascending_short. exact C.
Qed.

Lemma load_data_day (file : option CsvTable) (lr : Z * Row) :
  In lr (rows (load_data file)) ->
  day (snd lr) = (block (snd lr) / BLOCKS_PER_DAY)%Z.
Proof.
  unfold load_data. destruct file as [csv|]; [|intros []].
  destruct (load_data_try csv) eqn:E; [|intros []].
  unfold load_data_try in E. do 2 inv_bind E.
  assert (Hmk : forall data' : list (Z * Row),
            Permutation data'
              (range_index
                 (map (loaded_row (csv_columns csv) x x0) (csv_rows csv))) ->
            In lr data' ->
            day (snd lr) = (block (snd lr) / BLOCKS_PER_DAY)%Z).
  { intros data' P Hin. eapply Permutation_in in Hin; [|exact P].
    apply In_range_index in Hin. apply in_map_iff in Hin.
    destruct Hin as [line [<- _]]. reflexivity. }
  match type of E with
  | (if ?c then _ else _) = _ => destruct c
  end.
  - match type of E with
    | (if ?c then _ else _) = _ => destruct c
    end.
    + inv_bind E. inversion E; subst; simpl. apply Hmk, sort_values_perm.
    + inversion E; subst; simpl. apply Hmk, sort_values_perm.
  - inversion E; subst; simpl. apply Hmk, Permutation_refl.
Qed.

Lemma load_data_empty_interval (file : option CsvTable) :
  rows (load_data file) = [] -> block_interval (load_data file) <> Some 0%Z.
Proof.
  unfold load_data. destruct file as [csv|]; [|simpl; congruence].
  destruct (load_data_try csv) eqn:E; [|simpl; congruence].
  unfold load_data_try in E. do 2 inv_bind E.
  match type of E with
  | (if ?c then _ else _) = _ => destruct c eqn:C
  end.
  - match type of E with
    | (if ?c then _ else _) = _ => destruct c
    end.
    + inv_bind E. inversion E; subst; simpl. intro H.
      rewrite <- (sort_values_length (range_index _)), H in C. discriminate.
    + inversion E; subst; simpl. intro H.
      rewrite <- (sort_values_length (range_index _)), H in C. discriminate.
  - inversion E; subst; simpl. congruence.
Qed.

Lemma preprocess_rows (data : DataFrame) :
  rows (preprocess data) =
  if (0 <? len data)%Z then reset_index (sort_values (rows data)) else rows data.
Proof.
  unfold preprocess. destruct (0 <? len data)%Z; [|reflexivity].
  destruct (1 <? _)%Z; [|reflexivity].
  destruct (0 <? _)%Z; [|reflexivity].
  destruct (mode_first _); reflexivity.
Qed.

Lemma preprocess_ascending (data : DataFrame) : ascending (rows (preprocess data)).
Proof.
  rewrite preprocess_rows. destruct (0 <? len data)%Z eqn:C.
  - unfold ascending. rewrite reset_index_blocks. apply sort_values_ascending.
  - rewrite (len_0_rows _ C). constructor.
Qed.

Lemma preprocess_dense (data : DataFrame) : dense (rows (preprocess data)).
Proof.
  rewrite preprocess_rows. destruct (0 <? len data)%Z eqn:C.
  - apply range_index_dense.
  - rewrite (len_0_rows _ C). reflexivity.
Qed.

(** A frame built by main.py that has no row carries no block interval. *)
Lemma main_data_empty_interval (file : option CsvTable) :
  rows (main_data file) = [] -> block_interval (main_data file) <> Some 0%Z.
Proof.
  unfold main_data. intro H.
  destruct (0 <? len (load_data file))%Z eqn:C.
  - exfalso. rewrite preprocess_rows, C in H.
    apply (f_equal (@length _)) in H.
    unfold reset_index in H.
    rewrite range_index_length, length_map, sort_values_length in H.
    apply Z.ltb_lt in C. unfold len in C. simpl in H. lia.
  - simpl. discriminate.
Qed.

Lemma mode_first_In (l : list Z) (m : Z) : mode_first l = Ok m -> In m l.
Proof.
  unfold mode_first. destruct l as [|x0 l0] eqn:L; [discriminate|].
  rewrite <- L. intro H. inversion H as [Hm]. clear H Hm.
  assert (G : forall l' best, incl l' l -> In best l ->
            In (fold_left
                  (fun best x =>
                     if (occurrences best l <? occurrences x l)%nat
                        || ((occurrences best l =? occurrences x l)%nat
                            && (x <? best)%Z)
                     then x else best) l' best) l).
  { induction l' as [|y l' IH]; intros best Hincl Hbest; simpl; [exact Hbest|].
    apply IH.
    - intros z Hz. apply Hincl. right. exact Hz.
    - destruct (_ || _); [apply Hincl; left; reflexivity|exact Hbest]. }
  apply G; [apply incl_refl|]. rewrite L. left. reflexivity.
Qed.

Lemma wrap64_small (z : Z) : (- 2 ^ 63 <= z < 2 ^ 63)%Z -> wrap64 z = z.
Proof.
  intro H. unfold wrap64. rewrite Z.mod_small; lia.
Qed.

(** [to_float64] agrees with the primitive conversion to binary64, here on
    integers around the points where the rounding changes. *)
Example to_float64_primitive :
  forallb (fun z => match integer_of_float (float_of_int64 z) with
                    | Some v => (v =? to_float64 z)%Z
                    | None => false
                    end)
          [0; 1; 1000; 2 ^ 53 - 1; 2 ^ 53; 2 ^ 53 + 1; 2 ^ 53 + 2; 2 ^ 53 + 3;
           2 ^ 54 + 2; 2 ^ 54 + 5; 2 ^ 54 + 6; 2 ^ 54 + 7; 2 ^ 62 + 2 ^ 9;
           2 ^ 62 + 2 ^ 9 + 1; 2 ^ 62 + 2 ^ 9 + 2 ^ 10; 2 ^ 63 - 1025;
           2 ^ 63 - 1024 - 512; 2 ^ 63 - 513; 2 ^ 63 - 512; 2 ^ 63 - 1]%Z
  = true.
Proof. vm_compute. reflexivity. Qed.

Example to_float64_inexact : to_float64 (2 ^ 53 + 1) = (2 ^ 53)%Z.
Proof. vm_compute. reflexivity. Qed.

Lemma to_float64_pos (z : Z) : (0 < z)%Z -> (0 < to_float64 z)%Z.
Proof.
  intro Hz. unfold to_float64. rewrite (Z.abs_eq z) by lia.
  destruct (z <? 2 ^ 53)%Z eqn:C; [exact Hz|].
  apply Z.ltb_ge in C.
  assert (L : (53 <= Z.log2 z)%Z).
  { change 53%Z with (Z.log2 (2 ^ 53)). apply Z.log2_le_mono. exact C. }
  set (e := (Z.log2 z - 52)%Z).
  assert (He : (0 <= e)%Z) by (unfold e; lia).
  assert (Hq : (0 < Z.shiftr z e)%Z).
  { rewrite Z.shiftr_div_pow2 by exact He.
    apply Z.div_str_pos. split; [apply Z.pow_pos_nonneg; lia|].
    apply Z.le_trans with (2 ^ Z.log2 z)%Z.
    - apply Z.pow_le_mono_r; unfold e; lia.
    - apply Z.log2_spec. exact Hz. }
  rewrite (Z.sgn_pos z Hz), Z.mul_1_l, Z.shiftl_mul_pow2 by exact He.
  apply Z.mul_pos_pos; [|apply Z.pow_pos_nonneg; lia].
  destruct (_ || _); lia.
Qed.

Lemma to_float64_nonneg (z : Z) : (0 <= z)%Z -> (0 <= to_float64 z)%Z.
Proof.
  intro Hz. destruct (Z.eq_dec z 0) as [->|Hn]; [discriminate|].
  apply Z.lt_le_incl, to_float64_pos. lia.
Qed.

Lemma diff_positive (bs : list Z) :
  StronglySorted Z.lt bs -> block_range bs ->
  Forall (fun d => (0 < d)%Z) (diff bs).
Proof.
  induction bs as [|a bs IH]; intros H R; [constructor|].
  inversion H as [|x xs Hs Hall]; subst.
  inversion R as [|x xs Ra Rbs]; subst.
  destruct bs as [|b bs']; [constructor|].
  change (diff (a :: b :: bs'))
    with (to_float64 (wrap64 (b - a)) :: diff (b :: bs')).
  constructor; [|auto].
  inversion Hall; subst. inversion Rbs; subst.
  rewrite wrap64_small by lia. apply to_float64_pos. lia.
Qed.

(** When no two rows share a block, the interval main.py attaches to a frame
    of two or more rows is positive. *)
Lemma preprocess_interval_positive (data : DataFrame) :
  (2 <= len (preprocess data))%Z ->
  StronglySorted Z.lt (blocks_of (rows (preprocess data))) ->
  block_range (blocks_of (rows (preprocess data))) ->
  (0 < attrs_block_interval (preprocess data))%Z.
Proof.
  intros Hlen Hs HR. pose proof (preprocess_rows data) as Hr.
  unfold len in Hlen. rewrite Hr in Hlen, Hs, HR.
  unfold preprocess.
  destruct (0 <? len data)%Z eqn:C0.
  - cbv zeta.
    destruct (1 <? _)%Z eqn:C1; [|apply Z.ltb_ge in C1; lia].
    pose proof (diff_positive _ Hs HR) as Hpos.
    set (rs := reset_index (sort_values (rows data))) in *.
    set (bd := diff (blocks_of rs)) in *.
    destruct (0 <? Z.of_nat (length bd))%Z eqn:C2.
    + destruct (mode_first bd) eqn:M.
      * unfold attrs_block_interval. simpl.
        apply mode_first_In in M. rewrite Forall_forall in Hpos. auto.
      * unfold mode_first in M.
        destruct bd; [simpl in C2; discriminate|discriminate].
    + exfalso. apply Z.ltb_ge in C2. unfold bd in C2.
      destruct rs as [|x [|y rs']]; simpl in *; lia.
  - rewrite (len_0_rows _ C0) in Hlen. simpl in Hlen. lia.
Qed.

Lemma diff_length (bs : list Z) : length (diff bs) = (length bs - 1)%nat.
Proof.
  induction bs as [|a bs IH]; [reflexivity|].
  destruct bs as [|b bs']; [reflexivity|].
  change (diff (a :: b :: bs'))
    with (to_float64 (wrap64 (b - a)) :: diff (b :: bs')).
  simpl in *. lia.
Qed.

Lemma blocks_of_length (rs : list (Z * Row)) : length (blocks_of rs) = length rs.
Proof. unfold blocks_of. apply length_map. Qed.

Lemma mode_first_Ok (l : list Z) : l <> [] -> exists m, mode_first l = Ok m.
Proof.
  destruct l as [|x l]; [congruence|]. intros _. eexists. reflexivity.
Qed.

(** What [load_data] returns for a file that has both flow columns. *)
Lemma load_data_try_rows (csv : CsvTable) (p_in p_out : nat) :
  column (csv_columns csv) "AlphaPoints_per_block_in" = Ok p_in ->
  column (csv_columns csv) "AlphaPoints_per_block_out" = Ok p_out ->
  exists data,
    load_data_try csv = Ok data
    /\ columns data = set_column_name (csv_columns csv) "net_alpha_points_flow"
    /\ Permutation (rows data)
         (range_index (map (loaded_row (csv_columns csv) p_in p_out) (csv_rows csv)))
    /\ ((length (csv_rows csv) <= 1)%nat -> block_interval data = Some 1000%Z)
    /\ ((2 <= length (csv_rows csv))%nat ->
        exists m, mode_first (diff (blocks_of (rows data))) = Ok m
                  /\ block_interval data = Some m).
Proof.
  intros Hin Hout. unfold load_data_try. rewrite Hin, Hout. cbn [bind].
  fold (loaded_row (csv_columns csv) p_in p_out).
  set (base := range_index (map (loaded_row (csv_columns csv) p_in p_out)
                                (csv_rows csv))).
  assert (Hlen : length base = length (csv_rows csv)).
  { unfold base. rewrite range_index_length, length_map. reflexivity. }
  destruct (1 <? Z.of_nat (length base))%Z eqn:C.
  - apply Z.ltb_lt in C.
    assert (Hd : diff (blocks_of (sort_values base)) <> []).
    { intro E. apply (f_equal (@length Z)) in E.
      rewrite diff_length, blocks_of_length, sort_values_length in E.
      simpl in E. lia. }
    destruct (mode_first_Ok _ Hd) as [m Hm].
    destruct (0 <? Z.of_nat (length (diff (blocks_of (sort_values base)))))%Z eqn:C2.
    + rewrite Hm. cbn [bind]. eexists. split; [reflexivity|]. simpl.
      split; [reflexivity|]. split; [apply sort_values_perm|].
      split; [lia|]. intros _. exists m. auto.
    + apply Z.ltb_ge in C2.
      destruct (diff (blocks_of (sort_values base))); [congruence|simpl in C2; lia].
  - apply Z.ltb_ge in C. eexists. split; [reflexivity|]. simpl.
    split; [reflexivity|]. split; [apply Permutation_refl|].
    split; [reflexivity|]. lia.
Qed.

Lemma column_Ok (cols : list string) (name : string) (p : nat) :
  column cols name = Ok p <-> index_of name cols = Some p.
Proof.
  unfold column. destruct (index_of name cols); split; intro H;
    inversion H; reflexivity.
Qed.

Lemma nth_error_combine {A B : Type} (l1 : list A) (l2 : list B) (j : nat)
    (a : A) (b : B) :
  nth_error (combine l1 l2) j = Some (a, b) ->
  nth_error l1 j = Some a /\ nth_error l2 j = Some b.
Proof.
  revert l2 j. induction l1 as [|x l1 IH]; intros [|y l2] [|j] H;
    simpl in *; try discriminate.
  - inversion H; subst. auto.
  - apply IH. exact H.
Qed.

(** A labelled element of a freshly read list sits at the position its
    label names. *)
Lemma In_range_index_nth {A : Type} (l : list A) (lab : Z) (x : A) :
  In (lab, x) (range_index l) ->
  (0 <= lab)%Z /\ nth_error l (Z.to_nat lab) = Some x.
Proof.
  intro H. destruct (In_nth_error _ _ H) as [j Hj].
  unfold range_index in Hj. apply nth_error_combine in Hj.
  destruct Hj as [Hl Hx].
  assert (Hlt : (j < length l)%nat).
  { apply nth_error_Some. rewrite Hx. discriminate. }
  rewrite nth_error_map, nth_error_seq in Hl.
  destruct (Nat.ltb_spec j (length l)) as [_|]; [|lia].
  simpl in Hl. inversion Hl; subst lab.
  split; [lia|]. rewrite Nat2Z.id. exact Hx.
Qed.

(** Every row [load_data] returns carries the label of the line it was
    built from. *)
Lemma load_data_labels (csv : CsvTable) (lab : Z) (r : Row) :
  In (lab, r) (rows (load_data (Some csv))) ->
  (0 <= lab)%Z
  /\ exists line p_in p_out,
       nth_error (csv_rows csv) (Z.to_nat lab) = Some line
       /\ index_of "AlphaPoints_per_block_in" (csv_columns csv) = Some p_in
       /\ index_of "AlphaPoints_per_block_out" (csv_columns csv) = Some p_out
       /\ r = loaded_row (csv_columns csv) p_in p_out line.
Proof.
  unfold load_data. destruct (load_data_try csv) as [d|e] eqn:E; [|intros []].
  intro Hin. pose proof E as E'. unfold load_data_try in E'.
  do 2 inv_bind E'. clear E'.
  destruct (load_data_try_rows csv x x0 Hx Hx0) as [d' [Hl [_ [Hp _]]]].
  rewrite E in Hl. inversion Hl; subst d'.
  eapply Permutation_in in Hin; [|exact Hp].
  apply In_range_index_nth in Hin. destruct Hin as [H0 Hn].
  split; [exact H0|].
  rewrite nth_error_map in Hn.
  destruct (nth_error (csv_rows csv) (Z.to_nat lab)) as [line|]; [|discriminate].
  simpl in Hn. inversion Hn. exists line, x, x0.
  split; [reflexivity|]. split; [apply column_Ok; exact Hx|].
  split; [apply column_Ok; exact Hx0|reflexivity].
Qed.

(** C2 (as amended). [load_data] leaves the rows in ascending block order,
    each row keeping the label of its line in the file: the row labelled [l]
    is the row built from line [l]. The frame the application works on,
    which main.py builds from it by
    [sort_values('block').reset_index(drop=True)], is in ascending block
    order with the dense index 0..n-1: at every position [i] the row
    obtained by position and the row obtained by label [i] are the same. *)
Theorem preprocessed_frame_index (file : option CsvTable) :
  ascending (rows (load_data file))
  /\ (forall csv lab r,
        file = Some csv -> In (lab, r) (rows (load_data file)) ->
        (0 <= lab)%Z
        /\ exists line p_in p_out,
             nth_error (csv_rows csv) (Z.to_nat lab) = Some line
             /\ index_of "AlphaPoints_per_block_in" (csv_columns csv) = Some p_in
             /\ index_of "AlphaPoints_per_block_out" (csv_columns csv)
                = Some p_out
             /\ r = loaded_row (csv_columns csv) p_in p_out line)
  /\ ascending (rows (main_data file))
  /\ dense (rows (main_data file))
  /\ forall i : Z, (0 <= i < len (main_data file))%Z ->
       exists r, iloc (main_data file) i = Ok r /\ loc (main_data file) i = Ok r.
Proof.
  split; [apply load_data_ascending|].
  split.
  { intros csv lab r Hf Hin. subst file. apply load_data_labels. exact Hin. }
  split; [apply preprocess_ascending|].
  split; [apply preprocess_dense|].
  intros i Hi. apply loc_iloc_dense; [apply preprocess_dense|exact Hi].
Qed.

Lemma preprocessed_frame_index_witness :
  (exists line p_in p_out,
     nth_error (csv_rows csv_unsorted) (Z.to_nat 0) = Some line
     /\ index_of "AlphaPoints_per_block_in" (csv_columns csv_unsorted) = Some p_in
     /\ index_of "AlphaPoints_per_block_out" (csv_columns csv_unsorted)
        = Some p_out
     /\ snd unsorted_line0 = loaded_row (csv_columns csv_unsorted) p_in p_out line)
  /\ exists r, iloc (main_data (Some csv_unsorted)) 0 = Ok r
               /\ loc (main_data (Some csv_unsorted)) 0 = Ok r.
Proof.
  destruct (preprocessed_frame_index (Some csv_unsorted)) as [_ [L [_ [_ P]]]].
  split.
  - apply (L csv_unsorted 0%Z (snd unsorted_line0) eq_refl).
    vm_compute. right. left. reflexivity.
  - apply P. vm_compute. split; [discriminate|reflexivity].
Defined.

(** C2 (as stated) fails for [load_data] alone: on a two-line file with the
    blocks 1000 and 0, the loaded frame is sorted but keeps the file's
    labels, so position 0 holds the row of block 0 while label 0 names the
    row of block 1000. *)
Lemma load_data_keeps_labels :
  let data := load_data (Some csv_unsorted) in
  iloc data 0 = Ok (mkRow 0 0 [0; 0; 0 - 0])
  /\ loc data 0 = Ok (mkRow 1000 0 [inject_Z 1; 0; inject_Z 1 - 0])
  /\ iloc data 0 <> loc data 0.
Proof.
  intro data. split; [reflexivity|]. split; [reflexivity|].
  vm_compute. discriminate.
Qed.

(** ** The nearest-row lookup against the exhaustive scan *)

Lemma get_frame_data_try_shape (data : DataFrame) (t : Q) (s : Series) :
  get_frame_data_try data t = Ok s ->
  s = EmptySeries \/ exists r, s = FrameRow r /\ In r (map snd (rows data)).
Proof.
  unfold get_frame_data_try. destruct (len data =? 0)%Z.
  - intro H. inversion H. auto.
  - intro H. do 4 inv_bind H. inv_bind H. inversion H; subst. right.
    exists x3. split; auto.
    unfold loc in Hx3. destruct (find _ (rows data)) eqn:F; [|discriminate].
    inversion Hx3; subst. apply find_some in F. apply in_map. tauto.
Qed.

Lemma get_frame_data_shape (data : DataFrame) (t : Q) :
  get_frame_data data t = EmptySeries \/
  exists r, get_frame_data data t = FrameRow r /\ In r (map snd (rows data)).
Proof.
  unfold get_frame_data. destruct (get_frame_data_try data t) eqn:E; auto.
  apply get_frame_data_try_shape in E. exact E.
Qed.

(** The reference scan returns a row of least distance to the target. *)
Lemma exhaustive_scan_from_least (t : Q) (rs : list Row) (best : Row) :
  let r := exhaustive_scan_from best rs t in
  In r (best :: rs)
  /\ dist t r <= dist t best
  /\ forall r', In r' rs -> dist t r <= dist t r'.
Proof.
  revert best. induction rs as [|x rs IH]; intro best; simpl.
  - split; [auto|]. split; [lra|]. intros r' [].
  - destruct (Qltb (dist t x) (dist t best)) eqn:C.
    + apply Qltb_lt in C. destruct (IH x) as [Hin [Hle Hall]].
      split; [simpl in Hin; tauto|]. split; [lra|].
      intros r' [<-|Hr']; auto.
    + apply Qltb_ge in C. destruct (IH best) as [Hin [Hle Hall]].
      split; [simpl in Hin; tauto|]. split; [lra|].
      intros r' [<-|Hr']; [lra|auto].
Qed.

Lemma exhaustive_scan_least (t : Q) (rs : list Row) :
  rs <> [] ->
  exists r, exhaustive_scan rs t = FrameRow r
            /\ In r rs
            /\ forall r', In r' rs -> dist t r <= dist t r'.
Proof.
  destruct rs as [|x rs]; [congruence|]. intros _. simpl.
  destruct (exhaustive_scan_from_least t rs x) as [Hin [Hle Hall]].
  eexists. split; [reflexivity|]. split; [exact Hin|].
  intros r' [<-|Hr']; auto.
Qed.

(** [idxmin] on the distance series picks the label of the row the
    reference scan picks. *)
Lemma idxmin_from_scan (t : Q) (rs : list (Z * Row)) (best : Z * Row) :
  exists lr,
    In lr (best :: rs)
    /\ idxmin_from (fst best, dist t (snd best)) (abs_diff t rs) = fst lr
    /\ exhaustive_scan_from (snd best) (map snd rs) t = snd lr.
Proof.
  revert best. induction rs as [|x rs IH]; intro best; simpl.
  - exists best. auto.
  - destruct (Qltb (dist t (snd x)) (dist t (snd best))).
    + destruct (IH x) as [lr [Hin [H1 H2]]]. exists lr.
      split; [simpl in Hin; tauto|]. auto.
    + destruct (IH best) as [lr [Hin [H1 H2]]]. exists lr.
      split; [simpl in Hin; tauto|]. auto.
Qed.

Lemma idxmin_scan (t : Q) (rs : list (Z * Row)) :
  rs <> [] ->
  exists lr,
    In lr rs
    /\ idxmin (abs_diff t rs) = Ok (fst lr)
    /\ exhaustive_scan (map snd rs) t = FrameRow (snd lr).
Proof.
  destruct rs as [|x rs]; [congruence|]. intros _.
  destruct (idxmin_from_scan t rs x) as [lr [Hin [H1 H2]]].
  exists lr. simpl. rewrite H1, H2. auto.
Qed.

Lemma approx_index_Ok (data : DataFrame) (t : Q) :
  rows data <> [] -> attrs_block_interval data <> 0%Z ->
  exists a lr,
    approx_index data t = Ok a
    /\ (0 <= a < len data)%Z
    /\ nth_error (rows data) (Z.to_nat a) = Some lr
    /\ iloc data a = Ok (snd lr).
Proof.
  intros Hne Hi. unfold approx_index, int_div.
  apply Z.eqb_neq in Hi. rewrite Hi. simpl.
  set (a := Z.max 0 (Z.min _ (len data - 1))).
  assert (Hlen : (0 < len data)%Z).
  { unfold len. destruct (rows data); [congruence|simpl; lia]. }
  assert (Ha : (0 <= a < len data)%Z) by (unfold a; lia).
  destruct (nth_error (rows data) (Z.to_nat a)) as [lr|] eqn:E.
  - exists a, lr.
    split; [reflexivity|]. split; [exact Ha|]. split; [exact E|].
    pose proof (iloc_nth data _ _ E) as Hl.
    rewrite Z2Nat.id in Hl by lia. exact Hl.
  - apply nth_error_None in E. unfold len in Ha. lia.
Qed.

(** C1 (as amended). On a frame with rows, distinct labels and a non-zero
    block interval, let [a] be the clamped approximate position. When the
    row at [a] is farther than twice the interval from the target, the
    lookup returns the row of the exhaustive scan over all rows. Otherwise,
    when the neighbourhood starts at position 0 ([a <= 2]), it returns the
    row of the exhaustive scan over the neighbourhood only, the first
    [a + 3] rows. *)
Theorem get_frame_data_scan (data : DataFrame) (t : Q) :
  rows data <> [] ->
  NoDup (map fst (rows data)) ->
  attrs_block_interval data <> 0%Z ->
  exists a r,
    approx_index data t = Ok a
    /\ iloc data a = Ok r
    /\ (inject_Z (attrs_block_interval data * 2) < dist t r ->
        get_frame_data data t = exhaustive_scan (map snd (rows data)) t)
    /\ (dist t r <= inject_Z (attrs_block_interval data * 2) ->
        (a <= 2)%Z ->
        get_frame_data data t =
        exhaustive_scan (firstn (Z.to_nat (a + 3)) (map snd (rows data))) t).
Proof.
  intros Hne Hnd Hi.
  destruct (approx_index_Ok data t Hne Hi) as [a [lr [Ha [Hr [Hn Hl]]]]].
  exists a, (snd lr). split; [exact Ha|]. split; [exact Hl|].
  assert (Hlen : (len data =? 0)%Z = false) by (apply Z.eqb_neq; lia).
  unfold get_frame_data, get_frame_data_try. rewrite Hlen, Ha. cbn [bind].
  rewrite Hl. cbn [bind]. split.
  - intro Hfar. apply Qltb_lt in Hfar. rewrite Hfar.
    destruct (idxmin_scan t (rows data) Hne) as [m [Hin [Hm Hs]]].
    rewrite Hm. cbn [bind]. rewrite (loc_label data m Hnd Hin). cbn [bind].
    symmetry. exact Hs.
  - intros Hclose Ha2. apply Qltb_ge in Hclose. rewrite Hclose.
    rewrite Z.max_l by lia.
    rewrite iloc_slice_prefix by lia.
    set (k := Z.to_nat (Z.min (len data) (a + 3))).
    assert (Hk : firstn (Z.to_nat (a + 3)) (map snd (rows data))
                 = map snd (firstn k (rows data))).
    { rewrite <- firstn_map. unfold k.
      destruct (Z.le_gt_cases (a + 3) (len data)) as [H|H].
      - rewrite Z.min_r by lia. reflexivity.
      - rewrite Z.min_l by lia. unfold len. rewrite Nat2Z.id.
        rewrite firstn_all2 by (rewrite length_map; unfold len in H; lia).
        rewrite <- (length_map snd (rows data)), firstn_all. reflexivity. }
    rewrite Hk.
    assert (Hw : firstn k (rows data) <> []).
    { destruct (rows data) as [|x rs] eqn:R; [congruence|].
      assert (0 < k)%nat by (unfold k, len; rewrite R; simpl; lia).
      destruct k; [lia|]. simpl. discriminate. }
    destruct (idxmin_scan t (firstn k (rows data)) Hw) as [m [Hin [Hm Hs]]].
    rewrite Hm. cbn [bind]. rewrite Z.add_0_l.
    apply In_firstn in Hin.
    rewrite (loc_label data m Hnd Hin). cbn [bind].
    symmetry. exact Hs.
Qed.

Lemma get_frame_data_scan_witness :
  exists a r,
    approx_index grid5 1400 = Ok a
    /\ iloc grid5 a = Ok r
    /\ (inject_Z (attrs_block_interval grid5 * 2) < dist 1400 r ->
        get_frame_data grid5 1400 = exhaustive_scan (map snd (rows grid5)) 1400)
    /\ (dist 1400 r <= inject_Z (attrs_block_interval grid5 * 2) ->
        (a <= 2)%Z ->
        get_frame_data grid5 1400 =
        exhaustive_scan (firstn (Z.to_nat (a + 3)) (map snd (rows grid5))) 1400).
Proof.
  apply (get_frame_data_scan grid5 1400).
  - vm_compute. discriminate.
  - vm_compute. repeat constructor; simpl; intuition discriminate.
  - vm_compute. discriminate.
Defined.

(** C1 (as stated) fails by the design of the fast path. The frame [burst]
    has rows at blocks 0..6 and then every 1000 blocks, so its interval is
    1000. For the in-range target 6 the approximate position is 0 and its
    row is accepted (distance 6 <= 2000); the neighbourhood is positions
    0..2 and the lookup returns the row of block 2, at distance 4, while the
    exhaustive scan returns the row of block 6, at distance 0. *)
Lemma get_frame_data_not_nearest :
  attrs_block_interval burst = 1000%Z
  /\ approx_index burst 6 = Ok 0%Z
  /\ get_frame_data burst 6 = FrameRow (mkRow 2 0 [inject_Z 2; 0; inject_Z 2 - 0])
  /\ exhaustive_scan (map snd (rows burst)) 6
     = FrameRow (mkRow 6 0 [inject_Z 6; 0; inject_Z 6 - 0])
  /\ get_frame_data burst 6 <> exhaustive_scan (map snd (rows burst)) 6.
Proof.
  do 4 (split; [vm_compute; reflexivity|]).
  vm_compute. discriminate.
Qed.

(** C3. On the 5-row frame [grid5] (blocks 0, 1000, ..., 4000) the lookup at
    block 3600 adds the start of the neighbourhood (1) to the label of the
    nearest row (4) and reads label 5, which does not exist: the lookup
    raises [KeyError] internally and returns the empty series. *)
Theorem get_frame_data_empty_on_rows :
  len grid5 = 5%Z
  /\ get_frame_data_try grid5 3600 = Raise KeyError
  /\ get_frame_data grid5 3600 = EmptySeries.
Proof.
  repeat split; vm_compute; reflexivity.
Qed.

(** ** Lookups on a frame without rows *)

(** C9. On a frame without rows (whose block interval, when set, is not
    zero) the nearest-row lookup returns the empty series without raising,
    and [optimize_chart_data] returns an empty window with no marker,
    without raising. *)
Theorem empty_frame_lookups (data : DataFrame) (t : Q) (mb : Z) (col : string) :
  rows data = [] ->
  block_interval data <> Some 0%Z ->
  get_frame_data_try data t = Ok EmptySeries
  /\ get_frame_data data t = EmptySeries
  /\ exists lo hi,
       optimize_chart_data data t mb col =
       Ok {| window_data := []; start_block := lo; end_block := hi;
             current_value := None |}.
Proof.
  intros Hr Hi.
  assert (Hlen : len data = 0%Z) by (unfold len; rewrite Hr; reflexivity).
  assert (Hz : (attrs_block_interval data =? 0)%Z = false).
  { apply Z.eqb_neq. unfold attrs_block_interval.
    destruct (block_interval data) as [i|]; [|lia]. congruence. }
  assert (G : get_frame_data_try data t = Ok EmptySeries).
  { unfold get_frame_data_try. rewrite Hlen. reflexivity. }
  split; [exact G|]. split; [unfold get_frame_data; rewrite G; reflexivity|].
  unfold optimize_chart_data, chart_window, int_div. rewrite Hz. simpl.
  do 2 eexists. f_equal. f_equal.
  - rewrite Hr. unfold iloc_slice. simpl. rewrite skipn_nil, firstn_nil. reflexivity.
  - unfold find_current_value, find_current_value_try. rewrite Hz.
    cbn [bind]. unfold iloc. rewrite Hr, iloc_rows_nil. reflexivity.
Qed.

Lemma empty_frame_lookups_witness :
  get_frame_data_try main_empty_frame 0 = Ok EmptySeries
  /\ get_frame_data main_empty_frame 0 = EmptySeries
  /\ exists lo hi,
       optimize_chart_data main_empty_frame 0 1 flow_in =
       Ok {| window_data := []; start_block := lo; end_block := hi;
             current_value := None |}.
Proof.
  apply empty_frame_lookups; [reflexivity|discriminate].
Defined.

(** ** The bracket search *)

(** The last [True] of a boolean series. *)
Lemma last_true_split (s : list (Z * bool)) :
  existsb snd s = true ->
  exists s1 l s2, s = s1 ++ (l, true) :: s2 /\ existsb snd s2 = false.
Proof.
  induction s as [|x s IH]; simpl; intro H; [discriminate|].
  destruct (existsb snd s) eqn:E.
  - destruct (IH eq_refl) as [s1 [l [s2 [-> H2]]]].
    exists (x :: s1), l, s2. auto.
  - rewrite orb_false_r in H. exists [], (fst x), s. split; [|exact E].
    destruct x as [l b]. simpl in *. subst. reflexivity.
Qed.

Lemma idxmax_from_skip (first l : Z) (u v : list (Z * bool)) :
  existsb snd u = false -> idxmax_from first (u ++ (l, true) :: v) = l.
Proof.
  induction u as [|x u IH]; simpl; intro H; [reflexivity|].
  apply orb_false_iff in H. destruct H as [Hx Hu]. rewrite Hx. auto.
Qed.

Lemma idxmax_rev_last (s1 s2 : list (Z * bool)) (l : Z) :
  existsb snd s2 = false ->
  idxmax (rev (s1 ++ (l, true) :: s2)) = Ok l.
Proof.
  intro H. rewrite rev_app_distr. simpl. rewrite <- app_assoc. simpl.
  assert (Hr : existsb snd (rev s2) = false) by (rewrite existsb_rev; exact H).
  unfold idxmax.
  destruct (rev s2 ++ (l, true) :: rev s1) as [|x u] eqn:E.
  - destruct (rev s2); discriminate.
  - rewrite <- E. rewrite idxmax_from_skip by exact Hr. reflexivity.
Qed.

Lemma clamp_eq (q n : Z) :
  Z.max 0 (if (q >=? n)%Z then (n - 1)%Z else q) = Z.max 0 (Z.min q (n - 1)).
Proof.
  rewrite Z.geb_leb. destruct (n <=? q)%Z eqn:C.
  - apply Z.leb_le in C. lia.
  - apply Z.leb_gt in C. lia.
Qed.

Section BracketSearch.

(** A frame with a dense index and a target, fixed for the section. *)
Variable data : DataFrame.
Variable t : Q.
Hypothesis Hdense : dense (rows data).

(** The backward read of a window that starts at position 0: the label
    found is the position of the last row not after the target. *)
Lemma last_match_prefix (k : Z) :
  (0 < k <= len data)%Z ->
  existsb snd (le_target t (iloc_slice 0 k (rows data))) = true ->
  exists ib rb,
    idxmax (rev (le_target t (iloc_slice 0 k (rows data)))) = Ok ib
    /\ (0 <= ib < k)%Z
    /\ iloc data ib = Ok rb
    /\ inject_Z (block rb) <= t
    /\ forall j r', (ib < j < k)%Z -> iloc data j = Ok r' ->
                    t < inject_Z (block r').
Proof.
  intros Hk Hex. rewrite iloc_slice_prefix in * by lia.
  set (kn := Z.to_nat k) in *.
  assert (Hkn : (kn <= length (rows data))%nat) by (unfold kn, len in *; lia).
  destruct (last_true_split _ Hex) as [s1 [l [s2 [Hs H2]]]].
  rewrite Hs, (idxmax_rev_last s1 s2 l H2).
  assert (Hlen : length (s1 ++ (l, true) :: s2) = kn).
  { rewrite <- Hs. unfold le_target. rewrite length_map.
    apply firstn_length_le. exact Hkn. }
  rewrite length_app in Hlen. simpl in Hlen.
  assert (Hnth : forall j, (j < kn)%nat ->
            nth_error (s1 ++ (l, true) :: s2) j
            = option_map (fun lr => (fst lr,
                            Qle_bool (inject_Z (block (snd lr))) t))
                         (nth_error (rows data) j)).
  { intros j Hj. rewrite <- Hs. unfold le_target.
    rewrite nth_error_map, nth_error_firstn.
    destruct (j <? kn)%nat eqn:C; [reflexivity|].
    apply Nat.ltb_ge in C. lia. }
  assert (H1 : nth_error (s1 ++ (l, true) :: s2) (length s1) = Some (l, true)).
  { rewrite nth_error_app2 by lia. rewrite Nat.sub_diag. reflexivity. }
  rewrite Hnth in H1 by lia.
  destruct (nth_error (rows data) (length s1)) as [lr|] eqn:E; [|discriminate].
  simpl in H1. inversion H1 as [[Hl Hb]].
  pose proof (dense_label _ _ _ Hdense E) as Hlab.
  exists l, (snd lr). split; [congruence|].
  assert (Hl' : l = Z.of_nat (length s1)) by congruence.
  split; [unfold kn in *; lia|].
  split; [rewrite Hl'; apply iloc_nth; exact E|].
  split; [apply Qle_bool_iff; exact Hb|].
  intros j r' Hj Hr'.
  apply iloc_inv in Hr'; [|lia]. destruct Hr' as [_ [lr' [E' <-]]].
  assert (Hjn : (Z.to_nat j < kn)%nat) by (unfold kn; lia).
  pose proof (Hnth _ Hjn) as Hj2. rewrite E' in Hj2. simpl in Hj2.
  rewrite nth_error_app2 in Hj2 by lia.
  destruct (Z.to_nat j - length s1)%nat as [|m] eqn:M; [lia|].
  simpl in Hj2.
  apply Qltb_lt. unfold Qltb. apply negb_true_iff.
  destruct (Qle_bool (inject_Z (block (snd lr'))) t) eqn:B; [|reflexivity].
  exfalso. apply nth_error_In in Hj2.
  assert (Hx : existsb snd s2 = true).
  { apply existsb_exists. eexists. split; [exact Hj2|reflexivity]. }
  congruence.
Qed.

Lemma le_target_first (k : Z) (first : Row) :
  (0 < k)%Z -> iloc data 0 = Ok first -> inject_Z (block first) <= t ->
  existsb snd (le_target t (iloc_slice 0 k (rows data))) = true.
Proof.
  intros Hk Hf Hle. rewrite iloc_slice_prefix by lia.
  apply iloc_inv in Hf; [|lia]. destruct Hf as [_ [lr [E <-]]].
  destruct (rows data) as [|x rs]; [discriminate|].
  simpl in E. inversion E; subst.
  destruct (Z.to_nat k) eqn:K; [lia|]. simpl.
  apply Qle_bool_iff in Hle. rewrite Hle. reflexivity.
Qed.

Lemma look_back_ok (a : Z) (first r0 : Row) :
  (0 < a <= 5)%Z -> (a < len data)%Z ->
  iloc data 0 = Ok first -> inject_Z (block first) <= t ->
  iloc data a = Ok r0 -> t < inject_Z (block r0) ->
  exists ib rb ra,
    look_back data t a = Ok ib
    /\ (0 <= ib < a)%Z
    /\ iloc data ib = Ok rb /\ iloc data (ib + 1) = Ok ra
    /\ inject_Z (block rb) <= t /\ t < inject_Z (block ra).
Proof.
  intros Ha Hlen Hf Hle Hr0 Hgt.
  assert (Hex := le_target_first a first (proj1 Ha) Hf Hle).
  destruct (last_match_prefix a (conj (proj1 Ha) (Z.lt_le_incl _ _ Hlen)) Hex)
    as [ib [rb [Hidx [Hib [Hrb [Hb Hafter]]]]]].
  assert (Hra : exists ra, iloc data (ib + 1) = Ok ra /\ t < inject_Z (block ra)).
  { destruct (Z.eq_dec (ib + 1) a) as [->|Hne].
    - exists r0. auto.
    - destruct (iloc_total data (ib + 1)) as [lr [_ Hlr]]; [lia|].
      exists (snd lr). split; [exact Hlr|].
      apply (Hafter (ib + 1)%Z); [lia|exact Hlr]. }
  destruct Hra as [ra [Hra Hra_gt]].
  exists ib, rb, ra. split; [|auto].
  unfold look_back. rewrite (Z.max_l 0) by lia. rewrite Hidx.
  rewrite iloc_slice_prefix by lia.
  rewrite firstn_length_le by (unfold len in Hlen; lia).
  destruct (0 <? Z.of_nat (Z.to_nat a))%Z eqn:C; [reflexivity|].
  apply Z.ltb_ge in C. lia.
Qed.

Lemma look_ahead_ok (r0 : Row) :
  (0 < len data)%Z ->
  iloc data 0 = Ok r0 -> inject_Z (block r0) <= t ->
  exists ib rb,
    look_ahead data t 0 = Ok ib
    /\ (0 <= ib < Z.min (len data) 5)%Z
    /\ iloc data ib = Ok rb
    /\ inject_Z (block rb) <= t
    /\ forall j r', (ib < j < Z.min (len data) 5)%Z -> iloc data j = Ok r' ->
                    t < inject_Z (block r').
Proof.
  intros Hlen Hr0 Hle.
  assert (Hk : (0 < Z.min (len data) 5 <= len data)%Z) by lia.
  assert (Hex := le_target_first _ r0 (proj1 Hk) Hr0 Hle).
  destruct (last_match_prefix _ Hk Hex)
    as [ib [rb [Hidx [Hib [Hrb [Hb Hafter]]]]]].
  exists ib, rb. split; [|auto].
  unfold look_ahead. change (0 + 5)%Z with 5%Z.
  rewrite Hex, Hidx. reflexivity.
Qed.

(** C5 (as amended). On a frame of two or more rows in ascending block
    order, with a dense index and a non-zero block interval, and for a
    target between the first and the last block, let [a] be the clamped
    approximate position and [r0] its row. The search returns an ordered
    pair whose rows enclose the target when [r0] is an exact match, when
    [r0] and the next row enclose the target, and when [r0] is after the
    target and the backward window starts at position 0 ([a <= 5]). When
    [r0] is before the target and [a = 0], the pair is ordered and the row at
    [idx_before] is not after the target; the row at [idx_after] is not
    before the target provided the frame has at most five rows or the row at
    position 5 is not before the target. *)
Theorem find_bracket_local :
  ascending (rows data) ->
  (2 <= len data)%Z ->
  attrs_block_interval data <> 0%Z ->
  in_range data t ->
  exists a r0,
    approx_index data t = Ok a
    /\ iloc data a = Ok r0
    /\ (t < inject_Z (block r0) -> (a <= 5)%Z ->
        exists br, find_bracket data t = Ok br /\ brackets data t br)
    /\ (inject_Z (block r0) == t ->
        exists br, find_bracket data t = Ok br /\ brackets data t br)
    /\ (inject_Z (block r0) < t ->
        ((exists r1, iloc data (a + 1) = Ok r1 /\ t < inject_Z (block r1)) ->
         exists br, find_bracket data t = Ok br /\ brackets data t br)
        /\ ((a = 0)%Z ->
            exists br, find_bracket data t = Ok br
              /\ brackets_below data t br
              /\ ((len data <= 5)%Z
                  \/ (exists r5, iloc data 5 = Ok r5 /\ t <= inject_Z (block r5)) ->
                  brackets data t br))).
Proof.
  intros Hs Hlen Hi [first [last [Hf [Hl [Hlo Hhi]]]]].
  assert (Hne : rows data <> []).
  { unfold len in Hlen. destruct (rows data); [simpl in Hlen; lia|discriminate]. }
  destruct (approx_index_Ok data t Hne Hi) as [a [lr0 [Ha [Hr [Hn Hl0]]]]].
  exists a, (snd lr0). split; [exact Ha|]. split; [exact Hl0|].
  assert (FB : find_bracket data t =
    (idx_before <-
      (if Qltb t (inject_Z (block (snd lr0))) then look_back data t a
       else if Qltb (inject_Z (block (snd lr0))) t then
         next_after <-
           (if (a + 1 <? len data)%Z then
              r' <- iloc data (a + 1) ;; Ok (Qltb t (inject_Z (block r')))
            else Ok false) ;;
         if next_after then Ok a else look_ahead data t a
       else Ok a) ;;
     Ok (idx_before, Z.min (len data - 1) (idx_before + 1)))).
  { unfold find_bracket. unfold approx_index in Ha.
    destruct (int_div t (attrs_block_interval data)) as [q|e]; [|discriminate].
    cbn [bind] in *. rewrite clamp_eq. inversion Ha as [Ha']. rewrite Ha'.
    rewrite Hl0. reflexivity. }
  rewrite FB. clear FB.
  rewrite iloc_last in Hl by lia.
  split; [|split].
  - (* the approximate row is after the target *)
    intros Hgt Ha5. pose proof Hgt as Hgt'. apply Qltb_lt in Hgt'. rewrite Hgt'.
    assert (Ha0 : (0 < a)%Z).
    { destruct (Z.eq_dec a 0) as [->|]; [|lia].
      rewrite Hf in Hl0. inversion Hl0; subst. lra. }
    destruct (look_back_ok a first (snd lr0) (conj Ha0 Ha5) (proj2 Hr)
                Hf Hlo Hl0 Hgt)
      as [ib [rb [ra [Hlb [Hib [Hrb [Hra [Hb1 Hb2]]]]]]]].
    rewrite Hlb. cbn [bind]. eexists. split; [reflexivity|].
    unfold brackets. cbn [fst snd]. rewrite (Z.min_r (len data - 1)) by lia.
    split; [lia|]. exists rb, ra. repeat split; auto. lra.
  - (* exact match *)
    intro Heq.
    assert (C1 : Qltb t (inject_Z (block (snd lr0))) = false)
      by (apply Qltb_ge; lra).
    assert (C2 : Qltb (inject_Z (block (snd lr0))) t = false)
      by (apply Qltb_ge; lra).
    rewrite C1, C2. cbn [bind]. eexists. split; [reflexivity|].
    unfold brackets. cbn [fst snd]. split; [lia|].
    destruct (Z.eq_dec a (len data - 1)) as [Hlast|Hnl].
    + rewrite Z.min_l by lia. rewrite Hlast in *.
      exists (snd lr0), (snd lr0). repeat split; auto; lra.
    + rewrite Z.min_r by lia.
      destruct (iloc_total data (a + 1)) as [lr1 [Hn1 Hl1]]; [lia|].
      exists (snd lr0), (snd lr1). repeat split; auto; [lra|].
      assert (block (snd lr0) <= block (snd lr1))%Z.
      { apply (ascending_nth (rows data) (Z.to_nat a) (Z.to_nat (a + 1)));
          auto. lia. }
      rewrite <- Heq. rewrite <- Zle_Qle. assumption.
  - (* the approximate row is before the target *)
    intro Hlt.
    assert (C1 : Qltb t (inject_Z (block (snd lr0))) = false)
      by (apply Qltb_ge; lra).
    assert (C2 : Qltb (inject_Z (block (snd lr0))) t = true)
      by (apply Qltb_lt; exact Hlt).
    rewrite C1, C2.
    assert (Direct : forall r1, iloc data (a + 1) = Ok r1 ->
              t < inject_Z (block r1) ->
              brackets data t (a, Z.min (len data - 1) (a + 1))).
    { intros r1 Hr1 Hgt.
      assert (Hpos : (0 <= a + 1)%Z) by lia.
      pose proof (iloc_inv data (a + 1) r1 Hpos Hr1) as [Hin _].
      unfold brackets. cbn [fst snd]. rewrite Z.min_r by lia.
      split; [lia|]. exists (snd lr0), r1. repeat split; auto; lra. }
    split.
    + intros [r1 [Hr1 Hgt]].
      assert (Hpos : (0 <= a + 1)%Z) by lia.
      pose proof (iloc_inv data (a + 1) r1 Hpos Hr1) as [Hin _].
      apply Z.ltb_lt in Hin. rewrite Hin, Hr1. cbn [bind].
      pose proof Hgt as Hgt'. apply Qltb_lt in Hgt'. rewrite Hgt'. cbn [bind].
      eexists. split; [reflexivity|]. apply (Direct r1); assumption.
    + intro Ha0. subst a. change (0 + 1)%Z with 1%Z in *.
      assert (H1 : (1 <? len data)%Z = true) by (apply Z.ltb_lt; lia).
      rewrite H1.
      destruct (iloc_total data 1) as [lr1 [Hn1 Hl1]]; [lia|].
      rewrite Hl1. cbn [bind].
      destruct (Qltb t (inject_Z (block (snd lr1)))) eqn:N.
      * (* the next row is after the target *)
        apply Qltb_lt in N. cbn [bind]. eexists. split; [reflexivity|].
        pose proof (Direct (snd lr1) Hl1 N) as B.
        split; [|intros _; exact B].
        destruct B as [B1 [rb [ra [B2 [B3 [B4 B5]]]]]].
        split; [exact B1|]. exists rb. auto.
      * (* forward search from position 0 *)
        assert (Hpos : (0 < len data)%Z) by lia.
        assert (Hle0 : inject_Z (block (snd lr0)) <= t) by lra.
        destruct (look_ahead_ok (snd lr0) Hpos Hl0 Hle0)
          as [ib [rb [Hla [Hib [Hrb [Hb Hafter]]]]]].
        rewrite Hla. cbn [bind]. eexists. split; [reflexivity|].
        unfold brackets_below, brackets. cbn [fst snd].
        split; [split; [lia|]; exists rb; auto|].
        intros Hwin. split; [lia|].
        destruct (Z.eq_dec (ib + 1) (Z.min (len data) 5)) as [Hend|Hmid].
        -- (* the last match is the last row of the window *)
           destruct (Z.le_gt_cases (len data) 5) as [Hsmall|Hbig].
           ++ rewrite Z.min_l by lia.
              replace (len data - 1)%Z with ib in * by lia.
              exists rb, rb. rewrite Hrb in Hl. inversion Hl; subst.
              repeat split; auto.
           ++ destruct Hwin as [Hw|[r5 [Hr5 Hle5]]]; [lia|].
              rewrite Z.min_r by lia. replace (ib + 1)%Z with 5%Z by lia.
              exists rb, r5. repeat split; auto.
        -- rewrite Z.min_r by lia.
           destruct (iloc_total data (ib + 1)) as [lr' [_ Hlr']]; [lia|].
           exists rb, (snd lr'). repeat split; auto.
           apply Qlt_le_weak. apply (Hafter (ib + 1)%Z); [lia|exact Hlr'].
Qed.

End BracketSearch.

Lemma find_bracket_local_witness :
  exists br, find_bracket grid5 1400 = Ok br /\ brackets grid5 1400 br.
Proof.
  destruct (find_bracket_local grid5 1400) as [a [r0 [Ha [Hr [_ [_ H]]]]]].
  - apply preprocess_dense.
  - apply preprocess_ascending.
  - vm_compute. discriminate.
  - vm_compute. discriminate.
  - exists (mkRow 0 0 [inject_Z 0; 0; inject_Z 0 - 0]),
           (mkRow 4000 0 [inject_Z 4; 0; inject_Z 4 - 0]).
    repeat split; vm_compute; discriminate.
  - vm_compute in Ha. inversion Ha; subst a.
    vm_compute in Hr. inversion Hr; subst r0.
    apply H.
    + vm_compute. reflexivity.
    + exists (mkRow 2000 0 [inject_Z 2; 0; inject_Z 2 - 0]).
      split; vm_compute; reflexivity.
Defined.

(** C5 (as stated) fails by the bound of the forward search. In the frame
    [burst] (blocks 0..6, then every 1000 blocks up to 9000; interval 1000)
    the in-range target 6 has approximate position 0; the forward search
    reads positions 0..4 only and returns [(4, 5)], but the row at position
    5 has block 5, which is before the target. *)
Lemma find_bracket_window_exhausted :
  (2 <= len burst)%Z
  /\ in_range burst 6
  /\ find_bracket burst 6 = Ok (4, 5)%Z
  /\ iloc burst 5 = Ok (mkRow 5 0 [inject_Z 5; 0; inject_Z 5 - 0])
  /\ ~ brackets burst 6 (4, 5)%Z.
Proof.
  split; [vm_compute; discriminate|].
  split.
  { exists (mkRow 0 0 [inject_Z 0; 0; inject_Z 0 - 0]),
           (mkRow 9000 0 [inject_Z 15; 0; inject_Z 15 - 0]).
    repeat split; vm_compute; discriminate. }
  split; [vm_compute; reflexivity|].
  split; [vm_compute; reflexivity|].
  intros [_ [before [after [_ [Hafter [_ Hle]]]]]].
  vm_compute in Hafter. inversion Hafter; subst after.
  vm_compute in Hle. apply Hle. reflexivity.
Qed.

(** ** Interpolation *)



(** *** The blend in binary64 *)









Lemma interpolate_data_try_Interpolated (data : DataFrame) (t : Q) (r : InterpRow) :
  interpolate_data_try data t = Ok (Interpolated r) ->
  exists before_row after_row, r = interpolate before_row after_row t.
Proof.
  unfold interpolate_data_try.
  destruct (len data <=? 1)%Z.
  - destruct (len data =? 0)%Z; intro H; [discriminate|].
    inv_bind H. discriminate.
  - intro H. inv_bind H.
    destruct (fst x <? 0)%Z; [inv_bind H; discriminate|].
    destruct (snd x >=? len data)%Z; [inv_bind H; discriminate|].
    do 2 inv_bind H. inversion H. eauto.
Qed.

(** C8. Whenever [interpolate_data] synthesises a row at target [t], the
    row's block is [t] itself and its day is [floor (t / BLOCKS_PER_DAY)];
    for an integral target this is the floor division [b / BLOCKS_PER_DAY]
    that [load_data] applies to the block column. *)
Theorem interpolate_data_block_day (data : DataFrame) (t : Q) (r : InterpRow) :
  interpolate_data data t = Interpolated r ->
  i_block r = t /\
  i_day r = Qfloor (t / inject_Z BLOCKS_PER_DAY) /\
  (forall b : Z, t == inject_Z b -> i_day r = (b / BLOCKS_PER_DAY)%Z).
Proof.
  intro H.
  assert (E : exists before_row after_row, r = interpolate before_row after_row t).
  { unfold interpolate_data in H.
    destruct (interpolate_data_try data t) eqn:T.
    - subst a. eapply interpolate_data_try_Interpolated; eauto.
    - destruct (get_frame_data_shape data t) as [G | [r' [G _]]];
        rewrite G in H; discriminate. }
  destruct E as [rb [ra ->]].
  split; [reflexivity|]. split; [reflexivity|].
  intros b Hb. change (i_day (interpolate rb ra t))
    with (Qfloor (t / inject_Z BLOCKS_PER_DAY)).
  rewrite <- (Qfloor_div_Z b BLOCKS_PER_DAY) by reflexivity.
  apply Qfloor_comp. rewrite Hb. reflexivity.
Qed.

Lemma interpolate_data_block_day_witness :
  i_block grid5_at_1500 = 1500 /\
  i_day grid5_at_1500 = Qfloor (1500 / inject_Z BLOCKS_PER_DAY) /\
  (forall b : Z, 1500 == inject_Z b -> i_day grid5_at_1500 = (b / BLOCKS_PER_DAY)%Z).
Proof.
  apply (interpolate_data_block_day grid5 1500 grid5_at_1500).
  vm_compute. reflexivity.
Defined.

(** ** Chart windows *)

Lemma every_nth_In {A : Type} (n k : nat) (l : list A) (x : A) :
  In x (every_nth n k l) -> In x l.
Proof.
  revert k. induction l as [|y l IH]; simpl; intros k H; auto.
  destruct k.
  - destruct H as [H|H]; auto. right. eapply IH; eauto.
  - right. eapply IH; eauto.
Qed.

Lemma downsample_In (w : list (Z * Row)) (x : Z * Row) :
  In x (downsample w) -> In x w.
Proof.
  unfold downsample, iloc_step.
  destruct (MAX_DATA_POINTS_PER_CHART <? Z.of_nat (length w))%Z; auto.
  apply every_nth_In.
Qed.

Lemma downsample_head (w : list (Z * Row)) :
  hd_error (downsample w) = hd_error w.
Proof.
  unfold downsample, iloc_step.
  destruct (MAX_DATA_POINTS_PER_CHART <? Z.of_nat (length w))%Z; auto.
  destruct w; reflexivity.
Qed.

Lemma optimize_chart_data_Ok (data : DataFrame) (t : Q) (mb : Z) (col : string)
    (c : ChartData) :
  optimize_chart_data data t mb col = Ok c ->
  exists w, chart_window data t mb = Ok w /\
            window_data c = downsample (snd w) /\
            start_block c = fst (fst w) /\ end_block c = snd (fst w).
Proof.
  unfold optimize_chart_data. intro H. inv_bind H.
  inversion H; subst; simpl. eauto.
Qed.

Lemma chart_window_Ok (data : DataFrame) (t : Q) (mb : Z) (w : Q * Q * list (Z * Row)) :
  chart_window data t mb = Ok w ->
  fst (fst w) = py_max 0 (t - inject_Z (CHART_WINDOW_SIZE / 2)) /\
  snd (fst w) = py_min (inject_Z mb) (t + inject_Z (CHART_WINDOW_SIZE / 2)) /\
  forall lr, In lr (snd w) ->
    In lr (rows data) /\
    fst (fst w) <= inject_Z (block (snd lr)) <= snd (fst w).
Proof.
  unfold chart_window. intro H. do 2 inv_bind H. inversion H; subst; simpl.
  repeat split.
  - apply filter_In in H0. destruct H0 as [H0 _].
    apply In_iloc_slice in H0. exact H0.
  - apply filter_In in H0. destruct H0 as [_ H0].
    apply andb_true_iff in H0. apply Qle_bool_iff. tauto.
  - apply filter_In in H0. destruct H0 as [_ H0].
    apply andb_true_iff in H0. apply Qle_bool_iff. tauto.
Qed.

(** C7. Every row of the window returned by [optimize_chart_data] for the
    target [B] has its block in [[max(0, B - W/2), min(M, B + W/2)]], where
    [W] is the chart window size and [M] the [max_block] argument. *)
Theorem window_rows_in_range (data : DataFrame) (B : Q) (M : Z) (col : string)
    (c : ChartData) (lr : Z * Row) :
  optimize_chart_data data B M col = Ok c ->
  In lr (window_data c) ->
  let W := inject_Z CHART_WINDOW_SIZE in
  Qmax 0 (B - W / 2) <= inject_Z (block (snd lr))
  /\ inject_Z (block (snd lr)) <= Qmin (inject_Z M) (B + W / 2).
Proof.
  intros H Hin W.
  apply optimize_chart_data_Ok in H. destruct H as [w [Hw [Hd _]]].
  rewrite Hd in Hin. apply downsample_In in Hin.
  apply chart_window_Ok in Hw. destruct Hw as [Hs [He Hall]].
  destruct (Hall lr Hin) as [_ [Hlo Hhi]]. rewrite Hs in Hlo. rewrite He in Hhi.
  assert (Hhalf : inject_Z (CHART_WINDOW_SIZE / 2) == W / 2) by reflexivity.
  destruct (py_max_bounds 0 (B - inject_Z (CHART_WINDOW_SIZE / 2))) as [M1 M2].
  destruct (py_min_bounds (inject_Z M) (B + inject_Z (CHART_WINDOW_SIZE / 2))) as [N1 N2].
  split.
  - apply Q.max_lub; lra.
  - apply Q.min_glb; lra.
Qed.

Lemma window_rows_in_range_witness :
  let lr := (2%Z, mkRow 2000 0 [2; 0; 2]) in
  let W := inject_Z CHART_WINDOW_SIZE in
  Qmax 0 (2000 - W / 2) <= inject_Z (block (snd lr))
  /\ inject_Z (block (snd lr)) <= Qmin (inject_Z 4000) (2000 + W / 2).
Proof.
  intros lr.
  apply (window_rows_in_range grid5 2000 4000 flow_in grid5_chart lr).
  - vm_compute. reflexivity.
  - unfold grid5_chart, window_data. right. right. left. reflexivity.
Defined.

Lemma downsample_small (w : list (Z * Row)) :
  (Z.of_nat (length w) <= MAX_DATA_POINTS_PER_CHART)%Z -> downsample w = w.
Proof.
  intro H. unfold downsample.
  destruct (MAX_DATA_POINTS_PER_CHART <? Z.of_nat (length w))%Z eqn:C; auto.
  apply Z.ltb_lt in C. lia.
Qed.

Lemma every_nth_ascending (n k : nat) (w : list (Z * Row)) :
  ascending w -> ascending (every_nth n k w).
Proof.
  unfold ascending. revert k. induction w as [|x w IH]; simpl; intros k H; auto.
  inversion H as [|b bs Hs Hall]; subst.
  destruct k; [|auto]. simpl. constructor; [auto|].
  apply Forall_forall. intros z Hz.
  unfold blocks_of in Hz. apply in_map_iff in Hz. destruct Hz as [lr [<- Hin]].
  apply every_nth_In in Hin.
  rewrite Forall_forall in Hall. apply Hall.
  unfold blocks_of. apply in_map_iff. eauto.
Qed.

Lemma downsample_ascending (w : list (Z * Row)) :
  ascending w -> ascending (downsample w).
Proof.
  intro H. unfold downsample, iloc_step.
  destruct (MAX_DATA_POINTS_PER_CHART <? Z.of_nat (length w))%Z; auto.
  apply every_nth_ascending, H.
Qed.

Lemma chart_window_ascending (data : DataFrame) (t : Q) (mb : Z)
    (w : Q * Q * list (Z * Row)) :
  ascending (rows data) -> chart_window data t mb = Ok w -> ascending (snd w).
Proof.
  intros Hs H. unfold chart_window in H. do 2 inv_bind H.
  inversion H; subst; simpl.
  apply ascending_filter. unfold iloc_slice.
  apply ascending_firstn, ascending_skipn, Hs.
Qed.

(** The window returned for a frame in ascending block order is in
    ascending block order. *)
Lemma optimize_chart_data_ascending (data : DataFrame) (t : Q) (mb : Z)
    (col : string) (c : ChartData) :
  ascending (rows data) ->
  optimize_chart_data data t mb col = Ok c -> ascending (window_data c).
Proof.
  intros Hs H. apply optimize_chart_data_Ok in H.
  destruct H as [w [Hw [Hd _]]]. rewrite Hd.
  apply downsample_ascending. eapply chart_window_ascending; eauto.
Qed.

(** C10. When the filtered window is not empty, the chart data is produced,
    its window is not empty, and its first row is the first row of the
    filtered window; on a frame in ascending block order that row has the
    lowest block of the filtered window. *)
Theorem downsample_keeps_first (data : DataFrame) (t : Q) (mb : Z) (col : string)
    (w : Q * Q * list (Z * Row)) :
  chart_window data t mb = Ok w ->
  snd w <> [] ->
  exists c, optimize_chart_data data t mb col = Ok c /\
            window_data c <> [] /\
            hd_error (window_data c) = hd_error (snd w) /\
            (ascending (rows data) ->
             forall first lr,
               hd_error (window_data c) = Some first -> In lr (snd w) ->
               (block (snd first) <= block (snd lr))%Z).
Proof.
  intros Hw Hne. unfold optimize_chart_data. rewrite Hw. simpl.
  eexists. split; [reflexivity|]. simpl.
  split; [|split; [apply downsample_head|]].
  - intro E. pose proof (downsample_head (snd w)) as Hh. rewrite E in Hh.
    destruct (snd w); [congruence|discriminate].
  - intros Hs first lr Hfirst Hin. rewrite downsample_head in Hfirst.
    pose proof (chart_window_ascending data t mb w Hs Hw) as Ha.
    destruct (snd w) as [|x rest]; [contradiction|].
    simpl in Hfirst. inversion Hfirst; subst x.
    apply ascending_cons_inv in Ha. destruct Ha as [_ Hall].
    destruct Hin as [<-|Hin]; [lia|auto].
Qed.

Lemma downsample_keeps_first_witness :
  exists c, optimize_chart_data grid5 2000 4000 flow_in = Ok c /\
            window_data c <> [] /\
            hd_error (window_data c) = hd_error (snd grid5_window) /\
            (ascending (rows grid5) ->
             forall first lr,
               hd_error (window_data c) = Some first ->
               In lr (snd grid5_window) ->
               (block (snd first) <= block (snd lr))%Z).
Proof.
  apply (downsample_keeps_first grid5 2000 4000 flow_in grid5_window).
  - vm_compute. reflexivity.
  - unfold grid5_window. simpl. discriminate.
Defined.

(** The step [n] keeps one row out of [n], starting with the first. *)
Lemma every_nth_length {A : Type} (n k : nat) (l : list A) :
  (k < n)%nat ->
  (length (every_nth n k l) * n + k + 1 <= length l + n)%nat.
Proof.
  revert k. induction l as [|x l IH]; intros k Hk; simpl; [lia|].
  destruct k as [|k].
  - simpl. assert (Hn : (n - 1 < n)%nat) by lia.
    specialize (IH (n - 1)%nat Hn). lia.
  - assert (Hn : (k < n)%nat) by lia. specialize (IH k Hn). lia.
Qed.

(** What the stride [len // MAX] guarantees: fewer than twice the maximum. *)
Lemma downsample_length (w : list (Z * Row)) :
  (Z.of_nat (length (downsample w)) < 2 * MAX_DATA_POINTS_PER_CHART)%Z.
Proof.
  unfold downsample, iloc_step, MAX_DATA_POINTS_PER_CHART.
  destruct (40 <? Z.of_nat (length w))%Z eqn:C.
  - apply Z.ltb_lt in C.
    set (len := Z.of_nat (length w)) in *.
    assert (Hn : (1 <= len / 40)%Z) by (apply Z.div_le_lower_bound; lia).
    pose proof (Z.mul_div_le len 40 ltac:(lia)) as Hlo.
    pose proof (Z.mul_succ_div_gt len 40 ltac:(lia)) as Hhi.
    assert (Hk : (0 < Z.to_nat (len / 40))%nat) by lia.
    pose proof (every_nth_length (Z.to_nat (len / 40)) 0 w Hk) as HL.
    set (L := length (every_nth (Z.to_nat (len / 40)) 0 w)) in *.
    assert (HL' : (Z.of_nat L * (len / 40) + 1 <= len + len / 40)%Z).
    { unfold len in *. nia. }
    nia.
  - apply Z.ltb_ge in C. lia.
Qed.

(** C4. On the 41-row frame [grid41] (blocks 0, 100, ..., 4000) the window
    around block 0 holds all 41 rows; the step is [41 / 40 = 1], so
    [optimize_chart_data] returns 41 rows, more than
    [MAX_DATA_POINTS_PER_CHART]. *)
Theorem optimize_chart_data_over_max :
  (c <- optimize_chart_data grid41 0 4000 flow_in ;;
   Ok (Z.of_nat (length (window_data c)))) = Ok 41%Z
  /\ (MAX_DATA_POINTS_PER_CHART < 41)%Z.
Proof.
  split; vm_compute; reflexivity.
Qed.

(** ** The scenarios of the specification on the sample frames *)

(** Between the rows of blocks 1000 and 2000, whose inflows are 1 and 2,
    the row synthesised at block 1500 has inflow 1.5. *)
Example interpolate_grid5_1500 :
  i_block grid5_at_1500 = 1500
  /\ Forall2 Qeq (i_vals grid5_at_1500) [3 # 2; 0; 3 # 2].
Proof.
  split; [reflexivity|]. repeat constructor.
Qed.

(** The nearest row to block 2600 is the row of block 3000. *)
Example get_frame_data_grid5_2600 :
  get_frame_data grid5 2600 = FrameRow (mkRow 3000 0 [inject_Z 3; 0; inject_Z 3 - 0]).
Proof. vm_compute. reflexivity. Qed.

(** A single row at block 500 is returned for targets before, at and after it,
    by both lookups. *)
Example single_row_lookups :
  let data := main_data (Some (csv_of [(500, 1)]%Z)) in
  let r := mkRow 500 0 [inject_Z 1; 0; inject_Z 1 - 0] in
  get_frame_data data 0 = FrameRow r
  /\ get_frame_data data 500 = FrameRow r
  /\ get_frame_data data 9000 = FrameRow r
  /\ interpolate_data data 0 = FrameRow r
  /\ interpolate_data data 9000 = FrameRow r.
Proof. repeat split; vm_compute; reflexivity. Qed.

(** ** Facts about the sample frames *)

Lemma grid5_regular : regular_grid grid5 1000.
Proof.
  split; [vm_compute; reflexivity|].
  intros i lr H.
  do 5 (destruct i as [|i]; [vm_compute in H; inversion H; reflexivity|]).
  vm_compute in H. destruct i; discriminate.
Qed.

Lemma grid5_block_range : block_range (blocks_of (rows grid5)).
Proof.
  unfold block_range. apply Forall_forall. intros b H. vm_compute in H.
  repeat (destruct H as [H|H]; [subst b; lia|]). contradiction.
Qed.

Lemma grid5_full_width : full_width grid5.
Proof.
  intros lr H. vm_compute in H.
  repeat (destruct H as [H|H]; [subst lr; reflexivity|]). contradiction.
Qed.

(** ** Loading: lines, derived columns and the block interval *)

(** X1. [load_data] keeps every line of a file that has both flow columns:
    the frame has one row per line, its labels are a rearrangement of
    0..n-1 and its blocks a rearrangement of the file's blocks. When a flow
    column is missing it returns the empty frame. *)
Theorem load_data_keeps_lines (csv : CsvTable) :
  (forall p_in p_out,
     index_of "AlphaPoints_per_block_in" (csv_columns csv) = Some p_in ->
     index_of "AlphaPoints_per_block_out" (csv_columns csv) = Some p_out ->
     let data := load_data (Some csv) in
     length (rows data) = length (csv_rows csv)
     /\ Permutation (map fst (rows data))
                    (map Z.of_nat (seq 0 (length (csv_rows csv))))
     /\ Permutation (blocks_of (rows data)) (map fst (csv_rows csv)))
  /\ (index_of "AlphaPoints_per_block_in" (csv_columns csv) = None
      \/ index_of "AlphaPoints_per_block_out" (csv_columns csv) = None ->
      load_data (Some csv) = empty_frame).
Proof.
  split.
  - intros p_in p_out Hin Hout.
    apply column_Ok in Hin. apply column_Ok in Hout.
    destruct (load_data_try_rows csv p_in p_out Hin Hout)
      as [data [Hl [_ [Hp _]]]].
    unfold load_data. rewrite Hl. cbv zeta.
    set (mk := loaded_row (csv_columns csv) p_in p_out) in *.
    split; [|split].
    + rewrite (Permutation_length Hp), range_index_length, length_map. reflexivity.
    + rewrite (Permutation_map fst Hp).
      unfold range_index. rewrite range_index_from_fst, length_map. reflexivity.
    + rewrite blocks_of_snd. rewrite (Permutation_map snd Hp).
      rewrite range_index_snd, map_map. reflexivity.
  - intros [H|H]; unfold load_data, load_data_try, column; rewrite H.
    + reflexivity.
    + destruct (index_of "AlphaPoints_per_block_in" (csv_columns csv));
        reflexivity.
Qed.

Lemma load_data_keeps_lines_witness :
  (let data := load_data (Some csv_unsorted) in
   length (rows data) = length (csv_rows csv_unsorted)
   /\ Permutation (map fst (rows data))
                  (map Z.of_nat (seq 0 (length (csv_rows csv_unsorted))))
   /\ Permutation (blocks_of (rows data)) (map fst (csv_rows csv_unsorted)))
  /\ load_data (Some csv_no_outflow) = empty_frame.
Proof.
  split.
  - destruct (load_data_keeps_lines csv_unsorted) as [H _].
    apply (H 0%nat 1%nat); reflexivity.
  - destruct (load_data_keeps_lines csv_no_outflow) as [_ H].
    apply H. right. reflexivity.
Defined.

Lemma index_of_Some (name : string) (cols : list string) (p : nat) :
  index_of name cols = Some p ->
  (p < length cols)%nat /\ nth_error cols p = Some name.
Proof.
  revert p. induction cols as [|c cols IH]; intros p H; [discriminate|].
  simpl in H. destruct (String.eqb c name) eqn:E.
  - inversion H; subst. apply String.eqb_eq in E. subst. simpl. split; [lia|auto].
  - destruct (index_of name cols) as [q|]; [|discriminate].
    inversion H; subst. destruct (IH q eq_refl). simpl. split; [lia|auto].
Qed.

Lemma index_of_app_new (name : string) (cols : list string) :
  index_of name cols = None ->
  index_of name (cols ++ [name]) = Some (length cols).
Proof.
  induction cols as [|c cols IH]; simpl; intro H.
  - rewrite String.eqb_refl. reflexivity.
  - destruct (String.eqb c name); [discriminate|].
    destruct (index_of name cols); [discriminate|].
    rewrite IH by reflexivity. reflexivity.
Qed.

Lemma nth_error_replace_nth {A : Type} (p : nat) (x : A) (l : list A) :
  (p < length l)%nat -> nth_error (replace_nth p x l) p = Some x.
Proof.
  revert p. induction l as [|y l IH]; intros p H; simpl in *; [lia|].
  destruct p; simpl; [reflexivity|]. apply IH. lia.
Qed.

Lemma nth_replace_nth_other {A : Type} (p q : nat) (x d : A) (l : list A) :
  p <> q -> nth q (replace_nth p x l) d = nth q l d.
Proof.
  revert p q. induction l as [|y l IH]; intros p q H.
  - destruct p; reflexivity.
  - destruct p, q; simpl; try reflexivity; try congruence.
    apply IH. congruence.
Qed.

Lemma replace_nth_length {A : Type} (p : nat) (x : A) (l : list A) :
  length (replace_nth p x l) = length l.
Proof.
  revert p. induction l as [|y l IH]; intro p; destruct p; simpl; auto.
Qed.

Lemma overwrite_value_length (cols : list string) (name : string) (x : Q)
    (vs : list Q) :
  length (overwrite_value cols name x vs) = length vs.
Proof.
  unfold overwrite_value. destruct (index_of name cols); [|reflexivity].
  apply replace_nth_length.
Qed.

(** The derived columns of one loaded line. *)
Lemma loaded_row_flow (cols : list string) (p_in p_out : nat) (line : Z * list Q) :
  index_of "AlphaPoints_per_block_in" cols = Some p_in ->
  index_of "AlphaPoints_per_block_out" cols = Some p_out ->
  length (snd line) = length cols ->
  let r := loaded_row cols p_in p_out line in
  length (vals r) = length (set_column_name cols "net_alpha_points_flow")
  /\ exists p,
       index_of "net_alpha_points_flow"
                (set_column_name cols "net_alpha_points_flow") = Some p
       /\ nth_error (vals r) p = Some (nth p_in (vals r) 0 - nth p_out (vals r) 0).
Proof.
  intros Hin Hout Hw r. unfold r, loaded_row, set_value, set_column_name. simpl.
  set (vs := overwrite_value cols "day" _ (snd line)).
  assert (Hw' : length vs = length cols)
    by (unfold vs; rewrite overwrite_value_length; exact Hw).
  clearbody vs. clear Hw. rename Hw' into Hw.
  destruct (index_of_Some _ _ _ Hin) as [Hin_lt Hin_n].
  destruct (index_of_Some _ _ _ Hout) as [Hout_lt Hout_n].
  destruct (index_of "net_alpha_points_flow" cols) as [p|] eqn:F.
  - destruct (index_of_Some _ _ _ F) as [Hp_lt Hp_n].
    split; [rewrite replace_nth_length; exact Hw|].
    exists p. split; [exact F|].
    assert (p <> p_in) by (intro; subst; rewrite Hin_n in Hp_n; discriminate).
    assert (p <> p_out) by (intro; subst; rewrite Hout_n in Hp_n; discriminate).
    rewrite !nth_replace_nth_other by assumption.
    apply nth_error_replace_nth. lia.
  - split; [rewrite !length_app; simpl; lia|].
    exists (length cols). split; [apply index_of_app_new; exact F|].
    rewrite !app_nth1 by lia.
    rewrite nth_error_app2 by lia. rewrite Hw, Nat.sub_diag. reflexivity.
Qed.

(** X2. In the frame [load_data] returns for a file whose lines are as wide
    as its header, every row has as many values as the frame has columns,
    its day is the floor division of its block by [BLOCKS_PER_DAY], and its
    [net_alpha_points_flow] value is its inflow minus its outflow. *)
Theorem load_data_derived_columns (csv : CsvTable) (p_in p_out : nat) (lr : Z * Row) :
  index_of "AlphaPoints_per_block_in" (csv_columns csv) = Some p_in ->
  index_of "AlphaPoints_per_block_out" (csv_columns csv) = Some p_out ->
  (forall line, In line (csv_rows csv) ->
                length (snd line) = length (csv_columns csv)) ->
  In lr (rows (load_data (Some csv))) ->
  let data := load_data (Some csv) in
  length (vals (snd lr)) = length (columns data)
  /\ day (snd lr) = (block (snd lr) / BLOCKS_PER_DAY)%Z
  /\ exists p,
       index_of "net_alpha_points_flow" (columns data) = Some p
       /\ nth_error (vals (snd lr)) p
          = Some (nth p_in (vals (snd lr)) 0 - nth p_out (vals (snd lr)) 0).
Proof.
  intros Hin Hout Hw Hlr data.
  pose proof Hin as Hin'. pose proof Hout as Hout'.
  apply column_Ok in Hin'. apply column_Ok in Hout'.
  destruct (load_data_try_rows csv p_in p_out Hin' Hout')
    as [d [Hl [Hc [Hp _]]]].
  unfold data in *. unfold load_data in *. rewrite Hl in *. rewrite Hc.
  eapply Permutation_in in Hlr; [|exact Hp].
  apply In_range_index in Hlr. apply in_map_iff in Hlr.
  destruct Hlr as [line [<- Hline]].
  destruct (loaded_row_flow _ p_in p_out line Hin Hout (Hw line Hline))
    as [Hlen Hflow].
  split; [exact Hlen|]. split; [reflexivity|exact Hflow].
Qed.

Lemma load_data_derived_columns_witness :
  let data := load_data (Some csv_unsorted) in
  let lr := unsorted_line0 in
  length (vals (snd lr)) = length (columns data)
  /\ day (snd lr) = (block (snd lr) / BLOCKS_PER_DAY)%Z
  /\ exists p,
       index_of "net_alpha_points_flow" (columns data) = Some p
       /\ nth_error (vals (snd lr)) p
          = Some (nth 0 (vals (snd lr)) 0 - nth 1 (vals (snd lr)) 0).
Proof.
  apply (load_data_derived_columns csv_unsorted 0%nat 1%nat unsorted_line0).
  - reflexivity.
  - reflexivity.
  - intros line H. simpl in H. destruct H as [H|[H|H]];
      [subst line; reflexivity|subst line; reflexivity|contradiction].
  - vm_compute. right. left. reflexivity.
Defined.

(** ** The block interval the lookups use *)

(** [mode_first] returns a most frequent element, the smallest of them. *)
Lemma mode_first_most (l : list Z) (m : Z) :
  mode_first l = Ok m ->
  forall x, In x l ->
    (occurrences x l <= occurrences m l)%nat
    /\ (occurrences x l = occurrences m l -> (m <= x)%Z).
Proof.
  unfold mode_first. destruct l as [|x0 l0] eqn:L; [discriminate|].
  rewrite <- L. intro H. inversion H as [Hm]. clear H.
  set (worse := fun a b : Z =>
         (occurrences a l < occurrences b l)%nat
         \/ (occurrences a l = occurrences b l /\ (b <= a)%Z)).
  assert (G : forall l' best,
            let res := fold_left
                  (fun best x =>
                     if (occurrences best l <? occurrences x l)%nat
                        || ((occurrences best l =? occurrences x l)%nat
                            && (x <? best)%Z)
                     then x else best) l' best in
            worse best res /\ forall x, In x l' -> worse x res).
  { induction l' as [|y l' IH]; intros best; simpl.
    - split; [right; split; [reflexivity|lia]|]. intros x [].
    - match goal with
      | |- context [fold_left _ l' ?b] => destruct (IH b) as [Hb Hall]
      end.
      destruct ((occurrences best l <? occurrences y l)%nat
                || ((occurrences best l =? occurrences y l)%nat
                    && (y <? best)%Z)) eqn:C.
      + assert (Hby : worse best y).
        { apply orb_true_iff in C. destruct C as [C|C].
          - apply Nat.ltb_lt in C. left. exact C.
          - apply andb_true_iff in C. destruct C as [C1 C2].
            apply Nat.eqb_eq in C1. apply Z.ltb_lt in C2. right. split; lia. }
        unfold worse in *. split; [lia|].
        intros x [<-|Hx]; [exact Hb|auto].
      + assert (Hyb : worse y best).
        { apply orb_false_iff in C. destruct C as [C1 C2].
          apply Nat.ltb_ge in C1. apply andb_false_iff in C2.
          unfold worse. destruct C2 as [C2|C2].
          - apply Nat.eqb_neq in C2. left. lia.
          - apply Z.ltb_ge in C2.
            destruct (Nat.eq_dec (occurrences y l) (occurrences best l));
              [right; split; [assumption|lia]|left; lia]. }
        unfold worse in *. split; [exact Hb|].
        intros x [<-|Hx]; [lia|auto]. }
  intros x Hx. destruct (G l x0) as [_ Hall]. rewrite Hm in *.
  specialize (Hall x Hx). unfold worse in Hall. lia.
Qed.

Lemma diff_nonneg (bs : list Z) :
  StronglySorted Z.le bs -> block_range bs ->
  Forall (fun d => (0 <= d)%Z) (diff bs).
Proof.
  induction bs as [|a bs IH]; intros H R; [constructor|].
  inversion H as [|x xs Hs Hall]; subst.
  inversion R as [|x xs Ra Rbs]; subst.
  destruct bs as [|b bs']; [constructor|].
  change (diff (a :: b :: bs'))
    with (to_float64 (wrap64 (b - a)) :: diff (b :: bs')).
  constructor; [|auto].
  inversion Hall; subst. inversion Rbs; subst.
  rewrite wrap64_small by lia. apply to_float64_nonneg. lia.
Qed.

Lemma ascending_NoDup_strict (bs : list Z) :
  StronglySorted Z.le bs -> NoDup bs -> StronglySorted Z.lt bs.
Proof.
  induction bs as [|a bs IH]; intros Hs Hn; [constructor|].
  inversion Hs as [|x xs Hs' Hall]; subst.
  inversion Hn as [|y ys Hnotin Hn']; subst.
  constructor; [auto|].
  rewrite Forall_forall in *. intros b Hb.
  specialize (Hall b Hb).
  destruct (Z.eq_dec a b) as [->|]; [contradiction|lia].
Qed.

Lemma load_data_one_row_interval (file : option CsvTable) :
  length (rows (load_data file)) = 1%nat ->
  block_interval (load_data file) = Some 1000%Z.
Proof.
  unfold load_data. destruct file as [csv|]; [|discriminate].
  destruct (load_data_try csv) as [d|e] eqn:E; [|discriminate].
  intro Hlen. pose proof E as E'. unfold load_data_try in E'.
  do 2 inv_bind E'. clear E'.
  destruct (load_data_try_rows csv x x0 Hx Hx0) as [d' [Hl [_ [Hp [Hone _]]]]].
  rewrite E in Hl. inversion Hl; subst d'. apply Hone.
  rewrite (Permutation_length Hp), range_index_length, length_map in Hlen. lia.
Qed.

(** The interval main.py attaches: the mode of the gaps for two or more rows,
    the interval of the loaded frame otherwise. *)
Lemma preprocess_interval (data : DataFrame) :
  ((2 <= len (preprocess data))%Z ->
   exists m, mode_first (diff (blocks_of (rows (preprocess data)))) = Ok m
             /\ block_interval (preprocess data) = Some m)
  /\ ((len (preprocess data) <= 1)%Z ->
      block_interval (preprocess data) = block_interval data).
Proof.
  pose proof (preprocess_rows data) as Hr. unfold len. rewrite Hr.
  unfold preprocess. destruct (0 <? len data)%Z eqn:C0.
  - cbv zeta. set (rs := reset_index (sort_values (rows data))) in *.
    destruct (1 <? Z.of_nat (length rs))%Z eqn:C1.
    + apply Z.ltb_lt in C1. split; [|lia]. intros _.
      assert (Hd : diff (blocks_of rs) <> []).
      { intro E. apply (f_equal (@length Z)) in E.
        rewrite diff_length, blocks_of_length in E. simpl in E. lia. }
      destruct (mode_first_Ok _ Hd) as [m Hm].
      destruct (0 <? Z.of_nat (length (diff (blocks_of rs))))%Z eqn:C2.
      * rewrite Hm. simpl. exists m. auto.
      * apply Z.ltb_ge in C2.
        destruct (diff (blocks_of rs)); [congruence|simpl in C2; lia].
    + apply Z.ltb_ge in C1. split; [lia|]. reflexivity.
  - split; [|reflexivity]. rewrite (len_0_rows _ C0). simpl. lia.
Qed.

(** X3. The block interval of the frame the application reads: 1000 when the
    frame has at most one row; otherwise one of the differences between
    consecutive blocks as pandas computes them (in [int64], stored as
    [float64]), such that no difference occurs more often and no difference
    that occurs as often is smaller. It is not negative when the blocks are
    [int64] values that are not negative. *)
Theorem main_data_interval (file : option CsvTable) :
  let data := main_data file in
  ((len data <= 1)%Z -> attrs_block_interval data = 1000%Z)
  /\ ((2 <= len data)%Z ->
      exists m,
        block_interval data = Some m
        /\ In m (diff (blocks_of (rows data)))
        /\ (block_range (blocks_of (rows data)) -> (0 <= m)%Z)
        /\ forall d, In d (diff (blocks_of (rows data))) ->
             (occurrences d (diff (blocks_of (rows data)))
              <= occurrences m (diff (blocks_of (rows data))))%nat
             /\ (occurrences d (diff (blocks_of (rows data)))
                 = occurrences m (diff (blocks_of (rows data))) -> (m <= d)%Z)).
Proof.
  intro data. unfold data, main_data.
  set (d0 := if (0 <? len (load_data file))%Z then load_data file
             else main_empty_frame).
  destruct (preprocess_interval d0) as [Hmany Hfew].
  split.
  - intro Hle. unfold attrs_block_interval. rewrite (Hfew Hle).
    unfold d0. destruct (0 <? len (load_data file))%Z eqn:C0; [|reflexivity].
    apply Z.ltb_lt in C0.
    assert (Hone : length (rows (load_data file)) = 1%nat).
    { pose proof (preprocess_rows d0) as Hr. unfold len in Hle.
      rewrite Hr in Hle. unfold d0 in Hle.
      apply Z.ltb_lt in C0. rewrite C0 in Hle. apply Z.ltb_lt in C0.
      unfold reset_index in Hle.
      rewrite range_index_length, length_map, sort_values_length in Hle.
      unfold len in C0. lia. }
    rewrite (load_data_one_row_interval file Hone). reflexivity.
  - intro Hge. destruct (Hmany Hge) as [m [Hm Hi]].
    exists m. split; [exact Hi|].
    split; [apply mode_first_In; exact Hm|].
    split.
    + intro HR. pose proof (diff_nonneg _ (preprocess_ascending d0) HR) as Hnn.
      rewrite Forall_forall in Hnn. apply Hnn. apply mode_first_In. exact Hm.
    + apply mode_first_most. exact Hm.
Qed.

Lemma main_data_interval_witness :
  attrs_block_interval (main_data None) = 1000%Z
  /\ exists m,
       block_interval grid5 = Some m
       /\ In m (diff (blocks_of (rows grid5)))
       /\ (0 <= m)%Z
       /\ forall d, In d (diff (blocks_of (rows grid5))) ->
            (occurrences d (diff (blocks_of (rows grid5)))
             <= occurrences m (diff (blocks_of (rows grid5))))%nat
            /\ (occurrences d (diff (blocks_of (rows grid5)))
                = occurrences m (diff (blocks_of (rows grid5))) -> (m <= d)%Z).
Proof.
  split.
  - pose proof (main_data_interval None) as H. cbv zeta in H.
    destruct H as [H _]. apply H. vm_compute. discriminate.
  - pose proof (main_data_interval (Some (csv_grid 5 1000))) as H.
    cbv zeta in H. destruct H as [_ H].
    destruct H as [m [H1 [H2 [H3 H4]]]]; [vm_compute; discriminate|].
    exists m. split; [exact H1|]. split; [exact H2|].
    split; [apply H3; apply grid5_block_range|exact H4].
Defined.

(** X4. When the frame the application reads has two or more rows, no two
    of them share a block, and the blocks are [int64] values that are not
    negative, its block interval is positive, so that no lookup divides by
    zero. *)
Theorem main_data_interval_positive (file : option CsvTable) :
  (2 <= len (main_data file))%Z ->
  NoDup (blocks_of (rows (main_data file))) ->
  block_range (blocks_of (rows (main_data file))) ->
  (0 < attrs_block_interval (main_data file))%Z.
Proof.
  intros Hlen Hnd HR. unfold main_data in *.
  apply preprocess_interval_positive; [exact Hlen| |exact HR].
  apply ascending_NoDup_strict; [apply preprocess_ascending|exact Hnd].
Qed.

Lemma main_data_interval_positive_witness :
  (0 < attrs_block_interval (main_data (Some (csv_grid 5 1000))))%Z.
Proof.
  apply (main_data_interval_positive (Some (csv_grid 5 1000))).
  - vm_compute. discriminate.
  - vm_compute.
    repeat (constructor; [simpl; intuition discriminate|]). constructor.
  - apply grid5_block_range.
Defined.

Lemma main_data_rows_perm (file : option CsvTable) :
  Permutation (map snd (rows (main_data file))) (map snd (rows (load_data file))).
Proof.
  unfold main_data. rewrite preprocess_rows.
  destruct (0 <? len (load_data file))%Z eqn:C0.
  - rewrite C0. unfold reset_index. rewrite range_index_snd.
    apply Permutation_map, sort_values_perm.
  - rewrite (len_0_rows _ C0). reflexivity.
Qed.

(** X5. The preprocessing of main.py neither drops nor changes a row: the
    rows of the frame the application reads are the rows [load_data]
    returned, rearranged. *)
Theorem main_data_keeps_rows (file : option CsvTable) :
  Permutation (map snd (rows (main_data file))) (map snd (rows (load_data file))).
Proof. apply main_data_rows_perm. Qed.

(** ** Lookups on degenerate frames *)

(** X6. With a block interval of 0 every lookup fails and degrades: on a
    frame with rows [get_frame_data] returns the empty series,
    [find_current_value] returns no marker, [optimize_chart_data] raises, and
    [interpolate_data], which falls back to [get_frame_data], returns the
    empty series when the frame has two or more rows. *)
Theorem zero_interval_lookups (data : DataFrame) (t : Q) (mb : Z) (col : string) :
  attrs_block_interval data = 0%Z ->
  rows data <> [] ->
  get_frame_data data t = EmptySeries
  /\ find_current_value data t col = None
  /\ (exists e, optimize_chart_data data t mb col = Raise e)
  /\ ((2 <= len data)%Z -> interpolate_data data t = EmptySeries).
Proof.
  intros Hz Hne.
  assert (Hlen : (len data =? 0)%Z = false).
  { apply Z.eqb_neq. unfold len. destruct (rows data); [congruence|simpl; lia]. }
  assert (G : get_frame_data data t = EmptySeries).
  { unfold get_frame_data, get_frame_data_try, approx_index, int_div.
    rewrite Hlen, Hz. reflexivity. }
  split; [exact G|]. split; [|split].
  - unfold find_current_value, find_current_value_try. rewrite Hz. reflexivity.
  - unfold optimize_chart_data, chart_window, int_div. rewrite Hz.
    eexists. reflexivity.
  - intro H2. unfold interpolate_data, interpolate_data_try.
    destruct (len data <=? 1)%Z eqn:C; [apply Z.leb_le in C; lia|].
    unfold find_bracket, int_div. rewrite Hz. cbn [bind Z.eqb]. exact G.
Qed.

Lemma zero_interval_lookups_witness :
  get_frame_data same_block 5 = EmptySeries
  /\ find_current_value same_block 5 flow_in = None
  /\ (exists e, optimize_chart_data same_block 5 5 flow_in = Raise e)
  /\ interpolate_data same_block 5 = EmptySeries.
Proof.
  destruct (zero_interval_lookups same_block 5 5 flow_in) as [A [B [C D]]].
  - vm_compute. reflexivity.
  - vm_compute. discriminate.
  - split; [exact A|]. split; [exact B|]. split; [exact C|].
    apply D. vm_compute. discriminate.
Defined.

(** X7. A frame with a single row: [interpolate_data] returns that row for
    every target, whatever the block interval, and so does [get_frame_data]
    when the block interval is not 0. On a frame without rows
    [interpolate_data] returns the empty series. *)
Theorem single_row_frame (data : DataFrame) (t : Q) :
  (rows data = [] -> interpolate_data data t = EmptySeries)
  /\ (forall lr, rows data = [lr] ->
        interpolate_data data t = FrameRow (snd lr)
        /\ (attrs_block_interval data <> 0%Z ->
            get_frame_data data t = FrameRow (snd lr))).
Proof.
  split.
  - intro Hr. unfold interpolate_data, interpolate_data_try, len. rewrite Hr.
    reflexivity.
  - intros lr Hr. split.
    + unfold interpolate_data, interpolate_data_try, len, iloc. rewrite Hr.
      reflexivity.
    + intro Hi. apply Z.eqb_neq in Hi.
      unfold get_frame_data, get_frame_data_try, approx_index, int_div, len, iloc, loc.
      rewrite Hr, Hi. cbn [length Z.of_nat Pos.of_succ_nat Z.eqb bind].
      replace (Z.max 0 (Z.min (py_int (t / inject_Z (attrs_block_interval data)))
                              (1 - 1))) with 0%Z by lia.
      cbn [iloc_rows length Z.of_nat Pos.of_succ_nat Z.ltb Z.compare Z.to_nat
           nth_error bind Z.sub Z.add Z.max Z.min Z.opp Z.pos_sub].
      destruct (Qltb _ _); cbn; [rewrite !Z.eqb_refl; reflexivity|].
      change (Pos.to_nat 1) with 1%nat. cbn. rewrite !Z.eqb_refl. reflexivity.
Qed.

Lemma single_row_frame_witness :
  interpolate_data main_empty_frame 7 = EmptySeries
  /\ interpolate_data single 7 = FrameRow (snd single_row)
  /\ get_frame_data single 7 = FrameRow (snd single_row).
Proof.
  split.
  - destruct (single_row_frame main_empty_frame 7) as [H _].
    apply H. reflexivity.
  - destruct (single_row_frame single 7) as [_ H].
    destruct (H single_row) as [A B]; [vm_compute; reflexivity|].
    split; [exact A|]. apply B. vm_compute. discriminate.
Defined.

(** ** What the lookups return *)

Lemma iloc_In (data : DataFrame) (i : Z) (r : Row) :
  iloc data i = Ok r -> In r (map snd (rows data)).
Proof.
  unfold iloc, iloc_rows. destruct (_ <? 0)%Z; [discriminate|].
  destruct (nth_error (rows data) _) as [lr|] eqn:E; [|discriminate].
  intro H. inversion H; subst. apply in_map. eapply nth_error_In; eauto.
Qed.

Lemma interpolate_data_try_shape (data : DataFrame) (t : Q) (s : Series) :
  interpolate_data_try data t = Ok s ->
  s = EmptySeries
  \/ (exists r, s = FrameRow r /\ In r (map snd (rows data)))
  \/ (exists before after,
        s = Interpolated (interpolate before after t)
        /\ In before (map snd (rows data)) /\ In after (map snd (rows data))).
Proof.
  unfold interpolate_data_try.
  destruct (len data <=? 1)%Z.
  - destruct (len data =? 0)%Z; intro H.
    + inversion H. auto.
    + inv_bind H. inversion H; subst. right. left. eexists. split; [reflexivity|].
      eapply iloc_In; eauto.
  - intro H. inv_bind H.
    destruct (fst x <? 0)%Z.
    { inv_bind H. inversion H; subst. right. left. eexists.
      split; [reflexivity|]. eapply iloc_In; eauto. }
    destruct (snd x >=? len data)%Z.
    { inv_bind H. inversion H; subst. right. left. eexists.
      split; [reflexivity|]. eapply iloc_In; eauto. }
    do 2 inv_bind H. inversion H; subst. right. right.
    exists x0, x1. split; [reflexivity|]. split; eapply iloc_In; eauto.
Qed.

(** X8. The lookups never invent data: [get_frame_data] returns the empty
    series or a row stored in the frame; [interpolate_data] returns the empty
    series, a row stored in the frame, or the row interpolated at the target
    between two rows stored in the frame. *)
Theorem lookups_return_frame_rows (data : DataFrame) (t : Q) :
  (get_frame_data data t = EmptySeries
   \/ exists r, get_frame_data data t = FrameRow r /\ In r (map snd (rows data)))
  /\ (interpolate_data data t = EmptySeries
      \/ (exists r, interpolate_data data t = FrameRow r
                    /\ In r (map snd (rows data)))
      \/ (exists before after,
            interpolate_data data t = Interpolated (interpolate before after t)
            /\ In before (map snd (rows data))
            /\ In after (map snd (rows data)))).
Proof.
  split; [apply get_frame_data_shape|].
  unfold interpolate_data.
  destruct (interpolate_data_try data t) as [s|e] eqn:E.
  - apply interpolate_data_try_shape in E. exact E.
  - destruct (get_frame_data_shape data t) as [G|G]; auto.
Qed.

(** ** Columns that do not change *)




(** ** Evenly spaced data *)

Lemma py_int_floor (x : Q) : 0 <= x -> py_int x = Qfloor x.
Proof.
  intro H. destruct x as [n d]. unfold py_int, Qfloor. simpl.
  apply Z.quot_div_nonneg; [|reflexivity].
  unfold Qle in H. simpl in H. lia.
Qed.

Lemma div_nonneg (t : Q) (s : Z) : (0 < s)%Z -> 0 <= t -> 0 <= t / inject_Z s.
Proof.
  intros Hs Ht. apply Qle_shift_div_l.
  - rewrite Zlt_Qlt in Hs. exact Hs.
  - lra.
Qed.

(** The grid cell of a target: [a * s <= t < (a + 1) * s] for
    [a = floor (t / s)]. *)
Lemma floor_cell (t : Q) (s : Z) :
  (0 < s)%Z -> 0 <= t ->
  let a := Qfloor (t / inject_Z s) in
  (0 <= a)%Z
  /\ inject_Z (a * s) <= t
  /\ t < inject_Z ((a + 1) * s).
Proof.
  intros Hs Ht a.
  assert (Hs' : 0 < inject_Z s) by (rewrite Zlt_Qlt in Hs; exact Hs).
  pose proof (div_nonneg t s Hs Ht) as Hx.
  assert (Hts : t / inject_Z s * inject_Z s == t) by (field; lra).
  split; [|split].
  - unfold a. change 0%Z with (Qfloor 0). apply Qfloor_resp_le. exact Hx.
  - rewrite inject_Z_mult.
    apply Qle_trans with (t / inject_Z s * inject_Z s); [|rewrite Hts; lra].
    apply Qmult_le_compat_r; [apply Qfloor_le|lra].
  - rewrite inject_Z_mult.
    apply Qle_lt_trans with (t / inject_Z s * inject_Z s); [rewrite Hts; lra|].
    apply Qmult_lt_compat_r; [exact Hs'|apply Qlt_floor].
Qed.

Lemma regular_grid_iloc (data : DataFrame) (s i : Z) :
  regular_grid data s -> (0 <= i < len data)%Z ->
  exists r, iloc data i = Ok r /\ block r = (i * s)%Z.
Proof.
  intros [_ Hg] Hi. destruct (iloc_total data i Hi) as [lr [Hn Hl]].
  exists (snd lr). split; [exact Hl|].
  rewrite (Hg _ _ Hn). rewrite Z2Nat.id by lia. reflexivity.
Qed.

(** X10. On evenly spaced data (row [i] at block [i * s], block interval
    [s > 0], two or more rows) and for a target from block 0 up to, but not
    including, the last block, [interpolate_data] returns the row
    interpolated between the rows at positions [floor (t / s)] and
    [floor (t / s) + 1], whose blocks enclose the target. *)
Theorem interpolate_data_regular (data : DataFrame) (s : Z) (t : Q) :
  (0 < s)%Z ->
  regular_grid data s ->
  (2 <= len data)%Z ->
  0 <= t ->
  t < inject_Z ((len data - 1) * s) ->
  let a := Qfloor (t / inject_Z s) in
  exists before after,
    iloc data a = Ok before
    /\ iloc data (a + 1) = Ok after
    /\ inject_Z (block before) <= t
    /\ t < inject_Z (block after)
    /\ interpolate_data data t = Interpolated (interpolate before after t).
Proof.
  intros Hs Hg Hlen Ht Hlast a.
  destruct (floor_cell t s Hs Ht) as [Ha0 [Hlo Hhi]]. fold a in Ha0, Hlo, Hhi.
  assert (Ha : (a < len data - 1)%Z).
  { assert (inject_Z (a * s) < inject_Z ((len data - 1) * s)) by lra.
    rewrite <- Zlt_Qlt in H. nia. }
  destruct (regular_grid_iloc data s a Hg) as [r0 [Hr0 Hb0]]; [lia|].
  destruct (regular_grid_iloc data s (a + 1) Hg) as [r1 [Hr1 Hb1]]; [lia|].
  exists r0, r1. rewrite Hb0, Hb1.
  do 4 (split; [assumption|]).
  assert (FB : find_bracket data t = Ok (a, a + 1)%Z).
  { unfold find_bracket, int_div. destruct Hg as [Hiv _]. rewrite Hiv.
    destruct (s =? 0)%Z eqn:E; [apply Z.eqb_eq in E; lia|]. cbn [bind].
    rewrite (py_int_floor _ (div_nonneg t s Hs Ht)). fold a.
    rewrite clamp_eq. rewrite (Z.min_l a) by lia. rewrite (Z.max_r 0 a) by lia.
    rewrite Hr0. cbn [bind]. rewrite Hb0.
    assert (C1 : Qltb t (inject_Z (a * s)) = false) by (apply Qltb_ge; exact Hlo).
    rewrite C1.
    assert (Hafter : Z.min (len data - 1) (a + 1) = (a + 1)%Z) by lia.
    destruct (Qltb (inject_Z (a * s)) t) eqn:C2.
    - assert (C3 : (a + 1 <? len data)%Z = true) by (apply Z.ltb_lt; lia).
      rewrite C3, Hr1. cbn [bind]. rewrite Hb1.
      assert (C4 : Qltb t (inject_Z ((a + 1) * s)) = true)
        by (apply Qltb_lt; exact Hhi).
      rewrite C4. cbn [bind]. rewrite Hafter. reflexivity.
    - cbn [bind]. rewrite Hafter. reflexivity. }
  unfold interpolate_data, interpolate_data_try. rewrite FB.
  destruct (len data <=? 1)%Z eqn:C; [apply Z.leb_le in C; lia|].
  cbn [bind fst snd].
  destruct (a <? 0)%Z eqn:C5; [apply Z.ltb_lt in C5; lia|].
  destruct (a + 1 >=? len data)%Z eqn:C6.
  { rewrite Z.geb_leb in C6. apply Z.leb_le in C6. lia. }
  rewrite Hr0, Hr1. reflexivity.
Qed.

Lemma interpolate_data_regular_witness :
  let a := Qfloor (1500 / inject_Z 1000) in
  exists before after,
    iloc grid5 a = Ok before
    /\ iloc grid5 (a + 1) = Ok after
    /\ inject_Z (block before) <= 1500
    /\ 1500 < inject_Z (block after)
    /\ interpolate_data grid5 1500 = Interpolated (interpolate before after 1500).
Proof.
  apply (interpolate_data_regular grid5 1000 1500).
  - reflexivity.
  - apply grid5_regular.
  - vm_compute. discriminate.
  - vm_compute. discriminate.
  - vm_compute. reflexivity.
Defined.

(** ** The marker of the current position *)

(** What [row[name]] returns: the value under a column of the frame, or the
    block or the day of the row. *)
Lemma get_value_Ok (cols : list string) (r : Row) (name : string) (v : Q) :
  get_value cols r name = Ok v ->
  (exists p, index_of name cols = Some p /\ nth_error (vals r) p = Some v)
  \/ (index_of name cols = None /\ name = "block"%string
      /\ v = inject_Z (block r))
  \/ (index_of name cols = None /\ name = "day"%string
      /\ v = inject_Z (day r)).
Proof.
  unfold get_value. destruct (index_of name cols) as [p|].
  - destruct (nth_error (vals r) p) as [x|] eqn:E; [|discriminate].
    intro H. inversion H; subst. left. exists p. auto.
  - destruct (String.eqb name "block") eqn:B.
    + apply String.eqb_eq in B. intro H. inversion H. right. left. auto.
    + destruct (String.eqb name "day") eqn:D; [|discriminate].
      apply String.eqb_eq in D. intro H. inversion H. right. right. auto.
Qed.

Lemma get_value_column (cols : list string) (r : Row) (name : string)
    (p : nat) (v : Q) :
  index_of name cols = Some p -> nth_error (vals r) p = Some v ->
  get_value cols r name = Ok v.
Proof. intros Hp Hv. unfold get_value. rewrite Hp, Hv. reflexivity. Qed.

Lemma find_current_value_try_Ok (data : DataFrame) (t : Q) (col : string) (bv : Z * Q) :
  find_current_value_try data t col = Ok bv ->
  exists r,
    In r (map snd (rows data))
    /\ block r = fst bv
    /\ get_value (columns data) r col = Ok (snd bv).
Proof.
  unfold find_current_value_try. intro H. do 5 inv_bind H.
  inversion H; subst. exists x2. simpl.
  split; [eapply iloc_In; eauto|]. split; [reflexivity|assumption].
Qed.

(** X11. [find_current_value] returns no marker for a name that is neither a
    column of [vals] nor [block] nor [day]. A marker it returns is the block
    of one row stored in the frame together with that row's value under the
    name: its value in the column, or its block for the name [block], or its
    day for the name [day]. *)
Theorem find_current_value_marker (data : DataFrame) (t : Q) (col : string) :
  (index_of col (columns data) = None ->
   col <> "block"%string -> col <> "day"%string ->
   find_current_value data t col = None)
  /\ (forall b v, find_current_value data t col = Some (b, v) ->
        exists r,
          In r (map snd (rows data))
          /\ block r = b
          /\ ((exists p, index_of col (columns data) = Some p
                         /\ nth_error (vals r) p = Some v)
              \/ (col = "block"%string /\ v = inject_Z b)
              \/ (col = "day"%string /\ v = inject_Z (day r)))).
Proof.
  split.
  - intros Hc Hb Hd. unfold find_current_value.
    destruct (find_current_value_try data t col) as [bv|e] eqn:E; [|reflexivity].
    apply find_current_value_try_Ok in E.
    destruct E as [r [_ [_ Hv]]]. apply get_value_Ok in Hv.
    destruct Hv as [[p [Hp _]]|[[_ [Hn _]]|[_ [Hn _]]]]; congruence.
  - intros b v H. unfold find_current_value in H.
    destruct (find_current_value_try data t col) as [bv|e] eqn:E; [|discriminate].
    inversion H; subst. apply find_current_value_try_Ok in E.
    destruct E as [r [Hin [Hb Hv]]]. simpl in Hb, Hv.
    exists r. split; [exact Hin|]. split; [exact Hb|].
    apply get_value_Ok in Hv.
    destruct Hv as [Hv|[[_ [Hn Hv]]|[_ [Hn Hv]]]]; [left; exact Hv| |].
    + right. left. split; [exact Hn|]. rewrite <- Hb. exact Hv.
    + right. right. split; assumption.
Qed.

Lemma find_current_value_marker_witness :
  find_current_value grid5 2000 "token_price" = None
  /\ exists r,
       In r (map snd (rows grid5))
       /\ block r = 2000%Z
       /\ inject_Z (day r) = 0.
Proof.
  split.
  - destruct (find_current_value_marker grid5 2000 "token_price") as [H _].
    apply H; [vm_compute; reflexivity|discriminate|discriminate].
  - destruct (find_current_value_marker grid5 2000 "day") as [_ H].
    destruct (H 2000%Z 0) as [r [Hin [Hb Hv]]]; [vm_compute; reflexivity|].
    exists r. split; [exact Hin|]. split; [exact Hb|].
    destruct Hv as [[p [Hp _]]|[[Hn _]|[_ Hv]]].
    + vm_compute in Hp. discriminate.
    + discriminate.
    + symmetry. exact Hv.
Defined.

(** X12. On a frame with rows, a dense index, a non-zero block interval and
    a value in every column of every row, [find_current_value] returns a
    marker for every column of the frame. Its row is either within twice
    the block interval of the target or the row an exhaustive scan for the
    nearest block returns. *)
Theorem find_current_value_found (data : DataFrame) (t : Q) (col : string) (p : nat) :
  rows data <> [] ->
  dense (rows data) ->
  attrs_block_interval data <> 0%Z ->
  full_width data ->
  index_of col (columns data) = Some p ->
  exists r v,
    In r (map snd (rows data))
    /\ nth_error (vals r) p = Some v
    /\ find_current_value data t col = Some (block r, v)
    /\ (dist t r <= inject_Z (attrs_block_interval data * 2)
        \/ exhaustive_scan (map snd (rows data)) t = FrameRow r).
Proof.
  intros Hne Hd Hi Hw Hp.
  assert (Hlen : (0 < len data)%Z).
  { unfold len. destruct (rows data); [congruence|simpl; lia]. }
  assert (Hval : forall lr, In lr (rows data) ->
            exists v, nth_error (vals (snd lr)) p = Some v).
  { intros lr Hin. destruct (nth_error (vals (snd lr)) p) as [v|] eqn:E; [eauto|].
    apply nth_error_None in E. rewrite (Hw lr Hin) in E.
    apply index_of_Some in Hp. lia. }
  assert (Hfinish : forall lr, In lr (rows data) ->
            forall v, nth_error (vals (snd lr)) p = Some v ->
            (current_value <- get_value (columns data) (snd lr) col ;;
             Ok (block (snd lr), current_value)) = Ok (block (snd lr), v)).
  { intros lr Hin v Hv. rewrite (get_value_column _ _ _ _ _ Hp Hv).
    reflexivity. }
  unfold find_current_value, find_current_value_try.
  apply Z.eqb_neq in Hi. rewrite Hi. cbn [bind].
  set (c := Z.min (len data - 1) (Z.max 0 _)).
  assert (Hc : (0 <= c < len data)%Z) by (unfold c; lia).
  destruct (iloc_total data c Hc) as [lr1 [Hn1 Hl1]].
  rewrite Hl1. cbn [bind].
  destruct (Qltb (inject_Z (attrs_block_interval data * 2)) (dist t (snd lr1))) eqn:F.
  - destruct (idxmin_scan t (rows data) Hne) as [m [Hin [Hm Hs]]].
    rewrite Hm. cbn [bind].
    destruct (In_nth_error _ _ Hin) as [j Hj].
    rewrite (dense_label _ _ _ Hd Hj), (iloc_nth data j m Hj). cbn [bind].
    destruct (Hval m Hin) as [v Hv].
    rewrite (Hfinish m Hin v Hv).
    exists (snd m), v. split; [apply in_map; exact Hin|].
    split; [exact Hv|]. split; [reflexivity|]. right. exact Hs.
  - cbn [bind]. rewrite Hl1. cbn [bind].
    assert (Hin : In lr1 (rows data)) by (eapply nth_error_In; eauto).
    destruct (Hval lr1 Hin) as [v Hv].
    rewrite (Hfinish lr1 Hin v Hv).
    exists (snd lr1), v. split; [apply in_map; exact Hin|].
    split; [exact Hv|]. split; [reflexivity|]. left.
    apply Qltb_ge. exact F.
Qed.

Lemma find_current_value_found_witness :
  exists r v,
    In r (map snd (rows grid5))
    /\ nth_error (vals r) 0 = Some v
    /\ find_current_value grid5 2000 flow_in = Some (block r, v)
    /\ (dist 2000 r <= inject_Z (attrs_block_interval grid5 * 2)
        \/ exhaustive_scan (map snd (rows grid5)) 2000 = FrameRow r).
Proof.
  apply (find_current_value_found grid5 2000 flow_in 0).
  - vm_compute. discriminate.
  - vm_compute. reflexivity.
  - vm_compute. discriminate.
  - apply grid5_full_width.
  - vm_compute. reflexivity.
Defined.

(** ** The rows of a chart window *)

Lemma subseq_refl {A : Type} (l : list A) : subseq l l.
Proof. induction l; constructor; assumption. Qed.

Lemma subseq_nil_l {A : Type} (l : list A) : subseq [] l.
Proof. induction l; constructor; assumption. Qed.

Lemma subseq_trans {A : Type} (l1 l2 l3 : list A) :
  subseq l1 l2 -> subseq l2 l3 -> subseq l1 l3.
Proof.
  intros H12 H23. revert l1 H12.
  induction H23 as [|x l2 l3 H IH|x l2 l3 H IH]; intros l1 H12.
  - exact H12.
  - constructor. apply IH. exact H12.
  - inversion H12; subst.
    + constructor. apply IH. assumption.
    + apply subseq_take. apply IH. assumption.
Qed.

Lemma subseq_filter {A : Type} (f : A -> bool) (l : list A) :
  subseq (filter f l) l.
Proof.
  induction l as [|x l IH]; simpl; [constructor|].
  destruct (f x); constructor; exact IH.
Qed.

Lemma subseq_firstn {A : Type} (n : nat) (l : list A) : subseq (firstn n l) l.
Proof.
  revert n. induction l as [|x l IH]; intro n.
  - rewrite firstn_nil. constructor.
  - destruct n; simpl; [apply subseq_nil_l|]. apply subseq_take, IH.
Qed.

Lemma subseq_skipn {A : Type} (n : nat) (l : list A) : subseq (skipn n l) l.
Proof.
  revert n. induction l as [|x l IH]; intro n.
  - rewrite skipn_nil. constructor.
  - destruct n; simpl; [apply subseq_refl|]. apply subseq_skip, IH.
Qed.

Lemma subseq_every_nth {A : Type} (n k : nat) (l : list A) :
  subseq (every_nth n k l) l.
Proof.
  revert k. induction l as [|x l IH]; intro k; simpl; [constructor|].
  destruct k; constructor; apply IH.
Qed.

Lemma subseq_downsample (w : list (Z * Row)) : subseq (downsample w) w.
Proof.
  unfold downsample, iloc_step.
  destruct (_ <? _)%Z; [apply subseq_every_nth|apply subseq_refl].
Qed.

Lemma subseq_In {A : Type} (l1 l2 : list A) (x : A) :
  subseq l1 l2 -> In x l1 -> In x l2.
Proof.
  induction 1 as [|y l1 l2 H IH|y l1 l2 H IH]; simpl; intro Hin; auto.
  destruct Hin; auto.
Qed.

Lemma subseq_NoDup {A : Type} (l1 l2 : list A) :
  subseq l1 l2 -> NoDup l2 -> NoDup l1.
Proof.
  induction 1 as [|y l1 l2 H IH|y l1 l2 H IH]; intro Hn; auto.
  - inversion Hn; subst. auto.
  - inversion Hn as [|z zs Hnotin Hn']; subst. constructor; [|auto].
    intro Hin. apply Hnotin. eapply subseq_In; eauto.
Qed.

(** X13. The window [optimize_chart_data] returns is the frame's list of
    rows with some rows left out: every row of the window is a row of the
    frame, in the frame's order, and no row is repeated. *)
Theorem window_is_subsequence (data : DataFrame) (t : Q) (mb : Z) (col : string)
    (c : ChartData) :
  optimize_chart_data data t mb col = Ok c ->
  subseq (window_data c) (rows data)
  /\ (NoDup (rows data) -> NoDup (window_data c)).
Proof.
  intro H. apply optimize_chart_data_Ok in H. destruct H as [w [Hw [Hd _]]].
  assert (S : subseq (window_data c) (rows data)).
  { rewrite Hd. eapply subseq_trans; [apply subseq_downsample|].
    unfold chart_window in Hw. do 2 inv_bind Hw. inversion Hw; subst; simpl.
    eapply subseq_trans; [apply subseq_filter|].
    unfold iloc_slice.
    eapply subseq_trans; [apply subseq_firstn|apply subseq_skipn]. }
  split; [exact S|]. apply subseq_NoDup. exact S.
Qed.

Lemma window_is_subsequence_witness :
  subseq (window_data grid5_chart) (rows grid5)
  /\ (NoDup (rows grid5) -> NoDup (window_data grid5_chart)).
Proof.
  apply (window_is_subsequence grid5 2000 4000 flow_in grid5_chart).
  vm_compute. reflexivity.
Defined.

(** X14. [optimize_chart_data] returns fewer than twice
    [MAX_DATA_POINTS_PER_CHART] rows, and returns the filtered window
    unchanged when that has at most [MAX_DATA_POINTS_PER_CHART] rows. *)
Theorem window_size_bound (data : DataFrame) (t : Q) (mb : Z) (col : string)
    (c : ChartData) :
  optimize_chart_data data t mb col = Ok c ->
  (Z.of_nat (length (window_data c)) < 2 * MAX_DATA_POINTS_PER_CHART)%Z
  /\ forall w, chart_window data t mb = Ok w ->
       (Z.of_nat (length (snd w)) <= MAX_DATA_POINTS_PER_CHART)%Z ->
       window_data c = snd w.
Proof.
  intro H. apply optimize_chart_data_Ok in H. destruct H as [w [Hw [Hd _]]].
  rewrite Hd. split; [apply downsample_length|].
  intros w' Hw' Hsmall. rewrite Hw in Hw'. inversion Hw'; subst.
  apply downsample_small. exact Hsmall.
Qed.

Lemma window_size_bound_witness :
  (Z.of_nat (length (window_data grid5_chart)) < 2 * MAX_DATA_POINTS_PER_CHART)%Z
  /\ window_data grid5_chart = snd grid5_window.
Proof.
  destruct (window_size_bound grid5 2000 4000 flow_in grid5_chart) as [A B].
  - vm_compute. reflexivity.
  - split; [exact A|]. apply B.
    + vm_compute. reflexivity.
    + vm_compute. discriminate.
Defined.

(** X15. [optimize_chart_data] raises exactly when the block interval is 0.
    Otherwise it returns chart data for any frame, target and column, with a
    lower bound that is not negative and an upper bound that does not exceed
    [max_block]. *)
Theorem optimize_chart_data_succeeds (data : DataFrame) (t : Q) (mb : Z)
    (col : string) :
  ((exists c, optimize_chart_data data t mb col = Ok c)
   <-> attrs_block_interval data <> 0%Z)
  /\ forall c, optimize_chart_data data t mb col = Ok c ->
       0 <= start_block c /\ end_block c <= inject_Z mb.
Proof.
  split; [split|].
  - intros [c H] Hz. unfold optimize_chart_data, chart_window, int_div in H.
    rewrite Hz in H. discriminate.
  - intro Hi. apply Z.eqb_neq in Hi.
    unfold optimize_chart_data, chart_window, int_div. rewrite Hi.
    eexists. reflexivity.
  - intros c H. apply optimize_chart_data_Ok in H.
    destruct H as [w [Hw [_ [Hs He]]]].
    apply chart_window_Ok in Hw. destruct Hw as [Hs' [He' _]].
    rewrite Hs, He, Hs', He'. split.
    + apply py_max_bounds.
    + apply py_min_bounds.
Qed.

Lemma optimize_chart_data_succeeds_witness :
  exists c, optimize_chart_data grid5 2000 4000 flow_in = Ok c
            /\ 0 <= start_block c /\ end_block c <= inject_Z 4000.
Proof.
  destruct (optimize_chart_data_succeeds grid5 2000 4000 flow_in) as [[_ H1] H2].
  destruct H1 as [c Hc]; [vm_compute; discriminate|].
  exists c. split; [exact Hc|]. apply H2. exact Hc.
Defined.

Lemma In_iloc_slice_nth {A : Type} (a b : Z) (l : list A) (i : nat) (x : A) :
  nth_error l i = Some x ->
  (0 <= a <= Z.of_nat i)%Z -> (Z.of_nat i < b)%Z ->
  In x (iloc_slice a b l).
Proof.
  intros Hn Ha Hb.
  assert (Hi : (i < length l)%nat) by (apply nth_error_Some; congruence).
  unfold iloc_slice, slice_bound.
  destruct (a <? 0)%Z eqn:Ca; [apply Z.ltb_lt in Ca; lia|].
  destruct (b <? 0)%Z eqn:Cb; [apply Z.ltb_lt in Cb; lia|].
  set (n := Z.of_nat (length l)).
  apply (nth_error_In _ (i - Z.to_nat (Z.min a n))).
  rewrite nth_error_firstn.
  destruct (i - Z.to_nat (Z.min a n) <? Z.to_nat (Z.min b n - Z.min a n))%nat eqn:C.
  - rewrite nth_error_skipn. rewrite <- Hn. f_equal. unfold n. lia.
  - apply Nat.ltb_ge in C. unfold n in C. lia.
Qed.

(** X16. On evenly spaced data (row [i] at block [i * s], block interval
    [s > 0]) the positional pre-slice loses nothing: the filtered window
    holds every row of the frame whose block lies between the window's
    bounds. *)
Theorem chart_window_regular_complete (data : DataFrame) (s : Z) (t : Q) (mb : Z)
    (w : Q * Q * list (Z * Row)) (lr : Z * Row) :
  (0 < s)%Z ->
  regular_grid data s ->
  chart_window data t mb = Ok w ->
  In lr (rows data) ->
  fst (fst w) <= inject_Z (block (snd lr)) ->
  inject_Z (block (snd lr)) <= snd (fst w) ->
  In lr (snd w).
Proof.
  intros Hs Hg Hw Hin Hlo Hhi.
  assert (Hs' : 0 < inject_Z s) by (rewrite Zlt_Qlt in Hs; exact Hs).
  destruct (In_nth_error _ _ Hin) as [i Hi].
  assert (Hb : block (snd lr) = (Z.of_nat i * s)%Z) by (apply Hg; exact Hi).
  assert (Hilen : (Z.of_nat i < len data)%Z).
  { assert (i < length (rows data))%nat by (apply nth_error_Some; congruence).
    unfold len. lia. }
  unfold chart_window, int_div in Hw. destruct Hg as [Hiv _]. rewrite Hiv in Hw.
  destruct (s =? 0)%Z eqn:E; [apply Z.eqb_eq in E; lia|]. cbn [bind] in Hw.
  inversion Hw; subst w; clear Hw. cbn [fst snd] in *.
  set (lo := py_max 0 (t - inject_Z (CHART_WINDOW_SIZE / 2))) in *.
  set (hi := py_min (inject_Z mb) (t + inject_Z (CHART_WINDOW_SIZE / 2))) in *.
  assert (Hlo0 : 0 <= lo) by apply py_max_bounds.
  assert (Hblock0 : 0 <= inject_Z (block (snd lr))).
  { rewrite Hb. rewrite <- (Zle_Qle 0). nia. }
  assert (Hhi0 : 0 <= hi) by lra.
  rewrite Hb, inject_Z_mult in Hlo, Hhi.
  apply filter_In. split.
  - apply (In_iloc_slice_nth _ _ _ i); [exact Hi| |].
    + rewrite (py_int_floor _ (div_nonneg lo s Hs Hlo0)).
      assert (Qfloor (lo / inject_Z s) <= Z.of_nat i)%Z.
      { rewrite <- (Qfloor_Z (Z.of_nat i)). apply Qfloor_resp_le.
        apply Qle_shift_div_r; assumption. }
      lia.
    + rewrite (py_int_floor _ (div_nonneg hi s Hs Hhi0)).
      assert (Z.of_nat i <= Qfloor (hi / inject_Z s))%Z.
      { rewrite <- (Qfloor_Z (Z.of_nat i)) at 1. apply Qfloor_resp_le.
        apply Qle_shift_div_l; assumption. }
      lia.
  - rewrite Hb, inject_Z_mult. apply andb_true_iff.
    split; apply Qle_bool_iff; assumption.
Qed.

Lemma chart_window_regular_complete_witness : In grid5_row2 (snd grid5_window).
Proof.
  apply (chart_window_regular_complete grid5 1000 2000 4000 grid5_window grid5_row2).
  - reflexivity.
  - apply grid5_regular.
  - vm_compute. reflexivity.
  - vm_compute. right. right. left. reflexivity.
  - vm_compute. discriminate.
  - vm_compute. discriminate.
Defined.

(** ** The animation callbacks *)

(** X17. For a positive speed, [control_animation] returns a timer that is
    disabled exactly when the animation is not playing, with an interval of
    [max(100, 200 / speed)] milliseconds, so never below 100 and at most 400
    for the slider's speeds from 0.5 up. Play and Pause only set the playing
    flag, the slider only sets the speed, and Reset stops the animation,
    moves it to block 0 and deletes the stuck-detection attribute. *)
Theorem control_animation_timer (trigger : Trigger) (slider : Q)
    (st : AnimationState) (attr : option Q) :
  0 < speed st -> 0 < slider -> trigger <> NotTriggered ->
  exists st' iv attr',
    control_animation trigger slider st attr = (Ok (st', negb (playing st'), iv), attr')
    /\ iv == Qmax 100 (200 / speed st')
    /\ 100 <= iv
    /\ ((1 # 2) <= speed st' -> iv <= 400)
    /\ match trigger with
       | PlayButton =>
           playing st' = true /\ position st' = position st
           /\ speed st' = speed st /\ attr' = attr
       | PauseButton =>
           playing st' = false /\ position st' = position st
           /\ speed st' = speed st /\ attr' = attr
       | ResetButton =>
           playing st' = false /\ position st' = 0
           /\ speed st' = speed st /\ attr' = None
       | _ =>
           playing st' = playing st /\ position st' = position st
           /\ speed st' = slider /\ attr' = attr
       end.
Proof.
  intros Hs Hsl Ht.
  assert (Hbound : forall v : Q, 0 < v ->
            let iv := py_max 100 (inject_Z 1000 / inject_Z FPS / v) in
            iv == Qmax 100 (200 / v)
            /\ 100 <= iv
            /\ ((1 # 2) <= v -> iv <= 400)).
  { intros v Hv iv.
    assert (He : inject_Z 1000 / inject_Z FPS / v == 200 / v).
    { unfold FPS. field. lra. }
    assert (H400 : (1 # 2) <= v -> 200 / v <= 400).
    { intro Hhalf. apply Qle_shift_div_r; lra. }
    unfold iv, py_max.
    destruct (Qltb 100 (inject_Z 1000 / inject_Z FPS / v)) eqn:C.
    - apply Qltb_lt in C. rewrite He in *.
      split; [symmetry; apply Q.max_r; lra|]. split; [lra|exact H400].
    - apply Qltb_ge in C. rewrite He in C.
      split; [symmetry; apply Q.max_l; lra|]. split; lra. }
  assert (Hnz : forall v : Q, 0 < v -> Qeq_bool v 0 = false).
  { intros v Hv. destruct (Qeq_bool v 0) eqn:E; [|reflexivity].
    apply Qeq_bool_iff in E. lra. }
  destruct trigger; [congruence| | | |]; unfold control_animation; cbn [fst snd speed];
    rewrite ?(Hnz _ Hs), ?(Hnz _ Hsl);
    do 3 eexists; (split; [reflexivity|]); cbn [speed playing position];
    (split; [apply Hbound; assumption|]);
    (split; [apply Hbound; assumption|]);
    (split; [apply Hbound; assumption|]); repeat split.
Qed.

Lemma control_animation_timer_witness :
  let st := mkState false 700 2 in
  exists st' iv attr',
    control_animation PlayButton 1 st (Some 700) = (Ok (st', negb (playing st'), iv), attr')
    /\ iv == Qmax 100 (200 / speed st')
    /\ 100 <= iv
    /\ ((1 # 2) <= speed st' -> iv <= 400)
    /\ (playing st' = true /\ position st' = position st
        /\ speed st' = speed st /\ attr' = Some 700).
Proof.
  apply (control_animation_timer PlayButton 1 (mkState false 700 2) (Some 700)).
  - reflexivity.
  - reflexivity.
  - discriminate.
Defined.

(** X18. One tick of [update_animation] on a playing or paused animation at
    a position that is not negative, with speed, blocks per second and block
    interval not negative. Either nothing is updated and the stuck-detection
    attribute is kept; or the animation completes: it stops, returns to
    block 0 with no new figures and the attribute is deleted; or it advances
    to a position below [max_block], by at most [MAX_BLOCKS_PER_FRAME] plus
    the block interval, never backwards, and the text shows the day and
    block of the new position. *)
Theorem update_animation_step (app : App) (now : Q) (st : AnimationState)
    (g : Globals) :
  0 <= position st -> 0 <= speed st ->
  0 <= blocks_per_second app -> (0 <= app_block_interval app)%Z ->
  match update_animation app now st g with
  | (PreventUpdate, g') => last_block g' = last_block g
  | (Outputs st' SimulationComplete figures, g') =>
      playing st' = false /\ position st' = 0 /\ speed st' = speed st
      /\ figures = false /\ last_block g' = None
  | (Outputs st' (DayAndBlock d b) figures, g') =>
      playing st' = true /\ speed st' = speed st /\ figures = true
      /\ position st <= position st'
      /\ position st' < inject_Z (max_block app)
      /\ position st' - position st
         <= inject_Z (MAX_BLOCKS_PER_FRAME + app_block_interval app)
      /\ d = Qfloor (position st' / inject_Z BLOCKS_PER_DAY)
      /\ b = Qfloor (position st')
      /\ last_block g' = Some (position st')
  end.
Proof.
  intros Hp Hs Hb Hi. unfold update_animation.
  destruct (Qltb (now - last_animation_update g) minimum_update_interval);
    [reflexivity|].
  destruct (playing st) eqn:P; cbn [negb]; [|reflexivity].
  cbn [last_block].
  set (adv := py_min (inject_Z MAX_BLOCKS_PER_FRAME)
                     (blocks_per_second app * (1 / inject_Z FPS) * speed st)).
  assert (Hadv : 0 <= adv /\ adv <= inject_Z MAX_BLOCKS_PER_FRAME).
  { split; [|apply py_min_bounds].
    unfold adv, py_min. destruct (Qltb _ _); [|discriminate].
    apply Qmult_le_0_compat; [|exact Hs].
    apply Qmult_le_0_compat; [exact Hb|]. discriminate. }
  assert (Hi' : 0 <= inject_Z (app_block_interval app))
    by (rewrite <- (Zle_Qle 0); exact Hi).
  set (nb := match last_block g with
             | Some lb =>
                 if Qeq_bool lb (position st + adv)
                 then position st + adv + inject_Z (app_block_interval app)
                 else position st + adv
             | None => position st + adv
             end).
  assert (Hnb : position st <= nb
                /\ nb - position st
                   <= inject_Z (MAX_BLOCKS_PER_FRAME + app_block_interval app)).
  { rewrite inject_Z_plus. unfold nb.
    destruct (last_block g) as [lb|]; [destruct (Qeq_bool lb _)|]; split; lra. }
  destruct (Qle_bool (inject_Z (max_block app)) nb) eqn:C.
  - repeat split.
  - cbn [playing speed position]. repeat split; try tauto.
    + apply Qltb_lt. unfold Qltb. rewrite C. reflexivity.
    + apply py_int_floor. lra.
Qed.

Lemma update_animation_step_witness :
  match update_animation grid5_app 10 playing_at_0 first_tick with
  | (PreventUpdate, g') => last_block g' = last_block first_tick
  | (Outputs st' SimulationComplete figures, g') =>
      playing st' = false /\ position st' = 0 /\ speed st' = speed playing_at_0
      /\ figures = false /\ last_block g' = None
  | (Outputs st' (DayAndBlock d b) figures, g') =>
      playing st' = true /\ speed st' = speed playing_at_0 /\ figures = true
      /\ position playing_at_0 <= position st'
      /\ position st' < inject_Z (max_block grid5_app)
      /\ position st' - position playing_at_0
         <= inject_Z (MAX_BLOCKS_PER_FRAME + app_block_interval grid5_app)
      /\ d = Qfloor (position st' / inject_Z BLOCKS_PER_DAY)
      /\ b = Qfloor (position st')
      /\ last_block g' = Some (position st')
  end.
Proof.
  apply (update_animation_step grid5_app 10 playing_at_0 first_tick).
  - vm_compute. discriminate.
  - vm_compute. discriminate.
  - vm_compute. discriminate.
  - vm_compute. discriminate.
Defined.

Lemma seq_sorted (a n : nat) : StronglySorted lt (seq a n).
Proof.
  revert a. induction n as [|n IH]; intro a; simpl; constructor; [apply IH|].
  apply Forall_forall. intros x Hx. apply in_seq in Hx. lia.
Qed.

Lemma filter_sorted {A : Type} (R : A -> A -> Prop) (f : A -> bool) (l : list A) :
  StronglySorted R l -> StronglySorted R (filter f l).
Proof.
  induction 1 as [|x l Hs IH Hall]; simpl; [constructor|].
  destruct (f x); [|exact IH]. constructor; [exact IH|].
  rewrite Forall_forall in *. intros y Hy. apply filter_In in Hy.
  apply Hall. tauto.
Qed.

Lemma sorted_nth {A : Type} (R : A -> A -> Prop) (l : list A) (i j : nat) (x y : A) :
  StronglySorted R l -> (i < j)%nat ->
  nth_error l i = Some x -> nth_error l j = Some y -> R x y.
Proof.
  intro Hs. revert i j. induction Hs as [|a l Hs IH Hall]; intros i j Hij Hi Hj.
  - destruct i; discriminate.
  - destruct j as [|j]; [lia|]. destruct i as [|i]; simpl in *.
    + inversion Hi; subst. rewrite Forall_forall in Hall.
      apply Hall. eapply nth_error_In; eauto.
    + apply (IH i j); [lia|assumption|assumption].
Qed.

(** X19. [record_video] sets out to record 4500 frames and skips those
    that fail to render: it records at most 4500 frames, and all 4500 when
    every frame renders. For a positive [max_block] the blocks of the
    recorded frames strictly increase, are not negative, stay below
    [max_block] and do not exceed block 674850 (4499 steps of
    [MAX_BLOCKS_PER_FRAME]). *)
Theorem record_video_blocks_range (rendered : nat -> bool) (mb : Z) :
  (0 < mb)%Z ->
  (length (record_video_blocks rendered mb) <= 4500)%nat
  /\ ((forall i, (i < 4500)%nat -> rendered i = true) ->
      length (record_video_blocks rendered mb) = 4500%nat)
  /\ (forall t, In t (record_video_blocks rendered mb) ->
        0 <= t /\ t < inject_Z mb /\ t <= 674850)
  /\ forall i j ti tj,
       (i < j)%nat ->
       nth_error (record_video_blocks rendered mb) i = Some ti ->
       nth_error (record_video_blocks rendered mb) j = Some tj ->
       ti < tj.
Proof.
  intro Hmb. unfold record_video_blocks.
  change frames_to_record with 4500%Z.
  change (inject_Z MAX_BLOCKS_PER_FRAME) with 150.
  change (inject_Z 4500) with 4500.
  change (Z.to_nat 4500) with 4500%nat.
  set (incr := py_min 150 (inject_Z mb / 4500)).
  assert (Hmb' : 0 < inject_Z mb)
    by (change 0 with (inject_Z 0); rewrite <- Zlt_Qlt; exact Hmb).
  assert (Hq : 0 < inject_Z mb / 4500).
  { apply Qlt_shift_div_l; lra. }
  assert (Hmbq : inject_Z mb == 4500 * (inject_Z mb / 4500))
    by (field; discriminate).
  assert (Hincr : 0 < incr /\ incr <= 150 /\ incr <= inject_Z mb / 4500).
  { split; [|split]; try apply py_min_bounds.
    unfold incr, py_min. destruct (Qltb _ _); [exact Hq|reflexivity]. }
  destruct Hincr as [I0 [I1 I2]].
  split.
  { rewrite length_map. 
    pose proof (filter_length_le rendered (seq 0 4500)) as L.
    rewrite length_seq in L. exact L. }
  split.
  { intro Hall. rewrite length_map.
    rewrite (forallb_filter_id rendered (seq 0 4500)).
    - apply length_seq.
    - apply forallb_forall. intros i Hi. apply in_seq in Hi. apply Hall. lia. }
  split.
  - intros t Ht. apply in_map_iff in Ht. destruct Ht as [i [<- Hi]].
    apply filter_In in Hi. destruct Hi as [Hi _].
    apply in_seq in Hi.
    assert (Hi0 : 0 <= inject_Z (Z.of_nat i)) by (rewrite <- (Zle_Qle 0); lia).
    assert (Hi1 : inject_Z (Z.of_nat i) <= 4499).
    { change 4499 with (inject_Z 4499). rewrite <- Zle_Qle. lia. }
    assert (H1 : 0 <= inject_Z (Z.of_nat i) * incr)
      by (apply Qmult_le_0_compat; lra).
    assert (H2 : inject_Z (Z.of_nat i) * incr <= 4499 * incr)
      by (apply Qmult_le_compat_r; lra).
    split; [exact H1|]. split; lra.
  - intros i j ti tj Hij Hi Hj.
    rewrite nth_error_map in Hi, Hj.
    destruct (nth_error (filter rendered (seq 0 4500)) i) as [i'|] eqn:Ei;
      [|discriminate].
    destruct (nth_error (filter rendered (seq 0 4500)) j) as [j'|] eqn:Ej;
      [|discriminate].
    simpl in Hi, Hj. inversion Hi; inversion Hj; subst.
    assert (Hlt : (i' < j')%nat).
    { apply (sorted_nth lt (filter rendered (seq 0 4500)) i j); auto.
      apply filter_sorted, seq_sorted. }
    apply Qmult_lt_compat_r; [exact I0|].
    rewrite <- Zlt_Qlt. lia.
Qed.

Lemma record_video_blocks_range_witness :
  (length (record_video_blocks Nat.even 4000) <= 4500)%nat
  /\ length (record_video_blocks (fun _ => true) 4000) = 4500%nat
  /\ forall t, In t (record_video_blocks Nat.even 4000) ->
       0 <= t /\ t < inject_Z 4000 /\ t <= 674850.
Proof.
  destruct (record_video_blocks_range Nat.even 4000) as [A [_ [C _]]];
    [reflexivity|].
  destruct (record_video_blocks_range (fun _ => true) 4000) as [_ [B _]];
    [reflexivity|].
  split; [exact A|]. split; [apply B; reflexivity|exact C].
Defined.

(** ** The values main.py sets at start-up *)

Lemma column_max_spec (b : Z) (bs : list Z) :
  In (column_max b bs) (b :: bs)
  /\ forall x, In x (b :: bs) -> (x <= column_max b bs)%Z.
Proof.
  unfold column_max. revert b. induction bs as [|c bs IH]; intro b; simpl.
  - split; [auto|]. intros x [<-|[]]. lia.
  - destruct (IH (Z.max b c)) as [Hin Hall]. split.
    + destruct Hin as [Hm|Hm]; [|auto].
      rewrite <- Hm. destruct (Z.max_spec b c) as [[_ ->]|[_ ->]]; auto.
    + intros x Hx. assert (Hmax : (Z.max b c <= fold_left Z.max bs (Z.max b c))%Z)
        by (apply Hall; left; reflexivity).
      destruct Hx as [<-|[<-|Hx]]; [lia|lia|]. apply Hall. right. exact Hx.
Qed.

Lemma main_data_interval_short (file : option CsvTable) :
  (len (main_data file) <= 1)%Z -> attrs_block_interval (main_data file) = 1000%Z.
Proof.
  unfold main_data.
  set (d0 := if (0 <? len (load_data file))%Z then load_data file
             else main_empty_frame).
  destruct (preprocess_interval d0) as [_ Hfew].
  intro Hle. unfold attrs_block_interval. rewrite (Hfew Hle).
  unfold d0. destruct (0 <? len (load_data file))%Z eqn:C0; [|reflexivity].
  assert (Hone : length (rows (load_data file)) = 1%nat).
  { pose proof (preprocess_rows d0) as Hr. unfold len in Hle.
    rewrite Hr in Hle. unfold d0 in Hle. rewrite C0 in Hle.
    apply Z.ltb_lt in C0. unfold reset_index in Hle.
    rewrite range_index_length, length_map, sort_values_length in Hle.
    unfold len in C0. lia. }
  rewrite (load_data_one_row_interval file Hone). reflexivity.
Qed.

(** X20. The values main.py computes at start-up agree with the frame it
    builds: the global block interval is the interval attached to the frame;
    for a frame without rows [max_block] is 1; otherwise [max_block] is the
    block of the last row, no block of the frame exceeds it, and the
    animation runs at [max_block / ANIMATION_DURATION] blocks per second. *)
Theorem main_app_consistent (file : option CsvTable) :
  let app := main_app file in
  app_data app = main_data file
  /\ app_block_interval app = attrs_block_interval (app_data app)
  /\ (rows (app_data app) = [] ->
      max_block app = 1%Z /\ blocks_per_second app = 1)
  /\ (rows (app_data app) <> [] ->
      (exists last, iloc (app_data app) (-1) = Ok last
                    /\ block last = max_block app)
      /\ (forall b, In b (blocks_of (rows (app_data app))) ->
                    (b <= max_block app)%Z)
      /\ blocks_per_second app
         = inject_Z (max_block app) / inject_Z ANIMATION_DURATION).
Proof.
  intro app.
  assert (Hdata : app_data app = main_data file).
  { unfold app, main_app. destruct (blocks_of (rows (load_data file))); reflexivity. }
  assert (Hperm : Permutation (blocks_of (rows (main_data file)))
                              (blocks_of (rows (load_data file)))).
  { rewrite !blocks_of_snd. apply Permutation_map, main_data_rows_perm. }
  rewrite Hdata. split; [reflexivity|]. split; [|split].
  - assert (Hi : app_block_interval app
                 = if (1 <? len (main_data file))%Z then
                     if (0 <? Z.of_nat (length (diff (blocks_of (rows (main_data file))))))%Z
                     then match mode_first (diff (blocks_of (rows (main_data file)))) with
                          | Ok m => m
                          | Raise _ => 1000%Z
                          end
                     else 1000%Z
                   else 1000%Z).
    { unfold app, main_app. destruct (blocks_of (rows (load_data file))); reflexivity. }
    rewrite Hi. destruct (1 <? len (main_data file))%Z eqn:C1.
    + apply Z.ltb_lt in C1.
      destruct (preprocess_interval
                  (if (0 <? len (load_data file))%Z then load_data file
                   else main_empty_frame)) as [Hmany _].
      fold (main_data file) in Hmany.
      destruct Hmany as [m [Hm Hb]]; [lia|].
      unfold attrs_block_interval. rewrite Hb, Hm.
      destruct (0 <? _)%Z eqn:C2; [reflexivity|].
      apply Z.ltb_ge in C2. unfold mode_first in Hm.
      destruct (diff (blocks_of (rows (main_data file))));
        [discriminate|simpl in C2; lia].
    + apply Z.ltb_ge in C1. symmetry. apply main_data_interval_short. exact C1.
  - intro Hr. rewrite Hr in Hperm. apply Permutation_nil in Hperm.
    unfold app, main_app. rewrite Hperm. split; reflexivity.
  - intro Hne.
    destruct (blocks_of (rows (load_data file))) as [|b bs] eqn:B.
    { apply Permutation_sym, Permutation_nil in Hperm.
      unfold blocks_of in Hperm. apply map_eq_nil in Hperm. contradiction. }
    assert (Hm : max_block app = column_max b bs
                 /\ blocks_per_second app
                    = inject_Z (column_max b bs) / inject_Z ANIMATION_DURATION).
    { unfold app, main_app. rewrite B. split; reflexivity. }
    destruct Hm as [Hm Hbps]. rewrite Hbps, Hm.
    destruct (column_max_spec b bs) as [Hin Hall].
    assert (Hall' : forall x, In x (blocks_of (rows (main_data file))) ->
                              (x <= column_max b bs)%Z).
    { intros x Hx. apply Hall. eapply Permutation_in; eauto. }
    split; [|split; [exact Hall'|reflexivity]].
    assert (Hlen : (0 < len (main_data file))%Z).
    { unfold len. destruct (rows (main_data file)); [congruence|simpl; lia]. }
    rewrite iloc_last by exact Hlen.
    destruct (iloc_total (main_data file) (len (main_data file) - 1))
      as [lr [Hn Hl]]; [lia|].
    exists (snd lr). split; [exact Hl|].
    apply Z.le_antisymm.
    + apply Hall'. unfold blocks_of. apply in_map_iff. exists lr.
      split; [reflexivity|]. eapply nth_error_In; eauto.
    + apply Permutation_sym in Hperm. eapply Permutation_in in Hin; [|exact Hperm].
      unfold blocks_of in Hin. apply in_map_iff in Hin.
      destruct Hin as [x [<- Hx]].
      destruct (In_nth_error _ _ Hx) as [i Hi].
      apply (ascending_nth (rows (main_data file)) i
               (Z.to_nat (len (main_data file) - 1))); auto.
      * apply preprocess_ascending.
      * assert (i < length (rows (main_data file)))%nat
          by (apply nth_error_Some; congruence).
        unfold len. lia.
Qed.

Lemma main_app_consistent_witness :
  (max_block (main_app None) = 1%Z /\ blocks_per_second (main_app None) = 1)
  /\ (exists last, iloc (app_data grid5_app) (-1) = Ok last
                   /\ block last = max_block grid5_app)
  /\ (forall b, In b (blocks_of (rows (app_data grid5_app))) ->
                (b <= max_block grid5_app)%Z)
  /\ blocks_per_second grid5_app
     = inject_Z (max_block grid5_app) / inject_Z ANIMATION_DURATION.
Proof.
  split.
  - pose proof (main_app_consistent None) as H. cbv zeta in H.
    destruct H as [_ [_ [H _]]]. apply H. vm_compute. reflexivity.
  - pose proof (main_app_consistent (Some (csv_grid 5 1000))) as H.
    cbv zeta in H. destruct H as [_ [_ [_ H]]]. apply H.
    vm_compute. discriminate.
Defined.

(** ** The validator and the loader *)

Lemma duplicated_sum_zero (seen bs : list Z) :
  duplicated_sum seen bs = O <->
  NoDup bs /\ forall b, In b bs -> ~ In b seen.
Proof.
  revert seen. induction bs as [|b bs IH]; intro seen; simpl.
  - split; [intros _; split; [constructor|intros b []]|reflexivity].
  - destruct (existsb (Z.eqb b) seen) eqn:E.
    + split; [discriminate|]. intros [_ H]. exfalso.
      apply existsb_exists in E. destruct E as [x [Hx Hbx]].
      apply Z.eqb_eq in Hbx. subst x. apply (H b); auto.
    + simpl. rewrite IH. split.
      * intros [Hn Hall]. split.
        -- constructor; [|exact Hn]. intro Hin. apply (Hall b Hin). left. reflexivity.
        -- intros x [<-|Hx] Hs.
           ++ assert (existsb (Z.eqb b) seen = true); [|congruence].
              apply existsb_exists. exists b. split; [exact Hs|apply Z.eqb_refl].
           ++ apply (Hall x Hx). right. exact Hs.
      * intros [Hn Hall]. inversion Hn as [|y ys Hnotin Hn']; subst.
        split; [exact Hn'|]. intros x Hx [<-|Hs]; [contradiction|].
        apply (Hall x); [right; exact Hx|exact Hs].
Qed.

Lemma load_data_blocks_perm (csv : CsvTable) (p_in p_out : nat) :
  index_of "AlphaPoints_per_block_in" (csv_columns csv) = Some p_in ->
  index_of "AlphaPoints_per_block_out" (csv_columns csv) = Some p_out ->
  Permutation (blocks_of (rows (load_data (Some csv)))) (map fst (csv_rows csv)).
Proof.
  intros Hin Hout. apply column_Ok in Hin. apply column_Ok in Hout.
  destruct (load_data_try_rows csv p_in p_out Hin Hout) as [data [Hl [_ [Hp _]]]].
  unfold load_data. rewrite Hl.
  rewrite blocks_of_snd. rewrite (Permutation_map snd Hp).
  rewrite range_index_snd, map_map. reflexivity.
Qed.

(** X21. [validate_csv] rejects only a file it cannot read. It accepts a
    file that lacks a flow column, listing the column as missing, although
    [load_data] returns the empty frame for that file. *)
Theorem validate_csv_accepts (csv : CsvTable) :
  validate_csv None = (false, None)
  /\ exists report,
       validate_csv (Some csv) = (true, Some report)
       /\ (forall col, In col (missing_columns report) <->
             In col required_columns /\ index_of col (csv_columns csv) = None)
       /\ (In "AlphaPoints_per_block_in"%string (missing_columns report)
           \/ In "AlphaPoints_per_block_out"%string (missing_columns report) ->
           load_data (Some csv) = empty_frame).
Proof.
  split; [reflexivity|]. eexists. split; [reflexivity|]. cbn [missing_columns].
  assert (Hm : forall col,
            In col (filter (fun col => match index_of col (csv_columns csv) with
                                       | Some _ => false
                                       | None => true
                                       end) required_columns)
            <-> In col required_columns /\ index_of col (csv_columns csv) = None).
  { intro col. rewrite filter_In.
    destruct (index_of col (csv_columns csv)); split; intros [H1 H2];
      split; auto; discriminate. }
  split; [exact Hm|].
  intros [H|H]; apply Hm in H; destruct H as [_ H];
    unfold load_data, load_data_try, column; rewrite H; [reflexivity|].
  destruct (index_of "AlphaPoints_per_block_in" (csv_columns csv)); reflexivity.
Qed.

Lemma validate_csv_accepts_witness :
  exists report,
    validate_csv (Some csv_no_outflow) = (true, Some report)
    /\ In "AlphaPoints_per_block_out"%string (missing_columns report)
    /\ load_data (Some csv_no_outflow) = empty_frame.
Proof.
  destruct (validate_csv_accepts csv_no_outflow) as [_ [report [H1 [H2 H3]]]].
  assert (M : In "AlphaPoints_per_block_out"%string (missing_columns report)).
  { apply H2. split; [vm_compute; tauto|reflexivity]. }
  exists report. split; [exact H1|]. split; [exact M|].
  apply H3. right. exact M.
Defined.

(** X22. The validator reports no duplicate block exactly when the blocks of
    the file are pairwise different; then, for a file with both flow
    columns, two or more lines and blocks that are [int64] values and not
    negative, the frame the application builds has a positive block
    interval. *)
Theorem validate_csv_duplicates (csv : CsvTable) (report : Report) :
  validate_csv (Some csv) = (true, Some report) ->
  (duplicate_blocks report = O <-> NoDup (map fst (csv_rows csv)))
  /\ (duplicate_blocks report = O ->
      forall p_in p_out,
        index_of "AlphaPoints_per_block_in" (csv_columns csv) = Some p_in ->
        index_of "AlphaPoints_per_block_out" (csv_columns csv) = Some p_out ->
        (2 <= length (csv_rows csv))%nat ->
        block_range (map fst (csv_rows csv)) ->
        (0 < attrs_block_interval (main_data (Some csv)))%Z).
Proof.
  intro H. inversion H; subst; clear H. cbn [duplicate_blocks].
  assert (Hd : duplicated_sum [] (map fst (csv_rows csv)) = O
               <-> NoDup (map fst (csv_rows csv))).
  { rewrite duplicated_sum_zero. split; [tauto|]. intro Hn. split; [exact Hn|].
    intros b _ []. }
  split; [exact Hd|].
  intros Hz p_in p_out Hin Hout Hlen HR. apply Hd in Hz.
  pose proof (load_data_blocks_perm csv p_in p_out Hin Hout) as Hp.
  assert (Hp' : Permutation (blocks_of (rows (main_data (Some csv))))
                            (map fst (csv_rows csv))).
  { rewrite <- Hp. rewrite !blocks_of_snd.
    apply Permutation_map, main_data_rows_perm. }
  unfold main_data in *. apply preprocess_interval_positive.
  - pose proof (Permutation_length Hp') as Hl.
    rewrite blocks_of_length, length_map in Hl. unfold len in *. lia.
  - apply ascending_NoDup_strict; [apply preprocess_ascending|].
    eapply Permutation_NoDup; [apply Permutation_sym; exact Hp'|exact Hz].
  - unfold block_range.
    eapply Permutation_Forall; [apply Permutation_sym; exact Hp'|exact HR].
Qed.

Lemma validate_csv_duplicates_witness :
  NoDup (map fst (csv_rows (csv_grid 5 1000)))
  /\ (0 < attrs_block_interval (main_data (Some (csv_grid 5 1000))))%Z.
Proof.
  destruct (validate_csv_duplicates (csv_grid 5 1000) grid5_report) as [H1 H2].
  - vm_compute. reflexivity.
  - assert (D : duplicate_blocks grid5_report = O) by reflexivity.
    split; [apply H1; exact D|].
    apply (H2 D 0%nat 1%nat); [reflexivity|reflexivity|vm_compute; lia|].
    unfold block_range. apply Forall_forall. intros b H. vm_compute in H.
    repeat (destruct H as [H|H]; [subst b; lia|]). contradiction.
Defined.

(** ** The marker on evenly spaced data *)

Lemma py_round_cases (x : Q) :
  let r := x - inject_Z (Qfloor x) in
  (py_round x = Qfloor x /\ r <= 1 # 2)
  \/ (py_round x = (Qfloor x + 1)%Z /\ (1 # 2) <= r).
Proof.
  intro r. unfold py_round. fold r.
  destruct (Qltb r (1 # 2)) eqn:A.
  - left. apply Qltb_lt in A. split; [reflexivity|lra].
  - apply Qltb_ge in A. destruct (Qltb (1 # 2) r) eqn:B.
    + right. split; [reflexivity|exact A].
    + apply Qltb_ge in B. destruct (Z.even (Qfloor x)).
      * left. split; [reflexivity|exact B].
      * right. split; [reflexivity|exact A].
Qed.

Lemma py_round_near (x : Q) :
  - (1 # 2) <= inject_Z (py_round x) - x /\ inject_Z (py_round x) - x <= 1 # 2.
Proof.
  pose proof (Qfloor_le x) as Hlo. pose proof (Qlt_floor x) as Hhi.
  rewrite inject_Z_plus in Hhi. change (inject_Z 1) with 1 in Hhi.
  destruct (py_round_cases x) as [[E H]|[E H]]; rewrite E.
  - split; lra.
  - rewrite inject_Z_plus. change (inject_Z 1) with 1. split; lra.
Qed.

Lemma py_round_nonneg (x : Q) : 0 <= x -> (0 <= py_round x)%Z.
Proof.
  intro H. assert (F : (0 <= Qfloor x)%Z).
  { change 0%Z with (Qfloor 0). apply Qfloor_resp_le. exact H. }
  destruct (py_round_cases x) as [[E _]|[E _]]; rewrite E; lia.
Qed.

Lemma py_round_le (x : Q) (n : Z) : x <= inject_Z n -> (py_round x <= n)%Z.
Proof.
  intro H. pose proof (Qfloor_le x) as Hlo.
  destruct (py_round_cases x) as [[E _]|[E Hr]]; rewrite E.
  - rewrite Zle_Qle. lra.
  - assert (L : inject_Z (Qfloor x) < inject_Z n) by lra.
    rewrite <- Zlt_Qlt in L. lia.
Qed.

Lemma Qabs_lower (x y : Q) : y <= x \/ y <= - x -> y <= Qabs x.
Proof.
  intros [H|H].
  - apply Qle_trans with x; [exact H|apply Qle_Qabs].
  - apply Qle_trans with (- x); [exact H|].
    rewrite <- Qabs_opp. apply Qle_Qabs.
Qed.

(** X23. On evenly spaced data (row [i] at block [i * s], block interval
    [s > 0]) with a value in every column of every row, and for a target
    from block 0 up to the last block, the marker [find_current_value]
    returns is the block and the column value of the row at position
    [round (t / s)]. That row is within half an interval of the target and
    no row of the frame is nearer. *)
Theorem find_current_value_regular (data : DataFrame) (s : Z) (t : Q)
    (col : string) (p : nat) :
  (0 < s)%Z ->
  regular_grid data s ->
  rows data <> [] ->
  full_width data ->
  index_of col (columns data) = Some p ->
  0 <= t ->
  t <= inject_Z ((len data - 1) * s) ->
  let c := py_round (t / inject_Z s) in
  exists r v,
    iloc data c = Ok r
    /\ block r = (c * s)%Z
    /\ nth_error (vals r) p = Some v
    /\ find_current_value data t col = Some (block r, v)
    /\ dist t r <= inject_Z s / 2
    /\ forall r', In r' (map snd (rows data)) -> dist t r <= dist t r'.
Proof.
  intros Hs Hg Hne Hw Hp Ht Hlast c.
  change (inject_Z s / 2) with (inject_Z s * (1 # 2)).
  assert (Hs' : 0 < inject_Z s) by (rewrite Zlt_Qlt in Hs; exact Hs).
  assert (Hlen : (0 < len data)%Z).
  { unfold len. destruct (rows data); [congruence|simpl; lia]. }
  set (x := t / inject_Z s) in *.
  assert (Hts : t == x * inject_Z s) by (unfold x; field; lra).
  assert (Hx0 : 0 <= x) by (apply div_nonneg; assumption).
  assert (Hx1 : x <= inject_Z (len data - 1)).
  { unfold x. apply Qle_shift_div_r; [exact Hs'|].
    rewrite <- inject_Z_mult. exact Hlast. }
  assert (Hc : (0 <= c < len data)%Z).
  { pose proof (py_round_nonneg x Hx0). pose proof (py_round_le x _ Hx1).
    unfold c. lia. }
  destruct (py_round_near x) as [N1 N2]. fold c in N1, N2.
  destruct (regular_grid_iloc data s c Hg Hc) as [r [Hr Hb]].
  assert (Hnear : - (inject_Z s * (1 # 2)) <= inject_Z (c * s) - t
                  /\ inject_Z (c * s) - t <= inject_Z s * (1 # 2)).
  { rewrite inject_Z_mult. clearbody c. clearbody x.
    assert (P1 : 0 <= (inject_Z c - x + (1 # 2)) * inject_Z s)
      by (apply Qmult_le_0_compat; lra).
    assert (P2 : 0 <= ((1 # 2) - (inject_Z c - x)) * inject_Z s)
      by (apply Qmult_le_0_compat; lra).
    assert (E : inject_Z c * inject_Z s - t == (inject_Z c - x) * inject_Z s)
      by (rewrite Hts; ring).
    rewrite E. split.
    - apply Qle_trans with (- (1 # 2) * inject_Z s); [lra|].
      apply Qmult_le_compat_r; lra.
    - apply Qle_trans with ((1 # 2) * inject_Z s); [|lra].
      apply Qmult_le_compat_r; lra. }
  assert (Hdist : dist t r <= inject_Z s * (1 # 2)).
  { unfold dist. rewrite Hb. apply Qabs_Qle_condition. exact Hnear. }
  assert (Hin : exists lr, In lr (rows data) /\ snd lr = r).
  { destruct (iloc_total data c Hc) as [lr [Hn Hl]]. exists lr.
    split; [eapply nth_error_In; eauto|congruence]. }
  destruct Hin as [lr [Hin Hlr]].
  assert (Hv : exists v, nth_error (vals r) p = Some v).
  { destruct (nth_error (vals r) p) as [v|] eqn:E; [eauto|].
    apply nth_error_None in E. rewrite <- Hlr in E. rewrite (Hw lr Hin) in E.
    apply index_of_Some in Hp. lia. }
  destruct Hv as [v Hv].
  exists r, v. do 3 (split; [assumption|]). split; [|split; [exact Hdist|]].
  - unfold find_current_value, find_current_value_try.
    destruct Hg as [Hiv _]. rewrite Hiv.
    destruct (s =? 0)%Z eqn:E; [apply Z.eqb_eq in E; lia|]. cbn [bind].
    fold x. fold c. rewrite (Z.max_r 0 c) by lia.
    rewrite (Z.min_r (len data - 1) c) by lia.
    rewrite Hr. cbn [bind].
    assert (F : Qltb (inject_Z (s * 2)) (dist t r) = false).
    { apply Qltb_ge. rewrite inject_Z_mult. change (inject_Z 2) with 2. lra. }
    rewrite F. cbn [bind]. rewrite Hr. cbn [bind].
    rewrite (get_value_column _ _ _ _ _ Hp Hv). reflexivity.
  - intros r' Hr'. apply in_map_iff in Hr'. destruct Hr' as [lr' [E Hin']].
    subst r'. destruct (In_nth_error _ _ Hin') as [j Hj].
    destruct Hg as [_ Hgrid]. pose proof (Hgrid j lr' Hj) as Hbj.
    destruct (Z.lt_trichotomy (Z.of_nat j) c) as [L|[L|L]].
    + apply Qle_trans with (inject_Z s * (1 # 2)); [exact Hdist|].
      unfold dist. rewrite Hbj. apply Qabs_lower. right.
      assert (B : (Z.of_nat j * s + s <= c * s)%Z) by nia.
      rewrite Zle_Qle, inject_Z_plus, (inject_Z_mult c) in B.
      rewrite inject_Z_mult in Hnear. destruct Hnear. lra.
    + unfold dist. rewrite Hbj, Hb, L. apply Qle_refl.
    + apply Qle_trans with (inject_Z s * (1 # 2)); [exact Hdist|].
      unfold dist. rewrite Hbj. apply Qabs_lower. left.
      assert (B : (c * s + s <= Z.of_nat j * s)%Z) by nia.
      rewrite Zle_Qle, inject_Z_plus, (inject_Z_mult c) in B.
      rewrite inject_Z_mult in Hnear. destruct Hnear. lra.
Qed.

Lemma find_current_value_regular_witness :
  let c := py_round (1400 / inject_Z 1000) in
  exists r v,
    iloc grid5 c = Ok r
    /\ block r = (c * 1000)%Z
    /\ nth_error (vals r) 0 = Some v
    /\ find_current_value grid5 1400 flow_in = Some (block r, v)
    /\ dist 1400 r <= inject_Z 1000 / 2
    /\ forall r', In r' (map snd (rows grid5)) -> dist 1400 r <= dist 1400 r'.
Proof.
  apply (find_current_value_regular grid5 1000 1400 flow_in 0).
  - reflexivity.
  - apply grid5_regular.
  - vm_compute. discriminate.
  - apply grid5_full_width.
  - vm_compute. reflexivity.
  - vm_compute. discriminate.
  - vm_compute. discriminate.
Defined.

(** ** The figures *)

Lemma chart_window_subseq (data : DataFrame) (t : Q) (mb : Z)
    (w : Q * Q * list (Z * Row)) :
  chart_window data t mb = Ok w -> subseq (snd w) (rows data).
Proof.
  intro Hw. unfold chart_window in Hw. do 2 inv_bind Hw.
  inversion Hw; subst; simpl.
  eapply subseq_trans; [apply subseq_filter|].
  unfold iloc_slice.
  eapply subseq_trans; [apply subseq_firstn|apply subseq_skipn].
Qed.

Lemma len_0_nil (data : DataFrame) : (len data =? 0)%Z = true <-> rows data = [].
Proof.
  unfold len. rewrite Z.eqb_eq. destruct (rows data); simpl; split; intro H;
    try reflexivity; try lia; discriminate.
Qed.

(** X24. What each outcome of [create_exchange_rate_chart] tells: the
    title No Data Available only for a frame without rows; the missing
    column title only when the frame has no [exchange_rate] column; an error
    title only when the block interval is 0. A line it draws has at least
    one and fewer than 80 points, which are the blocks and exchange rates of
    rows of the frame, in the frame's order, all inside the range of the
    x axis; that range starts at 0 or later and ends at [max_block] or
    before. *)
Theorem create_exchange_rate_chart_outcomes (data : DataFrame) (t : Q) (mb : Z) :
  match create_exchange_rate_chart data t mb with
  | EmptyFigure NoDataAvailable => rows data = []
  | EmptyFigure (MissingDataColumn name) =>
      rows data <> [] /\ name = "exchange_rate"%string
      /\ index_of "exchange_rate" (columns data) = None
  | EmptyFigure (ErrorTitle e) =>
      rows data <> [] /\ attrs_block_interval data = 0%Z
  | EmptyFigure NoDataInCurrentWindow =>
      rows data <> [] /\ attrs_block_interval data <> 0%Z
  | LineFigure x y marker (lo, hi) =>
      exists p window,
        index_of "exchange_rate" (columns data) = Some p
        /\ subseq window (rows data)
        /\ window <> []
        /\ (Z.of_nat (length window) < 2 * MAX_DATA_POINTS_PER_CHART)%Z
        /\ x = blocks_of window
        /\ y = column_values p window
        /\ (forall b, In b x -> lo <= inject_Z b /\ inject_Z b <= hi)
        /\ 0 <= lo /\ hi <= inject_Z mb
        /\ marker = find_current_value data t "exchange_rate"
  | GaugeFigure _ _ => False
  end.
Proof.
  unfold create_exchange_rate_chart.
  destruct (len data =? 0)%Z eqn:L.
  { apply len_0_nil. exact L. }
  assert (Hne : rows data <> []).
  { intro E. apply len_0_nil in E. congruence. }
  destruct (index_of "exchange_rate" (columns data)) as [p|] eqn:P.
  2:{ repeat split; assumption. }
  destruct (optimize_chart_data data t mb "exchange_rate") as [c|e] eqn:O.
  2:{ cbn [bind]. split; [exact Hne|].
      destruct (Z.eq_dec (attrs_block_interval data) 0) as [Z0|Z0]; [exact Z0|].
      exfalso. apply Z.eqb_neq in Z0.
      unfold optimize_chart_data, chart_window, int_div in O. rewrite Z0 in O.
      discriminate. }
  cbn [bind].
  assert (Hi : attrs_block_interval data <> 0%Z).
  { intro Z0. unfold optimize_chart_data, chart_window, int_div in O.
    rewrite Z0 in O. discriminate. }
  destruct (Z.of_nat (length (window_data c)) =? 0)%Z eqn:W.
  { split; assumption. }
  pose proof O as O'. apply optimize_chart_data_Ok in O'.
  destruct O' as [w [Hw [Hd [Hs He]]]].
  pose proof (chart_window_subseq _ _ _ _ Hw) as Sw.
  apply chart_window_Ok in Hw. destruct Hw as [Hs' [He' Hall]].
  exists p, (window_data c).
  split; [reflexivity|]. split.
  { rewrite Hd. eapply subseq_trans; [apply subseq_downsample|exact Sw]. }
  split.
  { intro E. rewrite E in W. discriminate. }
  split.
  { rewrite Hd. apply downsample_length. }
  do 2 (split; [reflexivity|]). split.
  { intros b Hb. apply in_map_iff in Hb. destruct Hb as [lr [E Hin]]. subst b.
    rewrite Hd in Hin. apply downsample_In in Hin.
    destruct (Hall lr Hin) as [_ R]. rewrite Hs, He. exact R. }
  split; [rewrite Hs, Hs'; apply py_max_bounds|].
  split; [rewrite He, He'; apply py_min_bounds|].
  unfold optimize_chart_data in O. inv_bind O. inversion O. reflexivity.
Qed.

(** X25. For a frame with rows and a [warehouse_capacity] column,
    [create_warehouse_chart] always draws the gauge. The bar is in the low
    band exactly below 33 and in the high band exactly from 66; the value is
    the capacity stored in some row of the frame, or 50 when the lookup
    fails. With a block interval of 0 the gauge shows 50 in the medium
    band. *)
Theorem create_warehouse_chart_gauge (data : DataFrame) (t : Q) (mb : Z) (p : nat) :
  rows data <> [] ->
  index_of "warehouse_capacity" (columns data) = Some p ->
  exists value bar,
    create_warehouse_chart data t mb = GaugeFigure value bar
    /\ (bar = Low <-> value < 33)
    /\ (bar = High <-> 66 <= value)
    /\ (attrs_block_interval data = 0%Z -> value = 50 /\ bar = Medium)
    /\ (value = 50
        \/ exists r, In r (map snd (rows data))
                     /\ nth_error (vals r) p = Some value).
Proof.
  intros Hne Hp. unfold create_warehouse_chart.
  destruct (len data =? 0)%Z eqn:L; [apply len_0_nil in L; congruence|].
  rewrite Hp.
  set (value := match find_current_value data t "warehouse_capacity" with
                | Some marker => snd marker | None => 50 end).
  exists value. eexists. split; [reflexivity|].
  split; [|split; [|split]].
  - destruct (Qltb value 33) eqn:A.
    + apply Qltb_lt in A. tauto.
    + apply Qltb_ge in A. split.
      * destruct (Qltb value 66); discriminate.
      * intro. lra.
  - destruct (Qltb value 33) eqn:A.
    + apply Qltb_lt in A. split; [discriminate|intro; lra].
    + destruct (Qltb value 66) eqn:B.
      * apply Qltb_lt in B. split; [discriminate|intro; lra].
      * apply Qltb_ge in B. tauto.
  - intro Z0. assert (V : value = 50).
    { unfold value, find_current_value, find_current_value_try.
      rewrite Z0. reflexivity. }
    rewrite V. split; reflexivity.
  - unfold value, find_current_value.
    destruct (find_current_value_try data t "warehouse_capacity") as [bv|e] eqn:E.
    + right. apply find_current_value_try_Ok in E.
      destruct E as [r [Hin [_ Hv]]]. apply get_value_Ok in Hv.
      destruct Hv as [[p' [Hp' Hv]]|[[Hn _]|[Hn _]]]; [|congruence|congruence].
      exists r. split; [exact Hin|]. simpl. congruence.
    + left. reflexivity.
Qed.

Lemma create_warehouse_chart_gauge_witness :
  exists value bar,
    create_warehouse_chart warehouse 900 1000 = GaugeFigure value bar
    /\ (bar = Low <-> value < 33)
    /\ (bar = High <-> 66 <= value)
    /\ (attrs_block_interval warehouse = 0%Z -> value = 50 /\ bar = Medium)
    /\ (value = 50
        \/ exists r, In r (map snd (rows warehouse))
                     /\ nth_error (vals r) 2 = Some value).
Proof.
  apply (create_warehouse_chart_gauge warehouse 900 1000 2).
  - vm_compute. discriminate.
  - vm_compute. reflexivity.
Defined.
